(** * Event-store dashboard: client-side logic

  A shallow embedding of the dashboard's client-side logic: the playback
  cursor of the Time Travel page, the JWT expiry check and the route
  guard, the axios response interceptor and the polling fetchers, the
  settings export and import, and the date-range filter and day buckets
  of the Analytics page.

  Conventions.  A JavaScript number is an exact rational extended with
  NaN and the two infinities (rounding and the sign of zero are not
  modelled).  A time value is the number of milliseconds since the epoch;
  the local time zone is left to the platform, as the two conversions
  between time values and local time that ECMAScript defines.
  A JavaScript object is a finite map from property names to values.  A
  computation that may throw returns [Exn]; an [async] function returns
  its settled promise, fulfilled ([Ok]) or rejected ([Throw]). *)

From Stdlib Require Import ZArith QArith Bool Lia String Ascii Sorted.
From stdpp Require Import base gmap strings list fin_maps pretty.

#[local] Open Scope string_scope.
#[local] Open Scope Z_scope.

(** ** Part I. Definitions *)

(** *** JavaScript values, errors and completions *)

Module Js.

Inductive JsNumber := NaN | PosInf | NegInf | Fin (q : Q).

#[warnings="-register-all"]
Inductive JsValue :=
| JUndefined
| JNull
| JBool (b : bool)
| JNumber (n : JsNumber)
| JString (s : string)
| JArray (l : list JsValue)
| JObject (m : gmap string JsValue).

(** An HTTP response as axios presents it. *)
Record Response := { status : Z; data : JsValue }.

(** What a [throw] or a rejected promise carries. *)
Inductive JsError :=
| TypeError
| SyntaxError
| URIError
| RangeError
| InvalidCharacterError
| Error (message : string)
| AxiosError (message : string) (response : option Response).

(** The completion of a computation that may throw; for an [async]
    function, its settled promise. *)
Inductive Exn (A : Type) :=
| Ok (a : A)
| Throw (e : JsError).
Arguments Ok {A} a.
Arguments Throw {A} e.

Definition bind {A B} (c : Exn A) (k : A -> Exn B) : Exn B :=
  match c with
  | Ok a => k a
  | Throw e => Throw e
  end.

(** [try { c } catch (error) { h error }] *)
Definition try_catch {A} (c : Exn A) (h : JsError -> Exn A) : Exn A :=
  match c with
  | Ok a => Ok a
  | Throw e => h e
  end.

Definition Qeqb (a b : Q) : bool := Qeq_bool a b.
Definition Qltb (a b : Q) : bool := negb (Qle_bool b a).

(** [a < b] on numbers: false as soon as an operand is NaN. *)
Definition number_lt (a b : JsNumber) : bool :=
  match a, b with
  | NaN, _ | _, NaN => false
  | Fin x, Fin y => Qltb x y
  | NegInf, NegInf => false
  | NegInf, _ => true
  | _, PosInf => match a with PosInf => false | _ => true end
  | _, _ => false
  end.

(** ToBoolean: [!v] is [negb (truthy v)]. *)
Definition truthy (v : JsValue) : bool :=
  match v with
  | JUndefined | JNull => false
  | JBool b => b
  | JNumber NaN => false
  | JNumber (Fin q) => negb (Qeqb q 0)
  | JNumber _ => true
  | JString s => negb (String.eqb s EmptyString)
  | JArray _ | JObject _ => true
  end.

(** [v.k] for a value that is neither null nor undefined and a name [k]
    that is no index, no [length] and no inherited method: an own
    property of an object, undefined elsewhere. *)
Definition getProp (v : JsValue) (k : string) : JsValue :=
  match v with
  | JObject m => default JUndefined (m !! k)
  | _ => JUndefined
  end.

(** [v?.k] *)
Definition getPropOpt (v : JsValue) (k : string) : JsValue :=
  match v with
  | JUndefined | JNull => JUndefined
  | _ => getProp v k
  end.

(** [a || b] *)
Definition or_else (a b : JsValue) : JsValue := if truthy a then a else b.

End Js.

Notation "'let*' x ':=' c 'in' k" := (Js.bind c (fun x => k))
  (at level 10, x name, c at level 100, k at level 200).

(** *** The playback cursor (pages/TimeTravel.tsx) *)

Module TimeTravel.

Record TimelineEvent := {
  eventName : string;
  timestamp : string;
  changes : list string
}.

Inductive ViewMode := timestamp_mode | eventCount_mode.

Definition ViewMode_eqb (a b : ViewMode) : bool :=
  match a, b with
  | timestamp_mode, timestamp_mode | eventCount_mode, eventCount_mode => true
  | _, _ => false
  end.

(** The component state the playback controls read and write.  [timeline]
    is [None] until the timeline query has data ([timeline?.events]). *)
Record State := {
  eventCount : Z;
  viewMode : ViewMode;
  isPlaying : bool;
  playbackSpeed : Z;
  timeline : option (list TimelineEvent)
}.

Definition setEventCount (f : Z -> Z) (st : State) : State :=
  {| eventCount := f (eventCount st); viewMode := viewMode st;
     isPlaying := isPlaying st; playbackSpeed := playbackSpeed st;
     timeline := timeline st |}.

Definition setIsPlaying (b : bool) (st : State) : State :=
  {| eventCount := eventCount st; viewMode := viewMode st;
     isPlaying := b; playbackSpeed := playbackSpeed st;
     timeline := timeline st |}.

Definition setViewMode (m : ViewMode) (st : State) : State :=
  {| eventCount := eventCount st; viewMode := m;
     isPlaying := isPlaying st; playbackSpeed := playbackSpeed st;
     timeline := timeline st |}.

(** [timeline.events.length] *)
Definition events_length (evs : list TimelineEvent) : Z := Z.of_nat (length evs).

(** The updater the interval callback passes to [setEventCount]:
    [prev >= maxEvents ? 1 : prev + 1]. *)
Definition autoPlayTick (evs : list TimelineEvent) (prev : Z) : Z :=
  let maxEvents := events_length evs in
  if prev >=? maxEvents then 1 else prev + 1.

(** The guard of the auto-play effect: the interval exists only while
    [isPlaying], the timeline is loaded and the view mode is
    ['eventCount']. *)
Definition autoPlayInstalled (st : State) : bool :=
  isPlaying st && bool_decide (is_Some (timeline st))
  && ViewMode_eqb (viewMode st) eventCount_mode.

(** One firing of the interval; without an installed interval nothing
    fires. *)
Definition tick (st : State) : State :=
  match timeline st with
  | Some evs =>
      if autoPlayInstalled st then setEventCount (autoPlayTick evs) st else st
  | None => st
  end.

Definition handlePlayPause (st : State) : State :=
  setIsPlaying (negb (isPlaying st)) st.

Definition handleStepForward (st : State) : State :=
  match timeline st with
  | Some evs => setEventCount (fun prev => Z.min (prev + 1) (events_length evs)) st
  | None => st
  end.

Definition handleStepBackward (st : State) : State :=
  setEventCount (fun prev => Z.max (prev - 1) 1) st.

Definition handleJumpToStart (st : State) : State :=
  setIsPlaying false (setEventCount (fun _ => 1) st).

Definition handleJumpToEnd (st : State) : State :=
  match timeline st with
  | Some evs => setIsPlaying false (setEventCount (fun _ => events_length evs) st)
  | None => st
  end.

(** The playback operations of the page. *)
Inductive Op :=
| step_forward | step_backward | jump_start | jump_end
| play_pause | set_view_mode (m : ViewMode) | timer_tick.

Definition step (st : State) (o : Op) : State :=
  match o with
  | step_forward => handleStepForward st
  | step_backward => handleStepBackward st
  | jump_start => handleJumpToStart st
  | jump_end => handleJumpToEnd st
  | play_pause => handlePlayPause st
  | set_view_mode m => setViewMode m st
  | timer_tick => tick st
  end.

(** The states reached after each operation of a sequence, in order. *)
Fixpoint trace (st : State) (ops : list Op) : list State :=
  match ops with
  | [] => []
  | o :: ops' => let st' := step st o in st' :: trace st' ops'
  end.

Definition run (st : State) (ops : list Op) : State := foldl step st ops.

(** The state of a freshly mounted page once a timeline of [evs] is
    loaded: cursor 1, not playing, 1000 ms per step. *)
Definition initial (m : ViewMode) (evs : list TimelineEvent) : State :=
  {| eventCount := 1; viewMode := m; isPlaying := false;
     playbackSpeed := 1000; timeline := Some evs |}.

Definition sample_event (n : string) : TimelineEvent :=
  {| eventName := n; timestamp := "2024-01-01T00:00:00.000Z"; changes := [] |}.

Definition five_events : list TimelineEvent :=
  map sample_event ["e1"; "e2"; "e3"; "e4"; "e5"].

End TimeTravel.

(** *** Token decoding and expiry (utils/auth.ts) *)

Module Auth.
Import Js.

(** [s.split(sep)] for a one-character separator. *)
Fixpoint split (sep : ascii) (s : string) : list string :=
  match s with
  | EmptyString => [EmptyString]
  | String c s' =>
      if Ascii.eqb c sep then EmptyString :: split sep s'
      else match split sep s' with
           | h :: t => String c h :: t
           | [] => [String c EmptyString]
           end
  end.

(** [s.replace(/a/g, b)] for single characters. *)
Fixpoint replace_all (a b : ascii) (s : string) : string :=
  match s with
  | EmptyString => EmptyString
  | String c s' => String (if Ascii.eqb c a then b else c) (replace_all a b s')
  end.

Definition hex_digit (n : N) : ascii :=
  ascii_of_N (if (n <? 10)%N then 48 + n else 87 + n).

(** [c.charCodeAt(0).toString(16)] for a character of a binary string. *)
Definition toString16 (c : ascii) : string :=
  let n := N_of_ascii c in
  if (n <? 16)%N then String (hex_digit n) EmptyString
  else String (hex_digit (n / 16)) (String (hex_digit (n mod 16)) EmptyString).

(** [s.slice(-2)] *)
Definition slice_last2 (s : string) : string :=
  substring (String.length s - 2) 2 s.

(** ['%' + ('00' + c.charCodeAt(0).toString(16)).slice(-2)] *)
Definition percent (c : ascii) : string :=
  "%" ++ slice_last2 ("00" ++ toString16 c).

(** [s.split('').map(percent).join('')] *)
Fixpoint percent_all (s : string) : string :=
  match s with
  | EmptyString => EmptyString
  | String c s' => percent c ++ percent_all s'
  end.

Section WithPlatform.
(** The built-ins the module calls; each may throw. *)
Variable atob : string -> Exn string.
Variable decodeURIComponent : string -> Exn string.
Variable JSON_parse : string -> Exn JsValue.
(** ToNumber on a string, an array or an object (StringToNumber, or
    ToPrimitive first, which may throw). *)
Variable ToNumber_nonprimitive : JsValue -> Exn JsNumber.

(** The body of the [try] block of [decodeJWT]. *)
Definition decodeJWT_try (token : string) : Exn JsValue :=
  let* base64Url := match split "." token !! 1%nat with
               | Some s => Ok s
               | None => Throw TypeError
               end in
  let base64 := replace_all "_" "/" (replace_all "-" "+" base64Url) in
  let* binary := atob base64 in
  let* jsonPayload := decodeURIComponent (percent_all binary) in
  JSON_parse jsonPayload.

(** [decodeJWT]: the payload, or null when anything in the block threw. *)
Definition decodeJWT (token : string) : JsValue :=
  match decodeJWT_try token with
  | Ok payload => payload
  | Throw _ => JNull
  end.

Definition ToNumber (v : JsValue) : Exn JsNumber :=
  match v with
  | JUndefined => Ok NaN
  | JNull => Ok (Fin 0)
  | JBool b => Ok (Fin (if b then 1 else 0))
  | JNumber n => Ok n
  | JString _ | JArray _ | JObject _ => ToNumber_nonprimitive v
  end.

(** [Date.now() / 1000] for the clock reading [now] (milliseconds), as the
    exact quotient; the code's quotient is the double nearest to it. *)
Definition currentTime (now : Z) : Q := inject_Z now / 1000.

(** [isTokenExpired]; [now] is what [Date.now()] returns. *)
Definition isTokenExpired (now : Z) (token : string) : Exn bool :=
  let decoded := decodeJWT token in
  if negb (truthy decoded) then Ok true
  else
    let* exp := ToNumber (getProp decoded "exp") in
    Ok (number_lt exp (Fin (currentTime now))).

End WithPlatform.

End Auth.

(** *** The HTTP client (services/api.ts) *)

Module Api.
Import Js.

(** The browser state the client touches. *)
Record Browser := {
  localStorage : gmap string string;
  location_href : string
}.

Definition getItem (k : string) (w : Browser) : option string :=
  localStorage w !! k.

Definition setItem (k v : string) (w : Browser) : Browser :=
  {| localStorage := <[k := v]> (localStorage w); location_href := location_href w |}.

Definition removeItem (k : string) (w : Browser) : Browser :=
  {| localStorage := delete k (localStorage w); location_href := location_href w |}.

Definition set_location (href : string) (w : Browser) : Browser :=
  {| localStorage := localStorage w; location_href := href |}.

(** [process.env.NODE_ENV] *)
Inductive NodeEnv := production | development | test.

Definition is_production (env : NodeEnv) : bool :=
  match env with production => true | _ => false end.

Record Request := {
  method : string;
  url : string;
  Authorization : option string;
  body : JsValue
}.

Definition request (m u : string) (b : JsValue) : Request :=
  {| method := m; url := u; Authorization := None; body := b |}.

(** A computation on the browser state that may reject. *)
Definition M (A : Type) : Type := Browser -> Browser * Exn A.

(** The request interceptor: attach the stored token when there is one
    ([if (token)]: stored and not the empty string). *)
Definition requestInterceptor (config : Request) (w : Browser) : Request :=
  match getItem "authToken" w with
  | Some token =>
      if negb (String.eqb token EmptyString)
      then {| method := method config; url := url config;
              Authorization := Some ("Bearer " ++ token); body := body config |}
      else config
  | None => config
  end.

(** [error.response?.status === 401] *)
Definition is_unauthorized (error : JsError) : bool :=
  match error with
  | AxiosError _ (Some r) => Z.eqb (status r) 401
  | _ => false
  end.

(** [!error.response] *)
Definition no_response (error : JsError) : bool :=
  match error with
  | AxiosError _ (Some _) => false
  | _ => true
  end.

(** The rejection handler of the response interceptor. *)
Definition responseErrorInterceptor (env : NodeEnv) (error : JsError) : M Response :=
  fun w =>
    let w1 :=
      if is_unauthorized error then
        let w' := removeItem "authToken" w in
        if is_production env then set_location "/login" w' else w'
      else w in
    if no_response error
    then (w1, Throw (Error "Network error - please check your connection"))
    else (w1, Throw error).

(** One call through the [api] instance.  [adapter] is the exchange with
    the server: the response received, or [None] when none arrives (network
    failure, timeout).  axios fulfils on a 2xx status and rejects with the
    response attached otherwise. *)
Definition api_call (env : NodeEnv) (adapter : Request -> option Response)
    (config : Request) : M Response :=
  fun w =>
    match adapter (requestInterceptor config w) with
    | Some r =>
        if (200 <=? status r) && (status r <? 300) then (w, Ok r)
        else responseErrorInterceptor env
               (AxiosError "Request failed" (Some r)) w
    | None => responseErrorInterceptor env (AxiosError "Network Error" None) w
    end.

(** [response.data?.data || response.data] *)
Definition unwrap (response : Response) : JsValue :=
  or_else (getPropOpt (data response) "data") (data response).

(** [healthApi.getHealth]: the catch block logs and re-throws. *)
Definition getHealth (env : NodeEnv) (adapter : Request -> option Response) : M JsValue :=
  fun w =>
    let (w', r) := api_call env adapter (request "GET" "/health" JUndefined) w in
    (w', try_catch (let* response := r in Ok (unwrap response))
                   (fun error => Throw error)).

(** [notificationsApi.getUnreadCount]: the catch block logs and returns
    [{ unreadCount: 0 }]. *)
Definition getUnreadCount (env : NodeEnv) (adapter : Request -> option Response) : M JsValue :=
  fun w =>
    let (w', r) := api_call env adapter (request "GET" "/notifications/unread-count" JUndefined) w in
    (w', try_catch (let* response := r in Ok (unwrap response))
                   (fun error => Ok (JObject {[ "unreadCount" := JNumber (Fin 0) ]}))).

End Api.

(** *** The route guard (components/PrivateRoute.tsx) and sign-out (components/Layout.tsx) *)

Module Route.
Import Js Api.

Inductive Rendered :=
| Navigate (to : string)
| Children.

Section WithPlatform.
Variable atob : string -> Exn string.
Variable decodeURIComponent : string -> Exn string.
Variable JSON_parse : string -> Exn JsValue.
Variable ToNumber_nonprimitive : JsValue -> Exn JsNumber.

Definition redirect_to_login (w : Browser) : Browser * Exn Rendered :=
  (removeItem "user" (removeItem "authToken" w), Ok (Navigate "/login")).

(** [PrivateRoute]: [!token || isTokenExpired(token)] clears the stored
    token and user and renders a redirect; otherwise the children. *)
Definition PrivateRoute (now : Z) (w : Browser) : Browser * Exn Rendered :=
  match getItem "authToken" w with
  | None => redirect_to_login w
  | Some token =>
      if String.eqb token EmptyString then redirect_to_login w
      else
        match Auth.isTokenExpired atob decodeURIComponent JSON_parse
                ToNumber_nonprimitive now token with
        | Ok true => redirect_to_login w
        | Ok false => (w, Ok Children)
        | Throw e => (w, Throw e)
        end
  end.

(** [handleLogout] of the layout. *)
Definition handleLogout (w : Browser) : Browser :=
  removeItem "user" (removeItem "authToken" w).

(** What can happen after a response arrived, short of signing in again:
    further calls through the client, route checks, sign-out, and saving
    the settings. *)
Inductive Event :=
| call (adapter : Request -> option Response) (config : Request)
| route_check (now : Z)
| logout
| save_settings (json : string).

Definition handle (env : NodeEnv) (ev : Event) (w : Browser) : Browser * option (Exn Rendered) :=
  match ev with
  | call adapter config => (fst (api_call env adapter config w), None)
  | route_check now => let (w', r) := PrivateRoute now w in (w', Some r)
  | logout => (handleLogout w, None)
  | save_settings json => (setItem "eventDashboardSettings" json w, None)
  end.

Definition is_route_check (ev : Event) : bool :=
  match ev with route_check _ => true | _ => false end.

(** The outcomes of the route checks among [evs], in order. *)
Fixpoint route_outcomes (env : NodeEnv) (evs : list Event) (w : Browser) : list (Exn Rendered) :=
  match evs with
  | [] => []
  | ev :: evs' =>
      let (w', r) := handle env ev w in
      match r with
      | Some out => out :: route_outcomes env evs' w'
      | None => route_outcomes env evs' w'
      end
  end.

End WithPlatform.

End Route.

(** *** Settings export and import (pages/Settings.tsx) *)

Module Settings.
Import Js.

(** A JSON document.  A number in a document is finite. *)
#[warnings="-register-all"]
Inductive Json :=
| jnull
| jbool (b : bool)
| jnumber (q : Q)
| jstring (s : string)
| jarray (l : list Json)
| jobject (m : gmap string Json).

(** The document [JSON.stringify] writes for a value: nothing for
    undefined; null for NaN and the infinities; in an array, null for an
    element that writes nothing; in an object, no member for a property that
    writes nothing. *)
Fixpoint toJson (v : JsValue) : option Json :=
  match v with
  | JUndefined => None
  | JNull => Some jnull
  | JBool b => Some (jbool b)
  | JNumber (Fin q) => Some (jnumber q)
  | JNumber _ => Some jnull
  | JString s => Some (jstring s)
  | JArray l => Some (jarray (map (fun x => default jnull (toJson x)) l))
  | JObject m => Some (jobject (omap toJson m))
  end.

(** The value [JSON.parse] builds from a document. *)
Fixpoint ofJson (j : Json) : JsValue :=
  match j with
  | jnull => JNull
  | jbool b => JBool b
  | jnumber q => JNumber (Fin q)
  | jstring s => JString s
  | jarray l => JArray (map ofJson l)
  | jobject m => JObject (ofJson <$> m)
  end.

(** The content of a text file: the JSON document it spells, or text that
    is not JSON. *)
Inductive FileText :=
| json_text (j : Json)
| other_text (s : string).

(** [JSON.stringify(v, null, 2)]; undefined when [v] writes nothing. *)
Definition JSON_stringify (v : JsValue) : option FileText :=
  json_text <$> toJson v.

Definition JSON_parse (text : FileText) : Exn JsValue :=
  match text with
  | json_text j => Ok (ofJson j)
  | other_text _ => Throw SyntaxError
  end.

(** The own enumerable properties an object spread copies. *)
Definition own_properties (v : JsValue) : gmap string JsValue :=
  match v with
  | JObject m => m
  | JArray l => list_to_map (imap (fun i x => (pretty i, x)) l)
  | JString s =>
      list_to_map
        (imap (fun i c => (pretty i, JString (String c EmptyString)))
              (list_ascii_of_string s))
  | _ => ∅
  end.

(** [{ ...a, ...b }] *)
Definition spread (a : gmap string JsValue) (b : JsValue) : gmap string JsValue :=
  own_properties b ∪ a.

(** [env || 'http://localhost:3000'] *)
Definition apiUrl_default (REACT_APP_API_URL : option string) : string :=
  match REACT_APP_API_URL with
  | Some u => if String.eqb u EmptyString then "http://localhost:3000" else u
  | None => "http://localhost:3000"
  end.

Definition number (z : Z) : JsValue := JNumber (Fin (inject_Z z)).

(** The initial state of the page. *)
Definition initialSettings (REACT_APP_API_URL : option string) : gmap string JsValue :=
  <[ "apiUrl" := JString (apiUrl_default REACT_APP_API_URL) ]>
  (<[ "refreshInterval" := number 30 ]>
  (<[ "maxEventsPerPage" := number 50 ]>
  (<[ "enableNotifications" := JBool true ]>
  (<[ "enableAutoRefresh" := JBool true ]>
  (<[ "retentionDays" := number 90 ]>
  (<[ "compressionEnabled" := JBool true ]>
  (<[ "debugMode" := JBool false ]> ∅))))))).

Definition handleReset (settings : gmap string JsValue) : gmap string JsValue :=
  initialSettings None.

Section Form.
(** [parseInt] of the text of an input. *)
Variable parseInt : string -> JsNumber.

(** The change handlers: [setSettings({ ...settings, key: ... })]. *)
Definition changeText (key value : string) (settings : gmap string JsValue)
    : gmap string JsValue :=
  <[ key := JString value ]> settings.

Definition changeNumber (key value : string) (settings : gmap string JsValue)
    : gmap string JsValue :=
  <[ key := JNumber (parseInt value) ]> settings.

Definition toggle (key : string) (settings : gmap string JsValue)
    : gmap string JsValue :=
  <[ key := JBool (negb (truthy (getProp (JObject settings) key))) ]> settings.

End Form.

(** [handleExportSettings]: the content of the downloaded file. *)
Definition handleExportSettings (settings : gmap string JsValue) : option FileText :=
  JSON_stringify (JObject settings).

(** [handleImportSettings]: the settings after the chosen file was read,
    and the alert shown, if any.  [file] is the content of the chosen file,
    [None] when no file was chosen. *)
Definition handleImportSettings (settings : gmap string JsValue) (file : option FileText)
    : gmap string JsValue * option string :=
  match file with
  | None => (settings, None)
  | Some text =>
      match JSON_parse text with
      | Ok importedSettings => (spread settings importedSettings, None)
      | Throw _ => (settings, Some "Invalid settings file")
      end
  end.

(** The values the fields of the page are declared to hold, the null a
    document can carry included: the ones [JSON.stringify] writes
    faithfully. *)
Definition plain (v : JsValue) : bool :=
  match v with
  | JString _ | JBool _ | JNull | JNumber (Fin _) => true
  | _ => false
  end.

End Settings.

(** *** Date-range filter and day buckets (pages/Analytics.tsx, pages/EventTimeline.tsx) *)

Module Analytics.
Import Js.

Record EventData := {
  eventName : string;
  timestamp : string;
  changes : list string
}.

Record DateRange := {
  start : string;
  range_end : string
}.

Record User := {
  id : string;
  name : string;
  email : string;
  role : string
}.

Record UserAnalyticsData := {
  userId : string;
  userName : string;
  userRole : string;
  stats : JsValue;
  eventsInRange : list EventData
}.

(** A [Date] object: its time value, [None] for an Invalid Date. *)
Definition Date : Type := option Z.

Definition date_ge (a b : Date) : bool :=
  match a, b with
  | Some x, Some y => x >=? y
  | _, _ => false
  end.

Definition date_le (a b : Date) : bool :=
  match a, b with
  | Some x, Some y => x <=? y
  | _, _ => false
  end.

Definition msPerDay : Z := 86400000.

Definition sum (l : list Z) : Z := foldr Z.add 0 l.

(** [l.map(f)] and [l.filter(p)] for callbacks that may throw. *)
Fixpoint mapM {A B} (f : A -> Exn B) (l : list A) : Exn (list B) :=
  match l with
  | [] => Ok []
  | x :: l' => let* y := f x in let* ys := mapM f l' in Ok (y :: ys)
  end.

Fixpoint filterM {A} (p : A -> Exn bool) (l : list A) : Exn (list A) :=
  match l with
  | [] => Ok []
  | x :: l' =>
      let* b := p x in
      let* ys := filterM p l' in
      Ok (if b then x :: ys else ys)
  end.

(** [l.reduce(f, init)] for a callback that may throw. *)
Fixpoint reduceM {A B} (f : B -> A -> Exn B) (init : B) (l : list A) : Exn B :=
  match l with
  | [] => Ok init
  | x :: l' => let* acc := f init x in reduceM f acc l'
  end.

Section WithPlatform.
(** [new Date(s).getTime()], [None] standing for NaN. *)
Variable Date_parse : string -> option Z.
(** The local time zone, as ECMAScript reads it: [LocalTime t] is the local
    time value of the instant [t], and [UTC l] the instant the local time
    value [l] stands for.  Both are left to the platform. *)
Variable LocalTime : Z -> Z.
Variable UTC : Z -> Z.

Definition new_Date (s : string) : Date := Date_parse s.

(** The predicate both pages filter a timeline with. *)
Definition inDateRange (dateRange : DateRange) (event : EventData) : bool :=
  let eventDate := new_Date (timestamp event) in
  let startDate := new_Date (start dateRange) in
  let endDate := new_Date (range_end dateRange) in
  date_ge eventDate startDate && date_le eventDate endDate.

(** [timeline.events.filter(...)] *)
Definition filterByDateRange (dateRange : DateRange) (events : list EventData)
    : list EventData :=
  List.filter (inDateRange dateRange) events.

(** One entry of the analytics query: the user's statistics and the events
    of the timeline in range, or the empty entry when a fetch rejects. *)
Definition userAnalytics (dateRange : DateRange) (user : User)
    (fetched : Exn (JsValue * list EventData)) : UserAnalyticsData :=
  match fetched with
  | Ok (st, events) =>
      {| userId := id user; userName := name user; userRole := role user;
         stats := st; eventsInRange := filterByDateRange dateRange events |}
  | Throw _ =>
      {| userId := id user; userName := name user; userRole := role user;
         stats := JObject (<[ "totalEvents" := JNumber (Fin 0) ]>
                           (<[ "eventsByType" := JObject ∅ ]> ∅));
         eventsInRange := [] |}
  end.

(** One entry of the timeline query of the Event Timeline page. *)
Record TimelineData := {
  timeline_userId : string;
  userInfo : option User;
  timeline_events : list EventData
}.

Definition userTimeline (dateRange : DateRange) (users : option (list User))
    (userId : string) (events : list EventData) : TimelineData :=
  {| timeline_userId := userId;
     userInfo := match users with
                 | Some us => List.find (fun u => String.eqb (id u) userId) us
                 | None => None
                 end;
     timeline_events := filterByDateRange dateRange events |}.

(** The number of the local calendar day an instant falls in. *)
Definition localDay (t : Z) : Z := LocalTime t / msPerDay.

(** [d.setHours(0, 0, 0, 0)]: the instant the start of the local day stands
    for. *)
Definition startOfDay (t : Z) : Z := UTC (localDay t * msPerDay).

(** [d.setDate(d.getDate() + 1)]: the instant the same local time of the
    next local day stands for. *)
Definition nextDay (t : Z) : Z := UTC (LocalTime t + msPerDay).

(** [format(d, 'yyyy-MM-dd')], the text standing for the local day it
    names; throws on an Invalid Date. *)
Definition format_day (d : Date) : Exn Z :=
  match d with
  | Some t => Ok (localDay t)
  | None => Throw RangeError
  end.

(** The loop of [eachDayOfInterval], run for at most [fuel] rounds; [None]
    when the loop has not left the interval by then. *)
Fixpoint eachDay_loop (fuel : nat) (currentDate endTime : Z) : option (list Z) :=
  match fuel with
  | O => None
  | S fuel' =>
      if currentDate <=? endTime
      then cons currentDate
             <$> eachDay_loop fuel' (startOfDay (nextDay currentDate)) endTime
      else Some []
  end.

(** The rounds the loop is run for: three more than twice the days between
    the two instants.  In a zone whose local midnights are at least half a
    day apart the loop has left the interval by then. *)
Definition eachDay_rounds (currentDate endTime : Z) : nat :=
  (Z.to_nat (2 * ((endTime - currentDate) / msPerDay)) + 3)%nat.

(** date-fns [eachDayOfInterval({ start, end })]: the starts of the local
    days from the day of [start] on, as long as they are not after [end];
    throws when a bound is invalid or the start is after the end.  [None]
    when the loop runs for more rounds than the model follows. *)
Definition eachDayOfInterval (startDate endDate : Date) : option (Exn (list Z)) :=
  match startDate, endDate with
  | Some s, Some e =>
      if s <=? e
      then Ok <$> eachDay_loop (eachDay_rounds (startOfDay s) e) (startOfDay s) e
      else Some (Throw RangeError)
  | _, _ => Some (Throw RangeError)
  end.

(** One point of the series; [date] is the local day the label
    [format(date, 'MMM dd')] names. *)
Record Bucket := {
  date : Z;
  events : Z
}.

(** The callback of the day filter:
    [format(eventDate, 'yyyy-MM-dd') === format(date, 'yyyy-MM-dd')]. *)
Definition sameDay (date : Z) (event : EventData) : Exn bool :=
  let eventDate := new_Date (timestamp event) in
  let* a := format_day eventDate in
  let* b := format_day (Some date) in
  Ok (a =? b).

(** The callback of the reduce: the count so far plus the events of one
    user on the day of [date]. *)
Definition addDayEvents (date : Z) (count : Z) (userData : UserAnalyticsData) : Exn Z :=
  let* sameDayEvents := filterM (sameDay date) (eventsInRange userData) in
  let dayEventCount := Z.of_nat (length sameDayEvents) in
  Ok (count + dayEventCount).

(** The callback of the map over the days of the interval. *)
Definition dayBucket (analyticsData : list UserAnalyticsData) (date : Z) : Exn Bucket :=
  let* dayEvents := reduceM (addDayEvents date) 0 analyticsData in
  Ok {| date := localDay date; events := dayEvents |}.

(** The [eventsOverTime] series of the processed data; [None] when
    [eachDayOfInterval] is. *)
Definition eventsOverTime (analyticsData : list UserAnalyticsData)
    (dateRange : DateRange) : option (Exn (list Bucket)) :=
  let startDate := new_Date (start dateRange) in
  let endDate := new_Date (range_end dateRange) in
  match eachDayOfInterval startDate endDate with
  | Some interval =>
      Some (let* dateInterval := interval in mapM (dayBucket analyticsData) dateInterval)
  | None => None
  end.

(** The timestamp of the event is a valid date. *)
Definition parses (event : EventData) : Prop :=
  is_Some (Date_parse (timestamp event)).

(** The events of a list that fall on local day [d], and how many they
    are. *)
Definition onDay (d : Z) (event : EventData) : bool :=
  match Date_parse (timestamp event) with
  | Some t => localDay t =? d
  | None => false
  end.

Definition countOnDay (d : Z) (events : list EventData) : Z :=
  Z.of_nat (length (List.filter (onDay d) events)).

End WithPlatform.

(** The number of events in range over all users. *)
Definition totalInRange (analyticsData : list UserAnalyticsData) : Z :=
  sum (map (fun userData => Z.of_nat (length (eventsInRange userData))) analyticsData).

End Analytics.

(** *** Reference models of the built-ins

    The definitions above take the built-ins they call as parameters.  The
    models below are used to run them on sample inputs.  Text is held as
    its UTF-8 bytes; a binary string (the result of [atob]) has one byte
    per character. *)

Module Platform.
Import Js.

Definition code (c : ascii) : Z := Z.of_N (N_of_ascii c).

Definition chr (n : Z) : ascii := ascii_of_N (Z.to_N n).

Definition between (lo hi : Z) (c : ascii) : bool :=
  (lo <=? code c) && (code c <=? hi).

(** **** atob: forgiving base64 decoding *)

Definition is_ascii_whitespace (c : ascii) : bool :=
  let n := code c in
  (n =? 9) || (n =? 10) || (n =? 12) || (n =? 13) || (n =? 32).

Fixpoint strip_whitespace (s : string) : string :=
  match s with
  | EmptyString => EmptyString
  | String c s' =>
      if is_ascii_whitespace c then strip_whitespace s'
      else String c (strip_whitespace s')
  end.

Definition ends_with (suffix s : string) : bool :=
  let n := String.length s in
  let k := String.length suffix in
  (k <=? n)%nat && String.eqb (substring (n - k) k s) suffix.

Definition drop_last (k : nat) (s : string) : string :=
  substring 0 (String.length s - k) s.

(** Remove one or two trailing [=] when the length is a multiple of 4. *)
Definition strip_padding (s : string) : string :=
  if (String.length s mod 4 =? 0)%nat then
    if ends_with "==" s then drop_last 2 s
    else if ends_with "=" s then drop_last 1 s
    else s
  else s.

Definition base64_value (c : ascii) : option Z :=
  let n := code c in
  if between 65 90 c then Some (n - 65)
  else if between 97 122 c then Some (n - 71)
  else if between 48 57 c then Some (n + 4)
  else if n =? 43 then Some 62
  else if n =? 47 then Some 63
  else None.

Fixpoint base64_values (s : string) : option (list Z) :=
  match s with
  | EmptyString => Some []
  | String c s' =>
      match base64_value c, base64_values s' with
      | Some v, Some vs => Some (v :: vs)
      | _, _ => None
      end
  end.

Fixpoint base64_bytes (vs : list Z) : string :=
  match vs with
  | a :: b :: c :: d :: rest =>
      let n := ((a * 64 + b) * 64 + c) * 64 + d in
      String (chr (n / 65536))
        (String (chr ((n / 256) mod 256))
           (String (chr (n mod 256)) (base64_bytes rest)))
  | [a; b; c] =>
      let n := (a * 64 + b) * 64 + c in
      String (chr (n / 1024)) (String (chr ((n / 4) mod 256)) EmptyString)
  | [a; b] =>
      String (chr ((a * 64 + b) / 16)) EmptyString
  | _ => EmptyString
  end.

Definition atob (s : string) : Exn string :=
  let t := strip_padding (strip_whitespace s) in
  if (String.length t mod 4 =? 1)%nat then Throw InvalidCharacterError
  else match base64_values t with
       | Some vs => Ok (base64_bytes vs)
       | None => Throw InvalidCharacterError
       end.

(** **** decodeURIComponent *)

Definition hex_value (c : ascii) : option Z :=
  let n := code c in
  if between 48 57 c then Some (n - 48)
  else if between 97 102 c then Some (n - 87)
  else if between 65 70 c then Some (n - 55)
  else None.

(** The characters of [s], each [%XY] replaced by the byte it denotes and
    marked as escaped; [None] when a [%] is not followed by two hexadecimal
    digits. *)
Fixpoint unescape (s : string) : option (list (bool * ascii)) :=
  match s with
  | EmptyString => Some []
  | String c s' =>
      if Ascii.eqb c "%" then
        match s' with
        | String h (String l s'') =>
            match hex_value h, hex_value l, unescape s'' with
            | Some a, Some b, Some r => Some ((true, chr (a * 16 + b)) :: r)
            | _, _, _ => None
            end
        | _ => None
        end
      else
        match unescape s' with
        | Some r => Some ((false, c) :: r)
        | None => None
        end
  end.

(** An escaped byte in the range [lo..hi]. *)
Definition escaped (lo hi : Z) (x : bool * ascii) : bool :=
  fst x && between lo hi (snd x).

(** The escaped bytes form well-formed UTF-8 (shortest forms only, no
    surrogates, at most U+10FFFF); unescaped characters stand for
    themselves. *)
Fixpoint utf8_valid (l : list (bool * ascii)) : bool :=
  match l with
  | [] => true
  | x0 :: r0 =>
      if negb (fst x0) || between 0 127 (snd x0) then utf8_valid r0
      else
        match r0 with
        | x1 :: r1 =>
            if between 194 223 (snd x0) then escaped 128 191 x1 && utf8_valid r1
            else
              match r1 with
              | x2 :: r2 =>
                  if between 224 239 (snd x0) then
                    escaped (if code (snd x0) =? 224 then 160 else 128)
                            (if code (snd x0) =? 237 then 159 else 191) x1
                    && escaped 128 191 x2 && utf8_valid r2
                  else
                    match r2 with
                    | x3 :: r3 =>
                        between 240 244 (snd x0)
                        && escaped (if code (snd x0) =? 240 then 144 else 128)
                                   (if code (snd x0) =? 244 then 143 else 191) x1
                        && escaped 128 191 x2 && escaped 128 191 x3
                        && utf8_valid r3
                    | [] => false
                    end
              | [] => false
              end
        | [] => false
        end
  end.

Definition decodeURIComponent (s : string) : Exn string :=
  match unescape s with
  | Some l =>
      if utf8_valid l then Ok (string_of_list_ascii (map snd l))
      else Throw URIError
  | None => Throw URIError
  end.

(** **** JSON.parse *)

Definition is_json_whitespace (c : ascii) : bool :=
  let n := code c in
  (n =? 32) || (n =? 9) || (n =? 10) || (n =? 13).

Fixpoint skip_ws (s : string) : string :=
  match s with
  | String c s' => if is_json_whitespace c then skip_ws s' else s
  | EmptyString => s
  end.

Definition digit (c : ascii) : option Z :=
  if between 48 57 c then Some (code c - 48) else None.

(** Read a maximal run of decimal digits: the number read after [acc], how
    many digits were read after [n], and the rest. *)
Fixpoint digits (s : string) (acc n : Z) : Z * Z * string :=
  match s with
  | String c s' =>
      match digit c with
      | Some d => digits s' (acc * 10 + d) (n + 1)
      | None => (acc, n, s)
      end
  | EmptyString => (acc, n, s)
  end.

Definition pow10 (e : Z) : Q :=
  if 0 <=? e then inject_Z (10 ^ e) else 1 # Z.to_pos (10 ^ (- e)).

(** The integer part: a single 0, or a run of digits not starting with 0. *)
Definition json_int (s : string) : option (Z * string) :=
  match s with
  | String c r =>
      match digit c with
      | Some d => if d =? 0 then Some (0, r)
                  else let '(i, _, r') := digits s 0 0 in Some (i, r')
      | None => None
      end
  | EmptyString => None
  end.

(** The optional fraction, read onto the integer part [i]: the digits read
    so far as one integer and the number of fraction digits. *)
Definition json_frac (i : Z) (s : string) : option (Z * Z * string) :=
  match s with
  | String c r =>
      if code c =? 46 then
        let '(m, n, r') := digits r i 0 in
        if n =? 0 then None else Some (m, n, r')
      else Some (i, 0, s)
  | EmptyString => Some (i, 0, s)
  end.

Definition json_sign (s : string) : bool * string :=
  match s with
  | String c r =>
      if code c =? 45 then (true, r)
      else if code c =? 43 then (false, r)
      else (false, s)
  | EmptyString => (false, s)
  end.

(** The optional exponent. *)
Definition json_exp (s : string) : option (Z * string) :=
  match s with
  | String c r =>
      if (code c =? 101) || (code c =? 69) then
        let (neg, r1) := json_sign r in
        let '(e, n, r2) := digits r1 0 0 in
        if n =? 0 then None else Some (if neg then - e else e, r2)
      else Some (0, s)
  | EmptyString => Some (0, s)
  end.

Definition json_number (s : string) : option (Q * string) :=
  let (neg, s1) :=
    match s with
    | String c r => if code c =? 45 then (true, r) else (false, s)
    | EmptyString => (false, s)
    end in
  match json_int s1 with
  | None => None
  | Some (i, s2) =>
      match json_frac i s2 with
      | None => None
      | Some (m, fl, s3) =>
          match json_exp s3 with
          | None => None
          | Some (e, s4) =>
              Some (Qred (inject_Z (if neg then - m else m) * pow10 (e - fl)), s4)
          end
      end
  end.

Definition hex4 (s : string) : option (Z * string) :=
  match s with
  | String a (String b (String c (String d r))) =>
      match hex_value a, hex_value b, hex_value c, hex_value d with
      | Some x, Some y, Some z, Some w => Some (((x * 16 + y) * 16 + z) * 16 + w, r)
      | _, _, _, _ => None
      end
  | _ => None
  end.

Definition bytes (l : list Z) : string := string_of_list_ascii (map chr l).

(** The UTF-8 bytes of a code point (a lone surrogate is written the same
    way as any three-byte code point). *)
Definition utf8_encode (cp : Z) : string :=
  if cp <? 128 then bytes [cp]
  else if cp <? 2048 then bytes [192 + cp / 64; 128 + cp mod 64]
  else if cp <? 65536 then
    bytes [224 + cp / 4096; 128 + (cp / 64) mod 64; 128 + cp mod 64]
  else
    bytes [240 + cp / 262144; 128 + (cp / 4096) mod 64;
           128 + (cp / 64) mod 64; 128 + cp mod 64].

(** A [\uXXXX] escape whose [\u] has been read: one code unit, or a
    surrogate pair when a low surrogate escape follows a high one. *)
Definition unicode_escape (s : string) : option (string * string) :=
  match hex4 s with
  | None => None
  | Some (hi, r) =>
      let single := Some (utf8_encode hi, r) in
      if (55296 <=? hi) && (hi <=? 56319) then
        match r with
        | String b (String u r') =>
            if (code b =? 92) && (code u =? 117) then
              match hex4 r' with
              | Some (lo, r'') =>
                  if (56320 <=? lo) && (lo <=? 57343)
                  then Some (utf8_encode (65536 + (hi - 55296) * 1024 + (lo - 56320)), r'')
                  else single
              | None => single
              end
            else single
        | _ => single
        end
      else single
  end.

Definition simple_escape (c : ascii) : option Z :=
  let n := code c in
  if n =? 34 then Some 34
  else if n =? 92 then Some 92
  else if n =? 47 then Some 47
  else if n =? 98 then Some 8
  else if n =? 102 then Some 12
  else if n =? 110 then Some 10
  else if n =? 114 then Some 13
  else if n =? 116 then Some 9
  else None.

(** The characters of a string literal whose opening quote has been read,
    up to and including the closing quote. *)
Fixpoint json_string (fuel : nat) (s : string) : option (string * string) :=
  match fuel with
  | O => None
  | S fuel' =>
      match s with
      | EmptyString => None
      | String c r =>
          if code c =? 34 then Some (EmptyString, r)
          else if code c =? 92 then
            match r with
            | String e r' =>
                if code e =? 117 then
                  match unicode_escape r' with
                  | Some (u, r'') =>
                      match json_string fuel' r'' with
                      | Some (t, rest) => Some (u ++ t, rest)
                      | None => None
                      end
                  | None => None
                  end
                else
                  match simple_escape e, json_string fuel' r' with
                  | Some x, Some (t, rest) => Some (String (chr x) t, rest)
                  | _, _ => None
                  end
            | EmptyString => None
            end
          else if code c <? 32 then None
          else
            match json_string fuel' r with
            | Some (t, rest) => Some (String c t, rest)
            | None => None
            end
      end
  end.

Definition starts_with (p s : string) : bool :=
  String.eqb (substring 0 (String.length p) s) p.

Definition drop (n : nat) (s : string) : string :=
  substring n (String.length s - n) s.

Definition literal (name : string) (v : JsValue) (s : string) : option (JsValue * string) :=
  if starts_with name s then Some (v, drop (String.length name) s) else None.

(** A value, the elements of an array after its first, and the members of
    an object; in an object a repeated name keeps its last value. *)
Fixpoint json_value (fuel : nat) (s : string) : option (JsValue * string) :=
  match fuel with
  | O => None
  | S fuel' =>
      match skip_ws s with
      | EmptyString => None
      | String c r as s1 =>
          if code c =? 123 then
            match skip_ws r with
            | String c' r' =>
                if code c' =? 125 then Some (JObject ∅, r')
                else json_members fuel' (String c' r') ∅
            | EmptyString => None
            end
          else if code c =? 91 then
            match skip_ws r with
            | String c' r' =>
                if code c' =? 93 then Some (JArray [], r')
                else json_elements fuel' (String c' r') []
            | EmptyString => None
            end
          else if code c =? 34 then
            match json_string (String.length s1) r with
            | Some (t, rest) => Some (JString t, rest)
            | None => None
            end
          else if code c =? 116 then literal "true" (JBool true) s1
          else if code c =? 102 then literal "false" (JBool false) s1
          else if code c =? 110 then literal "null" JNull s1
          else
            match json_number s1 with
            | Some (q, rest) => Some (JNumber (Fin q), rest)
            | None => None
            end
      end
  end
with json_elements (fuel : nat) (s : string) (acc : list JsValue) : option (JsValue * string) :=
  match fuel with
  | O => None
  | S fuel' =>
      match json_value fuel' s with
      | Some (v, r) =>
          match skip_ws r with
          | String c r' =>
              if code c =? 44 then json_elements fuel' r' (v :: acc)
              else if code c =? 93 then Some (JArray (rev (v :: acc)), r')
              else None
          | EmptyString => None
          end
      | None => None
      end
  end
with json_members (fuel : nat) (s : string) (m : gmap string JsValue) : option (JsValue * string) :=
  match fuel with
  | O => None
  | S fuel' =>
      match skip_ws s with
      | String q r =>
          if code q =? 34 then
            match json_string (String.length s) r with
            | Some (k, r1) =>
                match skip_ws r1 with
                | String c r2 =>
                    if code c =? 58 then
                      match json_value fuel' r2 with
                      | Some (v, r3) =>
                          match skip_ws r3 with
                          | String d r4 =>
                              if code d =? 44 then json_members fuel' r4 (<[k := v]> m)
                              else if code d =? 125 then Some (JObject (<[k := v]> m), r4)
                              else None
                          | EmptyString => None
                          end
                      | None => None
                      end
                    else None
                | EmptyString => None
                end
            | None => None
            end
          else None
      | EmptyString => None
      end
  end.

Definition JSON_parse (text : string) : Exn JsValue :=
  match json_value (2 * String.length text + 2) text with
  | Some (v, rest) =>
      match skip_ws rest with
      | EmptyString => Ok v
      | String _ _ => Throw SyntaxError
      end
  | None => Throw SyntaxError
  end.

(** **** ToNumber on strings, arrays and objects *)

(** The white space and line terminators that StringToNumber trims, as
    UTF-8 bytes. *)
Definition str_whitespace : list string :=
  map bytes
    [[9]; [10]; [11]; [12]; [13]; [32]; [194; 160]; [225; 154; 128];
     [226; 128; 128]; [226; 128; 129]; [226; 128; 130]; [226; 128; 131];
     [226; 128; 132]; [226; 128; 133]; [226; 128; 134]; [226; 128; 135];
     [226; 128; 136]; [226; 128; 137]; [226; 128; 138]; [226; 128; 168];
     [226; 128; 169]; [226; 128; 175]; [226; 129; 159]; [227; 128; 128];
     [239; 187; 191]].

Definition drop_prefix_of (ps : list string) (s : string) : option string :=
  match filter (fun p => starts_with p s = true) ps with
  | p :: _ => Some (drop (String.length p) s)
  | [] => None
  end.

Fixpoint trim_start (fuel : nat) (s : string) : string :=
  match fuel with
  | O => s
  | S fuel' =>
      match drop_prefix_of str_whitespace s with
      | Some s' => trim_start fuel' s'
      | None => s
      end
  end.

Definition drop_suffix_of (ps : list string) (s : string) : option string :=
  match filter (fun p => ends_with p s = true) ps with
  | p :: _ => Some (drop_last (String.length p) s)
  | [] => None
  end.

Fixpoint trim_end (fuel : nat) (s : string) : string :=
  match fuel with
  | O => s
  | S fuel' =>
      match drop_suffix_of str_whitespace s with
      | Some s' => trim_end fuel' s'
      | None => s
      end
  end.

Definition trim (s : string) : string :=
  trim_end (String.length s) (trim_start (String.length s) s).

(** Digits in the given radix, at least one, up to the end of the string. *)
Fixpoint radix_digits (radix : Z) (s : string) (acc : Z) : option Z :=
  match s with
  | EmptyString => Some acc
  | String c s' =>
      match hex_value c with
      | Some d => if d <? radix then radix_digits radix s' (acc * radix + d) else None
      | None => None
      end
  end.

Definition non_decimal (s : string) : option Z :=
  match s with
  | String z (String x (String c r)) =>
      if code z =? 48 then
        let n := code x in
        let radix := if (n =? 120) || (n =? 88) then 16
                     else if (n =? 111) || (n =? 79) then 8
                     else if (n =? 98) || (n =? 66) then 2
                     else 0 in
        if radix =? 0 then None else radix_digits radix (String c r) 0
      else None
  | _ => None
  end.

(** A signed decimal literal: digits with an optional fraction, or a
    fraction alone, with an optional exponent; or a signed Infinity. *)
Definition str_decimal (s : string) : JsNumber :=
  let (neg, s1) := json_sign s in
  if String.eqb s1 "Infinity" then (if neg then NegInf else PosInf)
  else
    let '(i, n1, s2) := digits s1 0 0 in
    let '(m, n2, s3) :=
      match s2 with
      | String c r => if code c =? 46 then digits r i 0 else (i, 0, s2)
      | EmptyString => (i, 0, s2)
      end in
    if n1 + n2 =? 0 then NaN
    else
      match json_exp s3 with
      | Some (e, EmptyString) =>
          Fin (Qred (inject_Z (if neg then - m else m) * pow10 (e - n2)))
      | _ => NaN
      end.

Definition StringToNumber (s : string) : JsNumber :=
  let t := trim s in
  match t with
  | EmptyString => Fin 0
  | _ => match non_decimal t with
         | Some n => Fin (inject_Z n)
         | None => str_decimal t
         end
  end.

(** ToString throws on an object whose own [toString] property, a JSON
    value, hides the inherited method, and on an array holding one. *)
Fixpoint ToString_throws (v : JsValue) : bool :=
  match v with
  | JObject m => bool_decide (is_Some (m !! "toString"))
  | JArray l => existsb ToString_throws l
  | _ => false
  end.

(** ToNumber of [ToString v] for an array element [v]. *)
Fixpoint element_ToNumber (v : JsValue) : JsNumber :=
  match v with
  | JUndefined | JNull => Fin 0
  | JBool _ => NaN
  | JNumber n => n
  | JString s => StringToNumber s
  | JArray [] => Fin 0
  | JArray [x] => element_ToNumber x
  | JArray _ => NaN
  | JObject _ => NaN
  end.

Definition ToNumber_nonprimitive (v : JsValue) : Exn JsNumber :=
  match v with
  | JString s => Ok (StringToNumber s)
  | JArray _ | JObject _ =>
      if ToString_throws v then Throw TypeError else Ok (element_ToNumber v)
  | _ => Ok NaN
  end.

(** **** parseInt *)

(** The value and the length of the longest prefix of digits in the given
    radix. *)
Fixpoint radix_prefix (radix : Z) (s : string) (acc n : Z) : Z * Z :=
  match s with
  | EmptyString => (acc, n)
  | String c s' =>
      match hex_value c with
      | Some d => if d <? radix then radix_prefix radix s' (acc * radix + d) (n + 1)
                  else (acc, n)
      | None => (acc, n)
      end
  end.

(** [parseInt(s)] with no radix given: leading white space is skipped, a
    sign and a [0x] prefix are read, then the longest prefix of digits; NaN
    when there is none. *)
Definition parseInt (s : string) : JsNumber :=
  let s1 := trim_start (String.length s) s in
  let (neg, s2) := json_sign s1 in
  let (radix, s3) :=
    if starts_with "0x" s2 || starts_with "0X" s2 then (16, drop 2 s2) else (10, s2) in
  let (v, n) := radix_prefix radix s3 0 0 in
  if n =? 0 then NaN else Fin (inject_Z (if neg then - v else v)).

(** **** Date parsing: the Date Time String Format *)

(** Exactly [n] decimal digits. *)
Fixpoint fixed_digits (n : nat) (s : string) (acc : Z) : option (Z * string) :=
  match n with
  | O => Some (acc, s)
  | S n' =>
      match s with
      | String c s' =>
          match digit c with
          | Some d => fixed_digits n' s' (acc * 10 + d)
          | None => None
          end
      | EmptyString => None
      end
  end.

Definition is_leap (y : Z) : bool :=
  (y mod 4 =? 0) && (negb (y mod 100 =? 0) || (y mod 400 =? 0)).

Definition days_in_month (y m : Z) : Z :=
  if m =? 2 then (if is_leap y then 29 else 28)
  else if (m =? 4) || (m =? 6) || (m =? 9) || (m =? 11) then 30
  else 31.

(** Days from 1970-01-01 to the given date of the Gregorian calendar. *)
Definition days_from_civil (y m d : Z) : Z :=
  let y' := if m <=? 2 then y - 1 else y in
  let era := y' / 400 in
  let yoe := y' - era * 400 in
  let doy := (153 * (if 2 <? m then m - 3 else m + 9) + 2) / 5 + d - 1 in
  let doe := yoe * 365 + yoe / 4 - yoe / 100 + doy in
  era * 146097 + doe - 719468.

(** After a one-character separator. *)
Definition after (sep : Z) (s : string) : option string :=
  match s with
  | String c r => if code c =? sep then Some r else None
  | EmptyString => None
  end.

(** [YYYY-MM-DD]: the day number and the rest. *)
Definition iso_date (s : string) : option (Z * string) :=
  match fixed_digits 4 s 0 with
  | Some (y, s1) =>
      match after 45 s1 with
      | Some s2 =>
          match fixed_digits 2 s2 0 with
          | Some (m, s3) =>
              match after 45 s3 with
              | Some s4 =>
                  match fixed_digits 2 s4 0 with
                  | Some (d, s5) =>
                      if (1 <=? m) && (m <=? 12) && (1 <=? d) && (d <=? days_in_month y m)
                      then Some (days_from_civil y m d, s5)
                      else None
                  | None => None
                  end
              | None => None
              end
          | None => None
          end
      | None => None
      end
  | None => None
  end.

(** The optional [.sss] fraction, in milliseconds (digits after the third
    are dropped). *)
Definition iso_millis (s : string) : option (Z * string) :=
  match after 46 s with
  | Some r =>
      let '(v, n, rest) := digits r 0 0 in
      if n =? 0 then None
      else Some (if n <=? 3 then v * 10 ^ (3 - n) else v / 10 ^ (n - 3), rest)
  | None => Some (0, s)
  end.

(** [HH:mm], [HH:mm:ss] or [HH:mm:ss.sss]: milliseconds into the day. *)
Definition iso_time (s : string) : option (Z * string) :=
  match fixed_digits 2 s 0 with
  | Some (h, s1) =>
      match after 58 s1 with
      | Some s2 =>
          match fixed_digits 2 s2 0 with
          | Some (mi, s3) =>
              let seconds :=
                match after 58 s3 with
                | Some s4 =>
                    match fixed_digits 2 s4 0 with
                    | Some (sec, s5) =>
                        match iso_millis s5 with
                        | Some (ms, s6) => Some (sec, ms, s6)
                        | None => None
                        end
                    | None => None
                    end
                | None => Some (0, 0, s3)
                end in
              match seconds with
              | Some (sec, ms, rest) =>
                  if ((h <=? 23) && (mi <=? 59) && (sec <=? 59))
                     || ((h =? 24) && (mi =? 0) && (sec =? 0) && (ms =? 0))
                  then Some (((h * 60 + mi) * 60 + sec) * 1000 + ms, rest)
                  else None
              | None => None
              end
          | None => None
          end
      | None => None
      end
  | None => None
  end.

(** The end of a date-time: [Z], [+HH:mm] or [-HH:mm], the offset from UTC
    in milliseconds, or nothing, which means local time. *)
Definition iso_offset (tz : Z) (s : string) : option Z :=
  match s with
  | EmptyString => Some tz
  | String c r =>
      if (code c =? 90) && String.eqb r EmptyString then Some 0
      else if (code c =? 43) || (code c =? 45) then
        match fixed_digits 2 r 0 with
        | Some (h, s1) =>
            match after 58 s1 with
            | Some s2 =>
                match fixed_digits 2 s2 0 with
                | Some (mi, EmptyString) =>
                    if (h <=? 23) && (mi <=? 59)
                    then Some ((if code c =? 45 then -1 else 1) * (h * 60 + mi) * 60000)
                    else None
                | _ => None
                end
            | None => None
            end
        | None => None
        end
      else None
  end.

(** [new Date(s).getTime()] for the date and date-time forms of the Date
    Time String Format, in a zone [tz] milliseconds ahead of UTC: a date
    alone is UTC midnight; a date-time without offset is local time.  Every
    other string, whose parsing is left to the implementation, is taken as
    invalid. *)
Definition Date_parse (tz : Z) (s : string) : option Z :=
  match iso_date s with
  | Some (days, EmptyString) => Some (days * 86400000)
  | Some (days, String c r) =>
      if code c =? 84 then
        match iso_time r with
        | Some (ms, rest) =>
            match iso_offset tz rest with
            | Some offset => Some (days * 86400000 + ms - offset)
            | None => None
            end
        | None => None
        end
      else None
  | None => None
  end.

(** A time zone around one change of its offset: local time is
    [offset_before] milliseconds ahead of UTC up to the instant [change_at],
    and [offset_after] from then on. *)
Record Zone := {
  offset_before : Z;
  change_at : Z;
  offset_after : Z
}.

(** ECMAScript [LocalTime(t)]. *)
Definition LocalTime (zone : Zone) (t : Z) : Z :=
  t + (if t <? change_at zone then offset_before zone else offset_after zone).

(** ECMAScript [UTC(l)]: of the instants whose local time is [l] the
    earliest; a local time the change skips is read with the offset before
    the change. *)
Definition UTC (zone : Zone) (l : Z) : Z :=
  if l - offset_before zone <? change_at zone then l - offset_before zone
  else if change_at zone <=? l - offset_after zone then l - offset_after zone
  else l - offset_before zone.

(** A zone that keeps one offset. *)
Definition fixed (tz : Z) : Zone :=
  {| offset_before := tz; change_at := 0; offset_after := tz |}.

End Platform.

(** *** Sample data *)

Module Samples.
Import Js.

(** A token whose payload is the JSON object with the single member exp,
    1700000000. *)
Definition sample_token : string := "h.eyJleHAiOjE3MDAwMDAwMDB9.s".

Definition sample_payload : gmap string JsValue :=
  {[ "exp" := JNumber (Fin 1700000000) ]}.

(** Tokens that do not decode: no second segment; a second segment that
    is not base64; one whose bytes are not UTF-8; one whose text is not
    JSON. *)
Definition no_payload_token : string := "no-payload-segment".
Definition not_base64_token : string := "h.!!!.s".
Definition not_utf8_token : string := "h._-8.s".
Definition not_json_token : string := "h.e3.s".

Definition empty_browser : Api.Browser :=
  {| Api.localStorage := ∅; Api.location_href := "/" |}.

(** A browser holding a stored token and user. *)
Definition signed_in : Api.Browser :=
  Api.setItem "user" "{}" (Api.setItem "authToken" sample_token empty_browser).

(** A server that answers every request with status 401. *)
Definition unauthorized_server (config : Api.Request) : option Response :=
  Some {| status := 401; data := JNull |}.

(** A server that cannot be reached. *)
Definition unreachable_server (config : Api.Request) : option Response := None.

(** The settings after the Refresh Interval input was cleared. *)
Definition cleared_interval : gmap string JsValue :=
  Settings.changeNumber Platform.parseInt "refreshInterval" EmptyString
    (Settings.initialSettings None).

(** India Standard Time: five and a half hours ahead of UTC. *)
Definition ist : Z := 19800000.

Definition india : Platform.Zone := Platform.fixed ist.

(** The Azores around the start of summer time in 2024: an hour behind UTC
    until 2024-03-31T01:00:00Z, at UTC from then on. *)
Definition azores_march_2024 : Platform.Zone :=
  {| Platform.offset_before := -3600000;
     Platform.change_at := 1711846800000;
     Platform.offset_after := 0 |}.

(** The Azores around the end of summer time in 2024: at UTC until
    2024-10-27T01:00:00Z, an hour behind from then on. *)
Definition azores_october_2024 : Platform.Zone :=
  {| Platform.offset_before := 0;
     Platform.change_at := 1729990800000;
     Platform.offset_after := -3600000 |}.

(** Date ranges that hold the two changes (days 19807 to 19818 and 20016 to
    20026 of the epoch). *)
Definition around_march_change : Analytics.DateRange :=
  {| Analytics.start := "2024-03-25"; Analytics.range_end := "2024-04-05" |}.

Definition around_october_change : Analytics.DateRange :=
  {| Analytics.start := "2024-10-20"; Analytics.range_end := "2024-10-30" |}.

Definition first_days_of_2024 : Analytics.DateRange :=
  {| Analytics.start := "2024-01-01"; Analytics.range_end := "2024-01-03" |}.

Definition event_at (ts : string) : Analytics.EventData :=
  {| Analytics.eventName := "UserUpdated"; Analytics.timestamp := ts;
     Analytics.changes := [] |}.

Definition sample_timeline : list Analytics.EventData :=
  map event_at
    ["2023-12-31T23:59:59.999Z"; "2024-01-01T00:00:00.000Z";
     "2024-01-02T12:30:00.000Z"; "not a date"; "2024-01-02T20:00:00.000Z";
     "2024-01-03T00:00:00.000Z"; "2024-01-03T00:00:00.001Z"].

Definition sample_user (n : string) : Analytics.User :=
  {| Analytics.id := n; Analytics.name := n; Analytics.email := n;
     Analytics.role := "user" |}.

Definition sample_analytics : list Analytics.UserAnalyticsData :=
  [Analytics.userAnalytics (Platform.Date_parse ist) first_days_of_2024
     (sample_user "ann") (Ok (JNull, sample_timeline));
   Analytics.userAnalytics (Platform.Date_parse ist) first_days_of_2024
     (sample_user "bob") (Throw (Error "Network error - please check your connection"));
   Analytics.userAnalytics (Platform.Date_parse ist) first_days_of_2024
     (sample_user "cho") (Ok (JNull, [event_at "2024-01-02T00:00:00.000Z"]))].

End Samples.

(** *** The timeline list of the Time Travel page (pages/TimeTravel.tsx) *)

Module TimeTravelPage.
Import TimeTravel.

(** The playback state together with the timestamp the page has selected. *)
Record Page := {
  playback : State;
  selectedTimestamp : string
}.

(** [s.slice(0, 16)] *)
Definition slice16 (s : string) : string := substring 0 16 s.

(** [handleTimestampChange]: a click on entry [eventIndex] of the list. *)
Definition handleTimestampChange (eventIndex : nat) (p : Page) : Page :=
  match timeline (playback p) with
  | Some evs =>
      match evs !! eventIndex with
      | Some event =>
          {| playback := setEventCount (fun _ => Z.of_nat eventIndex + 1) (playback p);
             selectedTimestamp := slice16 (timestamp event) |}
      | None => p
      end
  | None => p
  end.

(** The condition under which entry [index] of the list is drawn as the
    current one. *)
Definition highlighted (p : Page) (index : nat) (event : TimelineEvent) : bool :=
  (ViewMode_eqb (viewMode (playback p)) eventCount_mode
   && (Z.of_nat index + 1 =? eventCount (playback p)))
  || (ViewMode_eqb (viewMode (playback p)) timestamp_mode
      && String.eqb (slice16 (timestamp event)) (selectedTimestamp p)).

(** What the user and the timer can do on the page: the playback
    operations, a click on an entry, and typing a timestamp. *)
Inductive PageOp :=
| playback_op (o : Op)
| click_entry (eventIndex : nat)
| type_timestamp (value : string).

Definition page_step (p : Page) (o : PageOp) : Page :=
  match o with
  | playback_op o' =>
      {| playback := step (playback p) o'; selectedTimestamp := selectedTimestamp p |}
  | click_entry i => handleTimestampChange i p
  | type_timestamp value =>
      {| playback := playback p; selectedTimestamp := value |}
  end.

Fixpoint page_trace (p : Page) (ops : list PageOp) : list Page :=
  match ops with
  | [] => []
  | o :: ops' => let p' := page_step p o in p' :: page_trace p' ops'
  end.

End TimeTravelPage.

(** *** The user of a token (utils/auth.ts) *)

Module AuthUser.
Import Js.

(** No character of [s] is a dot. *)
Fixpoint no_dot (s : string) : bool :=
  match s with
  | EmptyString => true
  | String c s' => negb (Ascii.eqb c ".") && no_dot s'
  end.

Section WithPlatform.
Variable atob : string -> Exn string.
Variable decodeURIComponent : string -> Exn string.
Variable JSON_parse : string -> Exn JsValue.

(** [getUserFromToken]: null when the token does not decode, else the
    object [{ id: decoded.id, email: decoded.email, role: decoded.role }]. *)
Definition getUserFromToken (token : string) : JsValue :=
  let decoded := Auth.decodeJWT atob decodeURIComponent JSON_parse token in
  if negb (truthy decoded) then JNull
  else
    JObject (<[ "id" := getProp decoded "id" ]>
            (<[ "email" := getProp decoded "email" ]>
            (<[ "role" := getProp decoded "role" ]> ∅))).

End WithPlatform.

End AuthUser.

(** *** More of the HTTP client (services/api.ts) and the notification bell
    (components/NotificationBell.tsx) *)

Module ApiMore.
Import Js Api.

(** [v.k], which throws when [v] is null or undefined. *)
Definition getMember (v : JsValue) (k : string) : Exn JsValue :=
  match v with
  | JUndefined | JNull => Throw TypeError
  | _ => Ok (getProp v k)
  end.

(** [response.data?.data || response.data || []] *)
Definition unwrap_list (response : Response) : JsValue :=
  or_else (or_else (getPropOpt (data response) "data") (data response)) (JArray []).

(** [usersApi.getAllUsers]: the catch block returns the empty array. *)
Definition getAllUsers (env : NodeEnv) (adapter : Request -> option Response) : M JsValue :=
  fun w =>
    let (w', r) := api_call env adapter (request "GET" "/users/all" JUndefined) w in
    (w', try_catch (let* response := r in Ok (unwrap_list response))
                   (fun error => Ok (JArray []))).

(** [Array.isArray(v) ? v.length : 0] *)
Definition array_length (v : JsValue) : Z :=
  match v with
  | JArray l => Z.of_nat (length l)
  | _ => 0
  end.

Definition totalEvents_object (n : Z) : JsValue :=
  JObject {[ "totalEvents" := JNumber (Fin (inject_Z n)) ]}.

Section WithPlatform.
(** ToString, as a template literal applies it; it may throw. *)
Variable ToString : JsValue -> Exn string.
(** The characters a [for ... of] loop over a string visits. *)
Variable characters : string -> list string.

(** The values a [for ... of] loop visits; a value that is not iterable
    throws. *)
Definition iterate (v : JsValue) : Exn (list JsValue) :=
  match v with
  | JArray l => Ok l
  | JString s => Ok (map JString (characters s))
  | _ => Throw TypeError
  end.

(** The template [`/events/${user.id}/events`]. *)
Definition events_url (user : JsValue) : Exn string :=
  let* id := getMember user "id" in
  let* text := ToString id in
  Ok ("/events/" ++ text ++ "/events").

(** One round of the loop of [getTotalEventsCount], the [n]-th call of the
    function being answered by [adapters n].  A rejected call is skipped;
    when the template itself throws, the catch block, which evaluates it
    again for the warning, throws as well. *)
Definition count_user (env : NodeEnv) (adapters : nat -> Request -> option Response)
    (n : nat) (user : JsValue) (totalEvents : Z) : M Z :=
  fun w =>
    match events_url user with
    | Ok u =>
        let (w', r) := api_call env (adapters n) (request "GET" u JUndefined) w in
        match r with
        | Ok events => (w', Ok (totalEvents + array_length (unwrap_list events)))
        | Throw _ => (w', Ok totalEvents)
        end
    | Throw e => (w, Throw e)
    end.

Fixpoint count_users (env : NodeEnv) (adapters : nat -> Request -> option Response)
    (n : nat) (userList : list JsValue) (totalEvents : Z) : M Z :=
  fun w =>
    match userList with
    | [] => (w, Ok totalEvents)
    | user :: rest =>
        match count_user env adapters n user totalEvents w with
        | (w', Ok total') => count_users env adapters (S n) rest total' w'
        | (w', Throw e) => (w', Throw e)
        end
    end.

(** [eventSourcingApi.getTotalEventsCount]; call 0 lists the users, calls
    1, 2, ... fetch their events. *)
Definition getTotalEventsCount (env : NodeEnv)
    (adapters : nat -> Request -> option Response) : M JsValue :=
  fun w =>
    let (w1, r) := api_call env (adapters 0%nat) (request "GET" "/users/all" JUndefined) w in
    match r with
    | Ok users =>
        match iterate (unwrap_list users) with
        | Ok userList =>
            match count_users env adapters 1 userList 0 w1 with
            | (w2, Ok totalEvents) => (w2, Ok (totalEvents_object totalEvents))
            | (w2, Throw _) => (w2, Ok (totalEvents_object 0))
            end
        | Throw _ => (w1, Ok (totalEvents_object 0))
        end
    | Throw _ => (w1, Ok (totalEvents_object 0))
    end.

End WithPlatform.

(** What the bell draws on its corner. *)
Inductive Badge :=
| no_badge
| badge_99_plus
| badge_count (unreadCount : JsValue).

Section Bell.
Variable ToNumber_nonprimitive : JsValue -> Exn JsNumber.

(** [a > b] *)
Definition greater (a : JsValue) (b : Z) : Exn bool :=
  let* n := Auth.ToNumber ToNumber_nonprimitive a in
  Ok (number_lt (Fin (inject_Z b)) n).

(** [unreadData?.unreadCount || 0] *)
Definition bell_unreadCount (unreadData : JsValue) : JsValue :=
  or_else (getPropOpt unreadData "unreadCount") (JNumber (Fin 0)).

(** The badge of [NotificationBell] for the data of the unread-count query
    (undefined while there is none). *)
Definition bell_badge (unreadData : JsValue) : Exn Badge :=
  let unreadCount := bell_unreadCount unreadData in
  let* positive := greater unreadCount 0 in
  if positive then
    let* many := greater unreadCount 99 in
    Ok (if many then badge_99_plus else badge_count unreadCount)
  else Ok no_badge.

End Bell.

End ApiMore.

(** *** The edits of the Settings page (pages/Settings.tsx) *)

Module SettingsPage.
Import Js Settings.

(** What the user can do to the settings on the page. *)
Inductive Edit :=
| edit_apiUrl (value : string)
| edit_refreshInterval (value : string)
| edit_maxEventsPerPage (value : string)
| edit_retentionDays (value : string)
| toggle_enableNotifications
| toggle_enableAutoRefresh
| toggle_compressionEnabled
| toggle_debugMode
| reset.

Section Form.
Variable parseInt : string -> JsNumber.

Definition apply_edit (settings : gmap string JsValue) (e : Edit) : gmap string JsValue :=
  match e with
  | edit_apiUrl value => changeText "apiUrl" value settings
  | edit_refreshInterval value => changeNumber parseInt "refreshInterval" value settings
  | edit_maxEventsPerPage value => changeNumber parseInt "maxEventsPerPage" value settings
  | edit_retentionDays value => changeNumber parseInt "retentionDays" value settings
  | toggle_enableNotifications => toggle "enableNotifications" settings
  | toggle_enableAutoRefresh => toggle "enableAutoRefresh" settings
  | toggle_compressionEnabled => toggle "compressionEnabled" settings
  | toggle_debugMode => toggle "debugMode" settings
  | reset => handleReset settings
  end.

Definition apply_edits (settings : gmap string JsValue) (edits : list Edit)
    : gmap string JsValue :=
  foldl apply_edit settings edits.

End Form.

Definition text_keys : list string := ["apiUrl"].
Definition number_keys : list string :=
  ["refreshInterval"; "maxEventsPerPage"; "retentionDays"].
Definition flag_keys : list string :=
  ["enableNotifications"; "enableAutoRefresh"; "compressionEnabled"; "debugMode"].

Definition is_string (v : JsValue) : bool :=
  match v with JString _ => true | _ => false end.
Definition is_number (v : JsValue) : bool :=
  match v with JNumber _ => true | _ => false end.
Definition is_boolean (v : JsValue) : bool :=
  match v with JBool _ => true | _ => false end.
Definition is_finite (v : JsValue) : bool :=
  match v with JNumber (Fin _) => true | _ => false end.

(** The fields [keys] of [settings] are all present and satisfy [p]. *)
Definition fields (p : JsValue -> bool) (keys : list string)
    (settings : gmap string JsValue) : Prop :=
  Forall (fun k => exists v, settings !! k = Some v /\ p v = true) keys.

(** The shape the page declares for its settings: the eight keys and no
    other, a string, three numbers and four booleans. *)
Definition well_shaped (settings : gmap string JsValue) : Prop :=
  dom settings = list_to_set (text_keys ++ number_keys ++ flag_keys)
  /\ fields is_string text_keys settings
  /\ fields is_number number_keys settings
  /\ fields is_boolean flag_keys settings.

(** The size of a JSON document. *)
Fixpoint Json_size (j : Json) : nat :=
  match j with
  | jarray l => S (foldr (fun x n => (Json_size x + n)%nat) 0%nat l)
  | jobject m => S (map_fold (fun _ x n => (Json_size x + n)%nat) 0%nat m)
  | _ => 1%nat
  end.

(** One export of the settings followed by the import of the exported file
    over the same settings. *)
Definition round_trip (settings : gmap string JsValue) : gmap string JsValue :=
  fst (handleImportSettings settings (handleExportSettings settings)).

End SettingsPage.

(** *** The charts of the Analytics page (pages/Analytics.tsx) *)

Module AnalyticsCharts.
Import Js Analytics.

(** One bar of the events-by-user chart. *)
Record UserEvents := {
  bar_name : string;
  bar_events : Z;
  bar_role : string
}.

Definition eventsByUser (analyticsData : list UserAnalyticsData) : list UserEvents :=
  map (fun userData =>
         {| bar_name := userName userData;
            bar_events := Z.of_nat (length (eventsInRange userData));
            bar_role := userRole userData |})
      analyticsData.

(** The names every object inherits from [Object.prototype]. *)
Definition inherited_names : list string :=
  ["constructor"; "hasOwnProperty"; "isPrototypeOf"; "propertyIsEnumerable";
   "toLocaleString"; "toString"; "valueOf"; "__proto__"; "__defineGetter__";
   "__defineSetter__"; "__lookupGetter__"; "__lookupSetter__"].

Definition is_inherited (name : string) : bool :=
  existsb (String.eqb name) inherited_names.

(** [eventsByType[event.eventName] = (eventsByType[event.eventName] || 0) + 1].
    For a name every object inherits, the read finds the inherited property,
    not a count, and what is stored is no count either: the table of counts
    is lost, which [None] stands for. *)
Definition tally (eventsByType : option (gmap string Z)) (event : EventData)
    : option (gmap string Z) :=
  match eventsByType with
  | Some counts =>
      if is_inherited (eventName event) then None
      else Some (<[ eventName event := default 0 (counts !! eventName event) + 1 ]> counts)
  | None => None
  end.

(** The [eventsByType] object built by the two nested [forEach] loops. *)
Definition eventsByType (analyticsData : list UserAnalyticsData)
    : option (gmap string Z) :=
  foldl (fun eventsByType userData => foldl tally eventsByType (eventsInRange userData))
        (Some ∅) analyticsData.

(** One row of the user activity summary. *)
Record UserActivity := {
  row_name : string;
  row_role : string;
  row_totalEvents : JsValue;
  recentEvents : Z;
  lastActivity : option string
}.

(** The callback of [userActivitySummary]; [userData.stats.totalEvents]
    throws when the statistics are null or undefined. *)
Definition activity (userData : UserAnalyticsData) : Exn UserActivity :=
  let* total := ApiMore.getMember (stats userData) "totalEvents" in
  Ok {| row_name := userName userData;
        row_role := userRole userData;
        row_totalEvents := total;
        recentEvents := Z.of_nat (length (eventsInRange userData));
        lastActivity := match eventsInRange userData with
                        | event :: _ => Some (timestamp event)
                        | [] => None
                        end |}.

(** What the memo holds; [eventTypeData] lists the entries of
    [chart_eventsByType]. *)
Record ProcessedData := {
  chart_eventsByUser : list UserEvents;
  chart_eventsByType : option (gmap string Z);
  chart_eventsOverTime : list Bucket;
  userActivitySummary : list UserActivity
}.

Section WithPlatform.
Variable Date_parse : string -> option Z.
Variable LocalTime : Z -> Z.
Variable UTC : Z -> Z.

(** The memo [processedData]: null while there is no analytics data; an
    exception thrown by one of its parts is thrown by the render.  [None]
    when [eventsOverTime] is. *)
Definition processedData (analyticsData : option (list UserAnalyticsData))
    (dateRange : DateRange) : option (Exn (option ProcessedData)) :=
  match analyticsData with
  | None => Some (Ok None)
  | Some data =>
      let byUser := eventsByUser data in
      let byType := eventsByType data in
      match eventsOverTime Date_parse LocalTime UTC data dateRange with
      | Some series =>
          Some (let* overTime := series in
                let* summary := mapM activity data in
                Ok (Some {| chart_eventsByUser := byUser;
                            chart_eventsByType := byType;
                            chart_eventsOverTime := overTime;
                            userActivitySummary := summary |}))
      | None => None
      end
  end.

End WithPlatform.

(** [processedData?.eventsByUser.reduce((sum, user) => sum + user.events, 0) || 0] *)
Definition totalEvents (processed : option ProcessedData) : Z :=
  match processed with
  | Some p => foldl (fun sum user => sum + bar_events user) 0 (chart_eventsByUser p)
  | None => 0
  end.

(** [processedData?.userActivitySummary.filter(user => user.recentEvents > 0).length || 0] *)
Definition activeUsers (processed : option ProcessedData) : Z :=
  match processed with
  | Some p =>
      Z.of_nat (length (List.filter (fun user => recentEvents user >? 0)
                                    (userActivitySummary p)))
  | None => 0
  end.

(** Whether the event has the given name. *)
Definition named (name : string) (event : EventData) : bool :=
  String.eqb (eventName event) name.

(** The number of events in range, over all users, that have the given name. *)
Definition count_name (name : string) (analyticsData : list UserAnalyticsData) : Z :=
  sum (map (fun userData =>
              Z.of_nat (length (List.filter (named name) (eventsInRange userData))))
           analyticsData).

(** The table holds, for every name, the count the function [f] gives, and
    no entry for a name whose count is zero. *)
Definition counts_of (counts : gmap string Z) (f : string -> Z) : Prop :=
  forall name, counts !! name = if f name =? 0 then None else Some (f name).

(** The sum of the counts a table holds. *)
Definition sum_counts (counts : gmap string Z) : Z :=
  map_fold (fun _ count total => count + total) 0 counts.

End AnalyticsCharts.

(** *** The list of the Event Timeline page (pages/EventTimeline.tsx) *)

Module EventTimelinePage.
Import Js Analytics.

(** An event together with the user it belongs to. *)
Record EventWithUser := {
  event : EventData;
  event_userId : string;
  event_userInfo : option User
}.

(** [s.startsWith(p)] *)
Fixpoint starts (p s : string) : bool :=
  match p, s with
  | EmptyString, _ => true
  | String a p', String b s' => Ascii.eqb a b && starts p' s'
  | String _ _, EmptyString => false
  end.

(** [s.includes(sub)] *)
Fixpoint includes (s sub : string) : bool :=
  starts sub s
  || match s with
     | String _ s' => includes s' sub
     | EmptyString => false
     end.

(** [handleUserToggle]: the selection after a click on the box of [userId]. *)
Definition handleUserToggle (userId : string) (prev : list string) : list string :=
  if existsb (String.eqb userId) prev
  then List.filter (fun id => negb (String.eqb id userId)) prev
  else (prev ++ [userId])%list.

(** Insertion into a sorted list, behind the elements that may stay before
    the new one. *)
Fixpoint insert_sorted {A} (before : A -> A -> bool) (x : A) (l : list A) : list A :=
  match l with
  | [] => [x]
  | y :: l' => if before y x then y :: insert_sorted before x l' else x :: l
  end.

(** [l.sort(compare)], where [before a b] says that [compare(a, b)] is not
    positive.  The sort is stable, so for a comparator that is a total
    preorder the result is the one computed here; for any other comparator
    the order is left to the implementation. *)
Definition sort_stable {A} (before : A -> A -> bool) (l : list A) : list A :=
  foldl (fun sorted x => insert_sorted before x sorted) [] l.

Section WithPlatform.
Variable Date_parse : string -> option Z.
(** [s.toLowerCase()] *)
Variable toLowerCase : string -> string.

(** One promise of the timeline query; [fetch userId] is the outcome of
    [getEventTimeline(userId)], the events of the timeline or a rejection. *)
Definition fetchTimeline (dateRange : DateRange) (users : option (list User))
    (fetch : string -> Exn (list EventData)) (userId : string) : Exn TimelineData :=
  let* events := fetch userId in
  Ok (userTimeline Date_parse dateRange users userId events).

(** The data of the timeline query: the query is disabled while nobody is
    selected, and it has no data when one of its promises rejects. *)
Definition timelineData (dateRange : DateRange) (users : option (list User))
    (selectedUsers : list string) (fetch : string -> Exn (list EventData))
    : option (list TimelineData) :=
  match selectedUsers with
  | [] => None
  | _ =>
      match mapM (fetchTimeline dateRange users fetch) selectedUsers with
      | Ok data => Some data
      | Throw _ => None
      end
  end.

(** [timelineData.flatMap(userData => userData.events.map(...))] *)
Definition tag (userData : TimelineData) (e : EventData) : EventWithUser :=
  {| event := e;
     event_userId := timeline_userId userData;
     event_userInfo := userInfo userData |}.

Definition flatten (timelineData : list TimelineData) : list EventWithUser :=
  flat_map (fun userData => map (tag userData) (timeline_events userData)) timelineData.

(** [new Date(e.timestamp).getTime()] *)
Definition getTime (e : EventWithUser) : Date := new_Date Date_parse (timestamp (event e)).

(** Whether [new Date(b.timestamp).getTime() - new Date(a.timestamp).getTime()]
    is not positive; NaN, which an invalid date gives, is taken as zero. *)
Definition newer_first (a b : EventWithUser) : bool :=
  match getTime b, getTime a with
  | Some tb, Some ta => tb - ta <=? 0
  | _, _ => true
  end.

(** [allEvents]: empty while the timeline query has no data. *)
Definition allEvents (timelineData : option (list TimelineData)) : list EventWithUser :=
  match timelineData with
  | Some data => sort_stable newer_first (flatten data)
  | None => []
  end.

(** The callback of [filteredEvents]. *)
Definition matchesEventType (eventTypeFilter : string) (e : EventWithUser) : bool :=
  String.eqb eventTypeFilter "all" || String.eqb (eventName (event e)) eventTypeFilter.

Definition matchesSearch (searchTerm : string) (e : EventWithUser) : bool :=
  String.eqb searchTerm EmptyString
  || existsb (fun change => includes (toLowerCase change) (toLowerCase searchTerm))
             (changes (event e))
  || match event_userInfo e with
     | Some u => includes (toLowerCase (name u)) (toLowerCase searchTerm)
     | None => false
     end
  || match event_userInfo e with
     | Some u => includes (toLowerCase (email u)) (toLowerCase searchTerm)
     | None => false
     end.

Definition filteredEvents (eventTypeFilter searchTerm : string)
    (allEvents : list EventWithUser) : list EventWithUser :=
  List.filter (fun e => matchesEventType eventTypeFilter e && matchesSearch searchTerm e)
              allEvents.

(** The event belongs to a selected user and passed the date range filter. *)
Definition queried (dateRange : DateRange) (selectedUsers : list string)
    (e : EventWithUser) : Prop :=
  In (event_userId e) selectedUsers /\ inDateRange Date_parse dateRange (event e) = true.

(** Whether the event happened at the instant [t]. *)
Definition at_instant (t : Z) (e : EventWithUser) : bool :=
  match getTime e with
  | Some te => te =? t
  | None => false
  end.

End WithPlatform.

End EventTimelinePage.

(** *** Batches and pages (pages/EventStreams.tsx, pages/Notifications.tsx) *)

Module Paging.
Import Js.

(** The stream controls of the Event Streams page. *)
Record Stream := {
  currentBatch : Z;
  batchSize : JsNumber;
  isStreaming : bool
}.

(** What the user can do.  [next_batch hasMore] carries [streamBatch?.hasMore]
    of the batch on screen, false when there is none.  The page is rendered
    again between two clicks, so each handler sees the state the last one
    left. *)
Inductive StreamOp :=
| start_streaming
| stop_streaming
| reset_stream
| previous_batch
| next_batch (hasMore : bool)
| change_batch_size (newSize : JsNumber).

Definition handlePreviousBatch (s : Stream) : Stream :=
  if currentBatch s >? 1
  then {| currentBatch := currentBatch s - 1; batchSize := batchSize s;
          isStreaming := isStreaming s |}
  else s.

Definition handleNextBatch (hasMore : bool) (s : Stream) : Stream :=
  if hasMore
  then {| currentBatch := currentBatch s + 1; batchSize := batchSize s;
          isStreaming := isStreaming s |}
  else s.

Definition handleBatchSizeChange (newSize : JsNumber) (s : Stream) : Stream :=
  {| currentBatch := 1; batchSize := newSize; isStreaming := isStreaming s |}.

Definition stream_step (s : Stream) (o : StreamOp) : Stream :=
  match o with
  | start_streaming =>
      {| currentBatch := currentBatch s; batchSize := batchSize s; isStreaming := true |}
  | stop_streaming =>
      {| currentBatch := currentBatch s; batchSize := batchSize s; isStreaming := false |}
  | reset_stream =>
      {| currentBatch := 1; batchSize := batchSize s; isStreaming := isStreaming s |}
  | previous_batch => handlePreviousBatch s
  | next_batch hasMore => handleNextBatch hasMore s
  | change_batch_size newSize => handleBatchSizeChange newSize s
  end.

Fixpoint stream_trace (s : Stream) (ops : list StreamOp) : list Stream :=
  match ops with
  | [] => []
  | o :: ops' => let s' := stream_step s o in s' :: stream_trace s' ops'
  end.

(** The page buttons of the Notifications page; [next_page total] carries
    [data.total] of the page on screen, [None] while there is no data. *)
Inductive NotificationsOp :=
| next_page (total : option Z)
| prev_page.

Definition handleNextPage (total : option Z) (page : Z) : Z :=
  match total with
  | Some t => if page * 20 <? t then page + 1 else page
  | None => page
  end.

Definition handlePrevPage (page : Z) : Z :=
  if page >? 1 then page - 1 else page.

Definition notifications_step (page : Z) (o : NotificationsOp) : Z :=
  match o with
  | next_page total => handleNextPage total page
  | prev_page => handlePrevPage page
  end.

Fixpoint notifications_trace (page : Z) (ops : list NotificationsOp) : list Z :=
  match ops with
  | [] => []
  | o :: ops' => let p := notifications_step page o in p :: notifications_trace p ops'
  end.

(** The totals the pages on screen reported. *)
Definition totals (ops : list NotificationsOp) : list Z :=
  omap (fun o => match o with next_page total => total | prev_page => None end) ops.

End Paging.

(** ** Part II. Theorems *)

(** *** The playback cursor *)

Section TimeTravel_facts.
Import TimeTravel.

Lemma timeline_step st o : timeline (step st o) = timeline st.
Proof.
  destruct o; simpl; try reflexivity.
  - unfold handleStepForward. destruct (timeline st) eqn:E; simpl; auto.
  - unfold handleJumpToEnd. destruct (timeline st) eqn:E; simpl; auto.
  - unfold tick. destruct (timeline st) eqn:E; simpl; auto.
    destruct (autoPlayInstalled st); simpl; auto.
Qed.

Lemma autoPlayTick_bounds evs c :
  1 <= events_length evs -> 1 <= c <= events_length evs ->
  1 <= autoPlayTick evs c <= events_length evs.
Proof.
  intros HN Hc. unfold autoPlayTick.
  destruct (Z.geb_spec c (events_length evs)); lia.
Qed.

Lemma step_in_range evs st o :
  timeline st = Some evs ->
  1 <= events_length evs ->
  1 <= eventCount st <= events_length evs ->
  1 <= eventCount (step st o) <= events_length evs.
Proof.
  intros Ht HN Hc. destruct o; simpl.
  - unfold handleStepForward. rewrite Ht. simpl. lia.
  - unfold handleStepBackward. simpl. lia.
  - lia.
  - unfold handleJumpToEnd. rewrite Ht. simpl. lia.
  - exact Hc.
  - exact Hc.
  - unfold tick. rewrite Ht.
    destruct (autoPlayInstalled st); simpl; [|exact Hc].
    now apply autoPlayTick_bounds.
Qed.

Lemma trace_in_range evs ops : forall st,
  timeline st = Some evs ->
  1 <= events_length evs ->
  1 <= eventCount st <= events_length evs ->
  Forall (fun st' => 1 <= eventCount st' <= events_length evs) (trace st ops).
Proof.
  induction ops as [|o ops IH]; intros st Ht HN Hc; simpl.
  - constructor.
  - constructor.
    + now apply step_in_range.
    + apply IH; [now rewrite timeline_step | exact HN | now apply step_in_range].
Qed.

Lemma eventCount_step_forward evs st :
  timeline st = Some evs ->
  eventCount (handleStepForward st) = Z.min (eventCount st + 1) (events_length evs).
Proof. intros Ht. unfold handleStepForward. now rewrite Ht. Qed.

Lemma timeline_step_forward st : timeline (handleStepForward st) = timeline st.
Proof. exact (timeline_step st step_forward). Qed.

(** C1.  With N >= 1 loaded events and the cursor starting at 1, the
    cursor is in [1, N] after every operation of every finite sequence of
    playback operations (steps, jumps, play/pause, view-mode changes and
    timer ticks). *)
Theorem playback_cursor_invariant
    (evs : list TimelineEvent) (ops : list Op) (st0 : State) :
  1 <= events_length evs ->
  timeline st0 = Some evs ->
  eventCount st0 = 1 ->
  Forall (fun st => 1 <= eventCount st <= events_length evs) (trace st0 ops).
Proof.
  intros HN Ht H1. apply trace_in_range; [exact Ht | exact HN | lia].
Qed.

Lemma playback_cursor_invariant_witness :
  1 <= events_length five_events
  /\ timeline (initial eventCount_mode five_events) = Some five_events
  /\ eventCount (initial eventCount_mode five_events) = 1
  /\ Forall (fun st => 1 <= eventCount st <= events_length five_events)
       (trace (initial eventCount_mode five_events)
          [play_pause; timer_tick; timer_tick; timer_tick; timer_tick;
           timer_tick; step_backward; jump_end; step_forward; jump_start;
           step_backward]).
Proof.
  split; [vm_compute; discriminate|].
  split; [reflexivity|].
  split; [reflexivity|].
  apply (playback_cursor_invariant five_events _ (initial eventCount_mode five_events));
    [vm_compute; discriminate | reflexivity | reflexivity].
Defined.

(** C2.  For N >= 1: jump_end leaves the cursor at N and a following
    step_forward keeps it at N; jump_start then step_backward leaves it at
    1; with N = 5 and the cursor at 1, four step_forward calls give 5 and a
    fifth still gives 5. *)
Theorem playback_boundary_noops (evs : list TimelineEvent) (st : State) :
  1 <= events_length evs ->
  timeline st = Some evs ->
  eventCount (handleJumpToEnd st) = events_length evs
  /\ eventCount (handleStepForward (handleJumpToEnd st)) = events_length evs
  /\ eventCount (handleStepBackward (handleJumpToStart st)) = 1
  /\ (events_length evs = 5 -> eventCount st = 1 ->
      eventCount (run st (repeat step_forward 4)) = 5
      /\ eventCount (run st (repeat step_forward 5)) = 5).
Proof.
  intros HN Ht. repeat split.
  - unfold handleJumpToEnd. now rewrite Ht.
  - unfold handleJumpToEnd, handleStepForward. rewrite Ht. simpl. rewrite Ht. simpl. lia.
  - simpl; rewrite !eventCount_step_forward with (evs := evs);
      rewrite ?timeline_step_forward; try exact Ht; lia.
  - simpl; rewrite !eventCount_step_forward with (evs := evs);
      rewrite ?timeline_step_forward; try exact Ht; lia.
Qed.

Lemma playback_boundary_noops_witness :
  1 <= events_length five_events
  /\ timeline (initial eventCount_mode five_events) = Some five_events
  /\ eventCount (run (initial eventCount_mode five_events) (repeat step_forward 4)) = 5
  /\ eventCount (run (initial eventCount_mode five_events) (repeat step_forward 5)) = 5.
Proof.
  split; [vm_compute; discriminate|].
  split; [reflexivity|].
  apply (playback_boundary_noops five_events (initial eventCount_mode five_events));
    [vm_compute; discriminate | reflexivity | reflexivity | reflexivity].
Defined.

(** C3.  A timer tick maps the cursor c to c + 1 when c < N and to 1 when
    c >= N; while the interval is installed (playing, timeline loaded,
    event-count mode) a tick applies exactly this update and playback keeps
    running. *)
Theorem timer_tick_wraps (evs : list TimelineEvent) (c : Z) :
  (c < events_length evs -> autoPlayTick evs c = c + 1)
  /\ (c >= events_length evs -> autoPlayTick evs c = 1)
  /\ (forall st, isPlaying st = true -> viewMode st = eventCount_mode ->
        timeline st = Some evs -> eventCount st = c ->
        eventCount (tick st) = autoPlayTick evs c
        /\ isPlaying (tick st) = true
        /\ autoPlayInstalled (tick st) = true).
Proof.
  unfold autoPlayTick. repeat split.
  - intros H. destruct (Z.geb_spec c (events_length evs)); lia.
  - intros H. destruct (Z.geb_spec c (events_length evs)); lia.
  - unfold tick, autoPlayInstalled. rewrite H, H0, H1. simpl. unfold autoPlayTick. now rewrite H2.
  - unfold tick, autoPlayInstalled. rewrite H, H0, H1. simpl. exact H.
  - unfold tick, autoPlayInstalled. rewrite H, H0, H1. simpl. rewrite H, H0, H1. reflexivity.
Qed.

End TimeTravel_facts.

(** *** Token decoding and expiry *)

Section Auth_facts.
Import Js Auth.
Variable atob : string -> Exn string.
Variable decodeURIComponent : string -> Exn string.
Variable JSON_parse : string -> Exn JsValue.
Variable ToNumber_nonprimitive : JsValue -> Exn JsNumber.

Abbreviation decode_try := (decodeJWT_try atob decodeURIComponent JSON_parse).
Abbreviation decode := (decodeJWT atob decodeURIComponent JSON_parse).
Abbreviation expired :=
  (isTokenExpired atob decodeURIComponent JSON_parse ToNumber_nonprimitive).

Lemma Qltb_true (a b : Q) : (a < b)%Q -> Qltb a b = true.
Proof.
  intros H. unfold Qltb. destruct (Qle_bool b a) eqn:E; [|reflexivity].
  apply Qle_bool_iff in E. exfalso. exact (Qlt_not_le _ _ H E).
Qed.

Lemma Qltb_false (a b : Q) : (b <= a)%Q -> Qltb a b = false.
Proof.
  intros H. unfold Qltb. apply Qle_bool_iff in H. now rewrite H.
Qed.

Lemma decodeJWT_throw token e : decode_try token = Throw e -> decode token = JNull.
Proof. intros H. unfold decodeJWT. now rewrite H. Qed.

Lemma expired_numeric now token m e :
  decode token = JObject m ->
  m !! "exp" = Some (JNumber (Fin e)) ->
  expired now token = Ok (Qltb e (currentTime now)).
Proof.
  intros Hd He. unfold isTokenExpired. rewrite Hd. simpl. now rewrite He.
Qed.

(** C4.  For a token that decodes to a payload whose exp is a number: exp
    one second before the current time ([Date.now() / 1000]) is classified
    expired, exp one second after it is classified valid. *)
Theorem token_expiry_one_second
    (now : Z) (token : string) (m : gmap string JsValue) (e : Q) :
  decode token = JObject m ->
  m !! "exp" = Some (JNumber (Fin e)) ->
  ((e == currentTime now - 1)%Q -> expired now token = Ok true)
  /\ ((e == currentTime now + 1)%Q -> expired now token = Ok false).
Proof.
  intros Hd He. rewrite (expired_numeric now token m e Hd He). split; intros H.
  - rewrite Qltb_true; [reflexivity|]. rewrite H.
    apply Qplus_lt_l with (z := 1%Q). ring_simplify.
    rewrite <- (Qplus_0_r (currentTime now)) at 1.
    apply Qplus_lt_r. reflexivity.
  - rewrite Qltb_false; [reflexivity|]. rewrite H.
    rewrite <- (Qplus_0_r (currentTime now)) at 1.
    apply Qplus_le_r. discriminate.
Qed.

(** C10.  [decodeJWT] never throws: it returns what [JSON.parse] returned
    or, whenever its try block throws, null; in particular null for a token
    without a payload segment and for a payload that is not base64, not
    UTF-8 or not JSON; and [isTokenExpired] returns true for every token
    that [decodeJWT] maps to null. *)
Theorem decodeJWT_null_on_failure (now : Z) (token : string) :
  (decode token = JNull
   \/ exists payload, decode_try token = Ok payload /\ decode token = payload)
  /\ (forall e, decode_try token = Throw e -> decode token = JNull)
  /\ (split "." token !! 1%nat = None -> decode token = JNull)
  /\ (forall seg, split "." token !! 1%nat = Some seg ->
      let base64 := replace_all "_" "/" (replace_all "-" "+" seg) in
      (forall e, atob base64 = Throw e -> decode token = JNull)
      /\ (forall binary, atob base64 = Ok binary ->
          (forall e, decodeURIComponent (percent_all binary) = Throw e ->
                     decode token = JNull)
          /\ (forall text e, decodeURIComponent (percent_all binary) = Ok text ->
                             JSON_parse text = Throw e -> decode token = JNull)))
  /\ (decode token = JNull -> expired now token = Ok true).
Proof.
  split.
  { unfold decodeJWT. destruct (decode_try token) as [payload|e]; eauto. }
  split; [intros e H; exact (decodeJWT_throw token e H)|].
  split.
  { intros H. unfold decodeJWT, decodeJWT_try. now rewrite H. }
  split.
  { intros seg Hseg base64. subst base64. split.
    - intros e H. unfold decodeJWT, decodeJWT_try. rewrite Hseg. simpl. now rewrite H.
    - intros binary Hb. split.
      + intros e H. unfold decodeJWT, decodeJWT_try. rewrite Hseg. simpl.
        rewrite Hb. simpl. now rewrite H.
      + intros text e Ht H. unfold decodeJWT, decodeJWT_try. rewrite Hseg. simpl.
        rewrite Hb. simpl. rewrite Ht. simpl. now rewrite H. }
  intros H. unfold isTokenExpired. now rewrite H.
Qed.

End Auth_facts.

Import Samples.

Lemma token_expiry_one_second_witness :
  Auth.isTokenExpired Platform.atob Platform.decodeURIComponent Platform.JSON_parse
    Platform.ToNumber_nonprimitive 1700000001000 sample_token = Js.Ok true
  /\ Auth.isTokenExpired Platform.atob Platform.decodeURIComponent Platform.JSON_parse
       Platform.ToNumber_nonprimitive 1699999999000 sample_token = Js.Ok false.
Proof.
  split.
  - apply (token_expiry_one_second Platform.atob Platform.decodeURIComponent
             Platform.JSON_parse Platform.ToNumber_nonprimitive
             1700000001000 sample_token sample_payload 1700000000);
      vm_compute; reflexivity.
  - apply (token_expiry_one_second Platform.atob Platform.decodeURIComponent
             Platform.JSON_parse Platform.ToNumber_nonprimitive
             1699999999000 sample_token sample_payload 1700000000);
      vm_compute; reflexivity.
Defined.

Lemma decodeJWT_null_on_failure_witness :
  Forall (fun token =>
            Auth.decodeJWT Platform.atob Platform.decodeURIComponent
              Platform.JSON_parse token = Js.JNull
            /\ Auth.isTokenExpired Platform.atob Platform.decodeURIComponent
                 Platform.JSON_parse Platform.ToNumber_nonprimitive 0 token
               = Js.Ok true)
    [no_payload_token; not_base64_token; not_utf8_token; not_json_token].
Proof.
  assert (forall token e,
            Auth.decodeJWT_try Platform.atob Platform.decodeURIComponent
              Platform.JSON_parse token = Js.Throw e ->
            Auth.decodeJWT Platform.atob Platform.decodeURIComponent
              Platform.JSON_parse token = Js.JNull
            /\ Auth.isTokenExpired Platform.atob Platform.decodeURIComponent
                 Platform.JSON_parse Platform.ToNumber_nonprimitive 0 token
               = Js.Ok true) as Hnull.
  { intros token e H.
    destruct (decodeJWT_null_on_failure Platform.atob Platform.decodeURIComponent
                Platform.JSON_parse Platform.ToNumber_nonprimitive 0 token)
      as (_ & Hthrow & _ & _ & Hexpired).
    split; [exact (Hthrow e H) | exact (Hexpired (Hthrow e H))]. }
  apply List.Forall_cons; [apply (Hnull no_payload_token Js.TypeError); reflexivity|].
  apply List.Forall_cons; [apply (Hnull not_base64_token Js.InvalidCharacterError); reflexivity|].
  apply List.Forall_cons; [apply (Hnull not_utf8_token Js.URIError); reflexivity|].
  apply List.Forall_cons; [apply (Hnull not_json_token Js.SyntaxError); reflexivity|].
  apply List.Forall_nil.
Defined.

(** *** The HTTP client and the route guard *)

Section Api_facts.
Import Js Api Route.
Variable atob : string -> Exn string.
Variable decodeURIComponent : string -> Exn string.
Variable JSON_parse : string -> Exn JsValue.
Variable ToNumber_nonprimitive : JsValue -> Exn JsNumber.

Abbreviation guard :=
  (PrivateRoute atob decodeURIComponent JSON_parse ToNumber_nonprimitive).
Abbreviation outcomes :=
  (route_outcomes atob decodeURIComponent JSON_parse ToNumber_nonprimitive).
Abbreviation handle_event :=
  (handle atob decodeURIComponent JSON_parse ToNumber_nonprimitive).

Lemma getItem_removeItem k w : getItem k (removeItem k w) = None.
Proof. unfold getItem, removeItem. simpl. apply lookup_delete_eq. Qed.

Lemma getItem_removeItem_None k k' w :
  getItem k w = None -> getItem k (removeItem k' w) = None.
Proof.
  unfold getItem, removeItem. simpl. intros H.
  rewrite lookup_delete. case_decide; [reflexivity | exact H].
Qed.

Lemma getItem_set_location k href w : getItem k (set_location href w) = getItem k w.
Proof. reflexivity. Qed.

Lemma responseErrorInterceptor_keeps_absent env error w :
  getItem "authToken" w = None ->
  getItem "authToken" (fst (responseErrorInterceptor env error w)) = None.
Proof.
  intros H. unfold responseErrorInterceptor.
  assert (getItem "authToken"
            (if is_unauthorized error
             then (let w' := removeItem "authToken" w in
                   if is_production env then set_location "/login" w' else w')
             else w) = None) as H1.
  { destruct (is_unauthorized error); [|exact H].
    simpl. destruct (is_production env);
      rewrite ?getItem_set_location; apply getItem_removeItem. }
  destruct (no_response error); simpl; exact H1.
Qed.

Lemma api_call_keeps_absent env adapter config w :
  getItem "authToken" w = None ->
  getItem "authToken" (fst (api_call env adapter config w)) = None.
Proof.
  intros H. unfold api_call.
  destruct (adapter (requestInterceptor config w)) as [r|].
  - destruct ((200 <=? status r) && (status r <? 300)); [exact H|].
    now apply responseErrorInterceptor_keeps_absent.
  - now apply responseErrorInterceptor_keeps_absent.
Qed.

Lemma guard_without_token now w :
  getItem "authToken" w = None ->
  guard now w = (removeItem "user" (removeItem "authToken" w), Ok (Navigate "/login")).
Proof. intros H. unfold PrivateRoute. now rewrite H. Qed.

(** The guard renders the children only for a stored, non-empty token that
    [isTokenExpired] classifies as valid, and then leaves the storage as it
    is. *)
Lemma guard_children now w w' :
  guard now w = (w', Ok Children) ->
  w' = w
  /\ exists token,
       getItem "authToken" w = Some token
       /\ token <> EmptyString
       /\ Auth.isTokenExpired atob decodeURIComponent JSON_parse
            ToNumber_nonprimitive now token = Ok false.
Proof.
  unfold PrivateRoute, redirect_to_login.
  destruct (getItem "authToken" w) as [token|]; [|discriminate].
  destruct (String.eqb_spec token EmptyString) as [->|Hne]; [discriminate|].
  destruct (Auth.isTokenExpired _ _ _ _ now token) as [[|]|e] eqn:E;
    try discriminate.
  intros H. injection H as <-. eauto.
Qed.

Lemma handle_keeps_absent env ev w :
  getItem "authToken" w = None ->
  getItem "authToken" (fst (handle_event env ev w)) = None.
Proof.
  intros H. destruct ev as [adapter config | now | | json]; simpl.
  - now apply api_call_keeps_absent.
  - rewrite (guard_without_token now w H). simpl.
    apply getItem_removeItem_None, getItem_removeItem.
  - unfold handleLogout. apply getItem_removeItem_None, getItem_removeItem.
  - unfold getItem, setItem. simpl. rewrite lookup_insert_ne; [exact H | discriminate].
Qed.

Lemma outcomes_without_token env evs : forall w,
  getItem "authToken" w = None ->
  Forall (fun out => out = Ok (Navigate "/login")) (outcomes env evs w).
Proof.
  induction evs as [|ev evs IH]; intros w H; simpl; [constructor|].
  pose proof (handle_keeps_absent env ev w H) as H'.
  destruct (handle_event env ev w) as [w' r] eqn:E. simpl in H'.
  destruct r as [out|]; [|now apply IH].
  constructor; [|now apply IH].
  destruct ev as [adapter config | now | | json]; simpl in E; try discriminate.
  rewrite (guard_without_token now w H) in E. congruence.
Qed.

Lemma outcomes_length env evs : forall w,
  length (outcomes env evs w) = length (filter (fun ev => is_route_check ev = true) evs).
Proof.
  induction evs as [|ev evs IH]; intros w; simpl; [reflexivity|].
  destruct ev as [adapter config | now | | json]; simpl.
  - apply IH.
  - destruct (guard now w) as [w' r]. simpl. f_equal. apply IH.
  - apply IH.
  - apply IH.
Qed.

Lemma api_call_unauthorized env adapter config w r :
  adapter (requestInterceptor config w) = Some r ->
  status r = 401 ->
  api_call env adapter config w =
    ((if is_production env
      then set_location "/login" (removeItem "authToken" w)
      else removeItem "authToken" w),
     Throw (AxiosError "Request failed" (Some r))).
Proof.
  intros Ha Hs. unfold api_call. rewrite Ha, Hs. simpl.
  unfold responseErrorInterceptor. simpl. rewrite Hs. reflexivity.
Qed.

(** C8.  When a call through the client receives a 401 response, the call
    rejects, the stored token is gone, and, whatever calls, route checks,
    sign-outs and settings saves follow, every route check among them
    renders the redirect to the sign-in page. *)
Theorem unauthorized_clears_token_and_redirects
    (env : NodeEnv) (adapter : Request -> option Response) (config : Request)
    (w : Browser) (r : Response) (evs : list Event) :
  adapter (requestInterceptor config w) = Some r ->
  status r = 401 ->
  let w' := fst (api_call env adapter config w) in
  snd (api_call env adapter config w) = Throw (AxiosError "Request failed" (Some r))
  /\ getItem "authToken" w' = None
  /\ Forall (fun out => out = Ok (Navigate "/login")) (outcomes env evs w')
  /\ length (outcomes env evs w')
     = length (filter (fun ev => is_route_check ev = true) evs).
Proof.
  intros Ha Hs w'.
  assert (getItem "authToken" w' = None) as Hnone.
  { subst w'. rewrite (api_call_unauthorized env adapter config w r Ha Hs). simpl.
    destruct (is_production env); rewrite ?getItem_set_location;
      apply getItem_removeItem. }
  split.
  { now rewrite (api_call_unauthorized env adapter config w r Ha Hs). }
  split; [exact Hnone|].
  split; [now apply outcomes_without_token | apply outcomes_length].
Qed.

(** C9 (amended).  When the call rejects, [getUnreadCount] fulfils
    with [{ unreadCount: 0 }], and [getHealth] rejects with the same
    error. *)
Theorem unread_count_swallowed_health_rethrown
    (env : NodeEnv) (adapter : Request -> option Response) (w : Browser) :
  (forall e,
      snd (api_call env adapter
             (request "GET" "/notifications/unread-count" JUndefined) w) = Throw e ->
      snd (getUnreadCount env adapter w)
      = Ok (JObject {[ "unreadCount" := JNumber (Fin 0) ]}))
  /\ (forall e,
      snd (api_call env adapter (request "GET" "/health" JUndefined) w) = Throw e ->
      snd (getHealth env adapter w) = Throw e).
Proof.
  split; intros e H.
  - unfold getUnreadCount.
    destruct (api_call env adapter _ w) as [w' res]. simpl in *. now rewrite H.
  - unfold getHealth.
    destruct (api_call env adapter _ w) as [w' res]. simpl in *. now rewrite H.
Qed.

End Api_facts.

(** *** Date-range filter and day buckets *)

Section Analytics_facts.
Import Js Analytics.
Variable Date_parse : string -> option Z.
Variable LocalTime : Z -> Z.
Variable UTC : Z -> Z.

Abbreviation in_range := (inDateRange Date_parse).
Abbreviation filter_range := (filterByDateRange Date_parse).
Abbreviation day := (localDay LocalTime).
Abbreviation midnight := (startOfDay LocalTime UTC).

Lemma msPerDay_pos : 0 < msPerDay.
Proof. reflexivity. Qed.

Lemma inDateRange_spec dateRange event :
  in_range dateRange event = true <->
  exists t f e,
    Date_parse (timestamp event) = Some t
    /\ Date_parse (start dateRange) = Some f
    /\ Date_parse (range_end dateRange) = Some e
    /\ f <= t <= e.
Proof.
  unfold inDateRange, new_Date, date_ge, date_le. split.
  - intros H. apply andb_true_iff in H as [H1 H2].
    destruct (Date_parse (timestamp event)) as [t|]; [|discriminate].
    destruct (Date_parse (start dateRange)) as [f|]; [|discriminate].
    destruct (Date_parse (range_end dateRange)) as [e|]; [|discriminate].
    exists t, f, e. apply Z.geb_le in H1. apply Z.leb_le in H2. auto.
  - intros (t & f & e & -> & -> & -> & H1 & H2).
    apply andb_true_iff. split; [apply Z.geb_le | apply Z.leb_le]; assumption.
Qed.

(** C5.  The date-range filter keeps exactly the records whose timestamp
    parses to an instant between the two bounds, both included, in their
    order; a record whose timestamp does not parse is dropped, nothing is
    thrown; and the empty list is mapped to the empty list. *)
Theorem date_range_filter_inclusive (dateRange : DateRange) (events : list EventData) :
  (forall user st,
      eventsInRange (userAnalytics Date_parse dateRange user (Ok (st, events)))
      = filter_range dateRange events)
  /\ (forall users userId,
      timeline_events (userTimeline Date_parse dateRange users userId events)
      = filter_range dateRange events)
  /\ (forall event,
      In event (filter_range dateRange events) <->
      In event events
      /\ exists t f e,
          Date_parse (timestamp event) = Some t
          /\ Date_parse (start dateRange) = Some f
          /\ Date_parse (range_end dateRange) = Some e
          /\ f <= t <= e)
  /\ (forall event,
      Date_parse (timestamp event) = None ->
      ~ In event (filter_range dateRange events))
  /\ (forall t,
      Date_parse (start dateRange) = Some t ->
      Date_parse (range_end dateRange) = Some t ->
      forall event, Date_parse (timestamp event) = Some t ->
      in_range dateRange event = true)
  /\ filter_range dateRange [] = [].
Proof.
  split; [reflexivity|]. split; [reflexivity|].
  split; [|split; [|split]].
  - intros event. unfold filterByDateRange. rewrite filter_In, inDateRange_spec. tauto.
  - intros event Hnone Hin. unfold filterByDateRange in Hin.
    apply filter_In in Hin as [_ Hin]. apply inDateRange_spec in Hin.
    destruct Hin as (t & f & e & H & _). congruence.
  - intros t Hs He event Ht. apply inDateRange_spec.
    exists t, t, t. repeat split; auto; lia.
  - reflexivity.
Qed.

Abbreviation on_day := (onDay Date_parse LocalTime).
Abbreviation count_on_day := (countOnDay Date_parse LocalTime).
Abbreviation parses := (Analytics.parses Date_parse).

Lemma filterM_same_day date events :
  Forall parses events ->
  filterM (sameDay Date_parse LocalTime date) events
  = Ok (List.filter (on_day (day date)) events).
Proof.
  induction 1 as [|event events [t Ht] _ IH]; [reflexivity|].
  cbn [filterM]. rewrite IH. unfold sameDay, new_Date, onDay. rewrite Ht.
  simpl. rewrite Ht. reflexivity.
Qed.

Lemma addDayEvents_valid date count userData :
  Forall parses (eventsInRange userData) ->
  addDayEvents Date_parse LocalTime date count userData
  = Ok (count + count_on_day (day date) (eventsInRange userData)).
Proof.
  intros H. unfold addDayEvents. rewrite (filterM_same_day date _ H). reflexivity.
Qed.

Lemma reduceM_counts date analyticsData : forall count,
  Forall (fun userData => Forall parses (eventsInRange userData)) analyticsData ->
  reduceM (addDayEvents Date_parse LocalTime date) count analyticsData
  = Ok (count + sum (map (fun userData => count_on_day (day date) (eventsInRange userData))
                         analyticsData)).
Proof.
  induction analyticsData as [|userData rest IH]; intros count H; cbn [reduceM map].
  - unfold sum. simpl. f_equal. lia.
  - inversion H as [|? ? Hu Hrest]; subst.
    rewrite (addDayEvents_valid date count userData Hu). cbn [bind].
    rewrite (IH _ Hrest). unfold sum. simpl. f_equal. lia.
Qed.

Lemma count_on_day_nonneg d events : 0 <= count_on_day d events.
Proof. unfold countOnDay. lia. Qed.

Lemma sum_nonneg l : Forall (fun x => 0 <= x) l -> 0 <= sum l.
Proof. induction 1; simpl; lia. Qed.

(** An event falls on exactly one of the days [d .. d + n - 1] when its day
    is among them. *)
Lemma sum_indicator (x : Z) n : forall d,
  d <= x < d + Z.of_nat n ->
  sum (map (fun i => if x =? i then 1 else 0) (seqZ d (Z.of_nat n))) = 1.
Proof.
  induction n as [|n IH]; intros d H; [lia|].
  rewrite seqZ_cons by lia. simpl.
  replace (Z.pred (Z.of_nat (S n))) with (Z.of_nat n) by lia.
  destruct (Z.eqb_spec x d) as [->|Hne].
  - assert (sum (map (fun i => if d =? i then 1 else 0) (seqZ (Z.succ d) (Z.of_nat n))) = 0) as ->; [|lia].
    clear. generalize (Z.succ d) (Z.lt_succ_diag_r d). intros m. revert m.
    induction n as [|n IH]; intros m Hm.
    + reflexivity.
    + rewrite seqZ_cons by lia. simpl.
      replace (Z.pred (Z.of_nat (S n))) with (Z.of_nat n) by lia.
      destruct (Z.eqb_spec d m); [lia|]. rewrite IH by lia. reflexivity.
  - rewrite IH by lia. reflexivity.
Qed.

Lemma count_on_day_cons d event events :
  count_on_day d (event :: events)
  = (if on_day d event then 1 else 0) + count_on_day d events.
Proof.
  unfold countOnDay. simpl. destruct (on_day d event); simpl; lia.
Qed.

Lemma sum_map_add {A} (f g : A -> Z) l :
  sum (map (fun i => f i + g i) l) = sum (map f l) + sum (map g l).
Proof. induction l as [|a l IH]; simpl; lia. Qed.

Lemma sum_counts_over_days events d n :
  Forall (fun event => exists t, Date_parse (timestamp event) = Some t
                                 /\ d <= day t < d + Z.of_nat n) events ->
  sum (map (fun i => count_on_day i events) (seqZ d (Z.of_nat n)))
  = Z.of_nat (length events).
Proof.
  induction 1 as [|event events (t & Ht & Hd) _ IH].
  - unfold countOnDay. simpl. induction (seqZ d (Z.of_nat n)); simpl; lia.
  - rewrite (map_ext _ (fun i => (if on_day i event then 1 else 0) + count_on_day i events))
      by (intros i; apply count_on_day_cons).
    rewrite sum_map_add, IH.
    rewrite (map_ext (fun i => if on_day i event then 1 else 0)
                     (fun i => if day t =? i then 1 else 0))
      by (intros i; unfold onDay; now rewrite Ht).
    rewrite sum_indicator by lia. simpl length. lia.
Qed.

Lemma sum_swap analyticsData ds :
  sum (map (fun d => sum (map (fun userData => count_on_day d (eventsInRange userData))
                              analyticsData)) ds)
  = sum (map (fun userData => sum (map (fun d => count_on_day d (eventsInRange userData)) ds))
             analyticsData).
Proof.
  induction analyticsData as [|userData rest IH]; simpl.
  - induction ds; simpl; lia.
  - rewrite sum_map_add, IH. reflexivity.
Qed.

Lemma in_range_parses dateRange event :
  in_range dateRange event = true -> parses event.
Proof.
  intros H. apply inDateRange_spec in H as (t & f & e & Ht & _).
  unfold parses. rewrite Ht. eauto.
Qed.

(** Between the instants [lo] and [hi] the zone keeps the offset [tz]. *)
Section Steady.
Variables tz lo hi : Z.
Hypothesis steady_local : forall t, lo <= t <= hi -> LocalTime t = t + tz.
Hypothesis steady_utc : forall t, lo <= t <= hi -> UTC (t + tz) = t.

Lemma day_steady t : lo <= t <= hi -> day t = (t + tz) / msPerDay.
Proof. intros H. unfold localDay. now rewrite steady_local. Qed.

Lemma floor_day_bounds x : x - msPerDay < x / msPerDay * msPerDay <= x.
Proof.
  pose proof msPerDay_pos as Hpos.
  pose proof (Z.mul_div_le x msPerDay Hpos).
  pose proof (Z.mul_succ_div_gt x msPerDay Hpos). lia.
Qed.

Lemma midnight_steady t :
  lo + msPerDay <= t <= hi -> midnight t = (t + tz) / msPerDay * msPerDay - tz.
Proof.
  intros H. pose proof msPerDay_pos. unfold startOfDay. rewrite day_steady by lia.
  pose proof (floor_day_bounds (t + tz)) as Hb.
  replace ((t + tz) / msPerDay * msPerDay)
    with (((t + tz) / msPerDay * msPerDay - tz) + tz) at 1 by lia.
  apply steady_utc. lia.
Qed.

Lemma nextDay_steady t :
  lo <= t -> t + msPerDay <= hi -> nextDay LocalTime UTC t = t + msPerDay.
Proof.
  intros H1 H2. pose proof msPerDay_pos. unfold nextDay.
  rewrite steady_local by lia.
  replace (t + tz + msPerDay) with ((t + msPerDay) + tz) by lia.
  apply steady_utc. lia.
Qed.

Lemma midnight_next d :
  lo <= d * msPerDay - tz -> d * msPerDay - tz + msPerDay <= hi ->
  midnight (nextDay LocalTime UTC (d * msPerDay - tz)) = (d + 1) * msPerDay - tz.
Proof.
  intros H1 H2. pose proof msPerDay_pos. rewrite nextDay_steady by assumption.
  rewrite midnight_steady by lia.
  replace (d * msPerDay - tz + msPerDay + tz) with ((d + 1) * msPerDay) by lia.
  rewrite Z.div_mul by discriminate. reflexivity.
Qed.

Lemma midnight_le_iff d e : d * msPerDay - tz <= e <-> d <= (e + tz) / msPerDay.
Proof.
  pose proof msPerDay_pos as Hpos. split; intros H.
  - apply Z.div_le_lower_bound; lia.
  - pose proof (Z.mul_div_le (e + tz) msPerDay Hpos). nia.
Qed.

(** The loop, started at the midnight of day [d] with enough rounds, leaves
    the interval and lists the midnights of the days from [d] to the day of
    [e]. *)
Lemma eachDay_loop_days fuel : forall d e,
  lo <= d * msPerDay - tz -> e + msPerDay <= hi ->
  (Z.to_nat ((e + tz) / msPerDay - d + 1) < fuel)%nat ->
  eachDay_loop LocalTime UTC fuel (d * msPerDay - tz) e
  = Some (map (fun i => i * msPerDay - tz) (seqZ d ((e + tz) / msPerDay - d + 1))).
Proof.
  induction fuel as [|fuel IH]; intros d e Hlo Hhi Hfuel; [lia|].
  cbn [eachDay_loop]. pose proof msPerDay_pos as Hpos.
  destruct (Z.leb_spec (d * msPerDay - tz) e) as [Hle|Hgt].
  - rewrite midnight_next by lia.
    apply midnight_le_iff in Hle.
    rewrite IH by lia. cbn [fmap option_fmap option_map]. f_equal.
    rewrite (seqZ_cons d) by lia. cbn [map].
    replace (Z.succ d) with (d + 1) by lia.
    replace (Z.pred ((e + tz) / msPerDay - d + 1))
      with ((e + tz) / msPerDay - (d + 1) + 1) by lia.
    reflexivity.
  - rewrite seqZ_nil; [reflexivity|].
    assert (~ d <= (e + tz) / msPerDay) by (rewrite <- midnight_le_iff; lia). lia.
Qed.

Lemma eachDayOfInterval_days s e :
  lo + msPerDay <= s -> s <= e -> e + msPerDay <= hi ->
  eachDayOfInterval LocalTime UTC (Some s) (Some e)
  = Some (Ok (map (fun i => i * msPerDay - tz)
                  (seqZ ((s + tz) / msPerDay)
                        ((e + tz) / msPerDay - (s + tz) / msPerDay + 1)))).
Proof.
  intros Hlo Hle Hhi. pose proof msPerDay_pos as Hpos. unfold eachDayOfInterval.
  destruct (Z.leb_spec s e); [|lia].
  rewrite midnight_steady by lia.
  pose proof (floor_day_bounds (s + tz)) as Hb.
  rewrite eachDay_loop_days; [reflexivity | lia | lia |].
  unfold eachDay_rounds.
  replace (e - ((s + tz) / msPerDay * msPerDay - tz))
    with (e + tz + (- ((s + tz) / msPerDay)) * msPerDay) by lia.
  rewrite Z.div_add by discriminate.
  assert ((s + tz) / msPerDay <= (e + tz) / msPerDay)
    by (apply Z.div_le_mono; lia).
  lia.
Qed.

(** The series computed over the midnights of the days [ds]. *)
Lemma mapM_buckets analyticsData ds :
  Forall (fun userData => Forall parses (eventsInRange userData)) analyticsData ->
  Forall (fun i => lo <= i * msPerDay - tz <= hi) ds ->
  mapM (dayBucket Date_parse LocalTime analyticsData) (map (fun i => i * msPerDay - tz) ds)
  = Ok (map (fun d => {| date := d;
                         events := sum (map (fun userData =>
                                               count_on_day d (eventsInRange userData))
                                            analyticsData) |}) ds).
Proof.
  intros H Hds. induction Hds as [|d ds Hd _ IH]; [reflexivity|].
  cbn [map mapM]. rewrite IH. unfold dayBucket.
  rewrite (reduceM_counts _ _ 0 H). cbn [bind].
  rewrite (day_steady _ Hd), Z.sub_add, Z.div_mul by discriminate. reflexivity.
Qed.

Lemma in_range_day dateRange event f e :
  lo <= f -> e <= hi ->
  Date_parse (start dateRange) = Some f ->
  Date_parse (range_end dateRange) = Some e ->
  in_range dateRange event = true ->
  exists t, Date_parse (timestamp event) = Some t
            /\ (f + tz) / msPerDay <= day t <= (e + tz) / msPerDay.
Proof.
  intros Hlo Hhi Hf He H.
  apply inDateRange_spec in H as (t & f' & e' & Ht & Hf' & He' & Hle).
  rewrite Hf in Hf'. rewrite He in He'. injection Hf' as <-. injection He' as <-.
  exists t. split; [exact Ht|]. rewrite day_steady by lia.
  split; apply Z.div_le_mono; try reflexivity; lia.
Qed.

End Steady.


End Analytics_facts.

(** *** Settings export and import *)

Section Settings_facts.
Import Js Settings.

Lemma toJson_ofJson_plain v : plain v = true -> ofJson <$> toJson v = Some v.
Proof.
  destruct v as [| |b|n|s|l|m]; try discriminate; try reflexivity.
  destruct n; try discriminate; reflexivity.
Qed.

Lemma roundtrip_plain (settings : gmap string JsValue) :
  (forall k v, settings !! k = Some v -> plain v = true) ->
  ofJson <$> omap toJson settings = settings.
Proof.
  intros H. apply map_eq. intros k.
  rewrite lookup_fmap, lookup_omap.
  destruct (settings !! k) as [v|] eqn:E; [|reflexivity].
  simpl. apply toJson_ofJson_plain. now apply (H k).
Qed.

Lemma union_covering (settings current : gmap string JsValue) :
  dom current ⊆ dom settings -> settings ∪ current = settings.
Proof.
  intros H. apply map_eq. intros k. rewrite lookup_union.
  destruct (settings !! k) as [v|] eqn:E.
  - destruct (current !! k); reflexivity.
  - assert (current !! k = None) as ->; [|reflexivity].
    apply not_elem_of_dom. intros Hk. apply H in Hk.
    apply not_elem_of_dom in E. contradiction.
Qed.

(** C6 (amended).  For a settings object whose fields hold
    strings, booleans, null or finite numbers, exporting it and importing the
    exported file over current settings that have no other keys gives the
    exported object back, and no alert. *)
Theorem settings_export_import_roundtrip (settings current : gmap string JsValue) :
  (forall k v, settings !! k = Some v -> plain v = true) ->
  dom current ⊆ dom settings ->
  handleImportSettings current (handleExportSettings settings) = (settings, None).
Proof.
  intros Hplain Hdom.
  unfold handleExportSettings, JSON_stringify, handleImportSettings. simpl.
  unfold spread. simpl. rewrite (roundtrip_plain settings Hplain).
  now rewrite (union_covering settings current Hdom).
Qed.

End Settings_facts.

Lemma settings_export_import_roundtrip_witness :
  Settings.handleImportSettings (Settings.initialSettings None)
    (Settings.handleExportSettings
       (Settings.toggle "debugMode"
          (Settings.changeNumber Platform.parseInt "retentionDays" "30"
             (Settings.initialSettings (Some "https://events.example.org")))))
  = (Settings.toggle "debugMode"
       (Settings.changeNumber Platform.parseInt "retentionDays" "30"
          (Settings.initialSettings (Some "https://events.example.org"))),
     None).
Proof.
  apply settings_export_import_roundtrip.
  - apply (bool_decide_unpack (map_Forall (fun _ v => Settings.plain v = true) _)).
    vm_compute. exact I.
  - apply (bool_decide_unpack _). vm_compute. exact I.
Defined.

(** Counterexample to C6 as stated: in the settings reached by clearing a
    number input the field holds NaN, the exported document holds null, and
    the import gives null back. *)
Lemma settings_roundtrip_counterexample :
  cleared_interval !! "refreshInterval" = Some (Js.JNumber Js.NaN)
  /\ fst (Settings.handleImportSettings cleared_interval
            (Settings.handleExportSettings cleared_interval)) !! "refreshInterval"
     = Some Js.JNull
  /\ fst (Settings.handleImportSettings cleared_interval
            (Settings.handleExportSettings cleared_interval)) <> cleared_interval.
Proof.
  split; [reflexivity|]. split; [reflexivity|].
  intros H. apply (f_equal (fun m => m !! "refreshInterval")) in H.
  vm_compute in H. discriminate.
Qed.

(** *** The theorems at sample inputs *)

Lemma timer_tick_wraps_witness :
  TimeTravel.autoPlayTick TimeTravel.five_events 2 = 3
  /\ TimeTravel.autoPlayTick TimeTravel.five_events 5 = 1.
Proof.
  split.
  - apply (timer_tick_wraps TimeTravel.five_events 2). reflexivity.
  - apply (timer_tick_wraps TimeTravel.five_events 5). vm_compute. discriminate.
Defined.

Lemma date_range_filter_inclusive_witness :
  In (event_at "2024-01-03T00:00:00.000Z")
     (Analytics.filterByDateRange (Platform.Date_parse ist) first_days_of_2024
        sample_timeline)
  /\ ~ In (event_at "not a date")
          (Analytics.filterByDateRange (Platform.Date_parse ist) first_days_of_2024
             sample_timeline).
Proof.
  destruct (date_range_filter_inclusive (Platform.Date_parse ist)
              first_days_of_2024 sample_timeline) as (_ & _ & Hkept & Hinvalid & _).
  split.
  - apply Hkept. split.
    + vm_compute. tauto.
    + exists 1704240000000, 1704067200000, 1704240000000.
      repeat split; vm_compute; congruence.
  - apply Hinvalid. reflexivity.
Defined.



Lemma unauthorized_clears_token_and_redirects_witness :
  Api.getItem "authToken" signed_in = Some sample_token
  /\ Api.getItem "authToken"
       (fst (Api.api_call Api.production unauthorized_server
               (Api.request "GET" "/users/me" Js.JUndefined) signed_in)) = None
  /\ Route.route_outcomes Platform.atob Platform.decodeURIComponent
       Platform.JSON_parse Platform.ToNumber_nonprimitive Api.production
       [Route.route_check 1600000000000;
        Route.call unreachable_server (Api.request "GET" "/health" Js.JUndefined);
        Route.save_settings "{}";
        Route.route_check 1600000001000]
       (fst (Api.api_call Api.production unauthorized_server
               (Api.request "GET" "/users/me" Js.JUndefined) signed_in))
     = [Js.Ok (Route.Navigate "/login"); Js.Ok (Route.Navigate "/login")].
Proof.
  split; [reflexivity|].
  destruct (unauthorized_clears_token_and_redirects
              Platform.atob Platform.decodeURIComponent Platform.JSON_parse
              Platform.ToNumber_nonprimitive Api.production unauthorized_server
              (Api.request "GET" "/users/me" Js.JUndefined) signed_in
              {| Js.status := 401; Js.data := Js.JNull |}
              [Route.route_check 1600000000000;
               Route.call unreachable_server (Api.request "GET" "/health" Js.JUndefined);
               Route.save_settings "{}";
               Route.route_check 1600000001000]
              eq_refl eq_refl) as (_ & Hgone & _ & _).
  split; [exact Hgone | reflexivity].
Defined.

Lemma unread_count_swallowed_health_rethrown_witness :
  snd (Api.getUnreadCount Api.development unreachable_server signed_in)
  = Js.Ok (Js.JObject {[ "unreadCount" := Js.JNumber (Js.Fin 0) ]})
  /\ snd (Api.getHealth Api.development unreachable_server signed_in)
     = Js.Throw (Js.Error "Network error - please check your connection").
Proof.
  destruct (unread_count_swallowed_health_rethrown Api.development
              unreachable_server signed_in) as (Hunread & Hhealth).
  split.
  - apply (Hunread (Js.Error "Network error - please check your connection")).
    reflexivity.
  - apply Hhealth. reflexivity.
Defined.

(** Counterexample to C9 as stated, for the health check: with the server
    out of reach, and with a server answering 500, [getHealth] rejects. *)
Lemma getHealth_rejects_counterexample :
  snd (Api.getHealth Api.development unreachable_server empty_browser)
  = Js.Throw (Js.Error "Network error - please check your connection")
  /\ snd (Api.getHealth Api.production
            (fun _ => Some {| Js.status := 500; Js.data := Js.JNull |}) empty_browser)
     = Js.Throw (Js.AxiosError "Request failed"
                   (Some {| Js.status := 500; Js.data := Js.JNull |}))
  /\ ~ (forall env adapter w e,
          snd (Api.api_call env adapter (Api.request "GET" "/health" Js.JUndefined) w)
          = Js.Throw e ->
          exists v, snd (Api.getHealth env adapter w) = Js.Ok v).
Proof.
  split; [reflexivity|]. split; [reflexivity|].
  intros H.
  destruct (H Api.development unreachable_server empty_browser
              (Js.Error "Network error - please check your connection") eq_refl)
    as [v Hv].
  discriminate Hv.
Qed.

(** *** The definitions on sample inputs *)

Example decode_sample_token :
  Auth.decodeJWT Platform.atob Platform.decodeURIComponent Platform.JSON_parse
    sample_token = Js.JObject sample_payload.
Proof. vm_compute. reflexivity. Qed.

Example percent_braces : Auth.percent_all "{}" = "%7b%7d".
Proof. reflexivity. Qed.

Example token_without_exp_is_not_expired :
  Auth.isTokenExpired Platform.atob Platform.decodeURIComponent Platform.JSON_parse
    Platform.ToNumber_nonprimitive 1700000000000 "h.e30.s" = Js.Ok false.
Proof. vm_compute. reflexivity. Qed.

Example guard_passes_fresh_token :
  Route.PrivateRoute Platform.atob Platform.decodeURIComponent Platform.JSON_parse
    Platform.ToNumber_nonprimitive 1699999999000 signed_in
  = (signed_in, Js.Ok Route.Children).
Proof. vm_compute. reflexivity. Qed.

Example guard_redirects_expired_token :
  snd (Route.PrivateRoute Platform.atob Platform.decodeURIComponent
         Platform.JSON_parse Platform.ToNumber_nonprimitive 1700000001000 signed_in)
  = Js.Ok (Route.Navigate "/login").
Proof. vm_compute. reflexivity. Qed.

Example play_through_five_events :
  map TimeTravel.eventCount
    (TimeTravel.trace (TimeTravel.initial TimeTravel.eventCount_mode TimeTravel.five_events)
       [TimeTravel.play_pause; TimeTravel.timer_tick; TimeTravel.timer_tick;
        TimeTravel.timer_tick; TimeTravel.timer_tick; TimeTravel.timer_tick;
        TimeTravel.timer_tick])
  = [1; 2; 3; 4; 5; 1; 2].
Proof. reflexivity. Qed.

Example no_tick_in_timestamp_mode :
  TimeTravel.eventCount
    (TimeTravel.run (TimeTravel.initial TimeTravel.timestamp_mode TimeTravel.five_events)
       [TimeTravel.play_pause; TimeTravel.timer_tick]) = 1.
Proof. reflexivity. Qed.

Example filter_sample_timeline :
  map Analytics.timestamp
    (Analytics.filterByDateRange (Platform.Date_parse ist) first_days_of_2024
       sample_timeline)
  = ["2024-01-01T00:00:00.000Z"; "2024-01-02T12:30:00.000Z";
     "2024-01-02T20:00:00.000Z"; "2024-01-03T00:00:00.000Z"].
Proof. vm_compute. reflexivity. Qed.

Example series_of_sample_analytics :
  Analytics.eventsOverTime (Platform.Date_parse ist) (Platform.LocalTime india)
    (Platform.UTC india) sample_analytics first_days_of_2024
  = Some (Js.Ok [ {| Analytics.date := 19723; Analytics.events := 1 |};
                  {| Analytics.date := 19724; Analytics.events := 2 |};
                  {| Analytics.date := 19725; Analytics.events := 2 |} ]).
Proof. vm_compute. reflexivity. Qed.

(** In a zone behind UTC the first bucket is the local day before the start
    of the range. *)
Example series_behind_utc :
  Analytics.eventsOverTime (Platform.Date_parse (-3600000))
    (Platform.LocalTime azores_march_2024) (Platform.UTC azores_march_2024)
    [] first_days_of_2024
  = Some (Js.Ok (map (fun d => {| Analytics.date := d; Analytics.events := 0 |})
                     (seqZ 19722 3))).
Proof. vm_compute. reflexivity. Qed.

Example series_rejects_reversed_range :
  Analytics.eventsOverTime (Platform.Date_parse ist) (Platform.LocalTime india)
    (Platform.UTC india) sample_analytics
    {| Analytics.start := "2024-01-03"; Analytics.range_end := "2024-01-01" |}
  = Some (Js.Throw Js.RangeError).
Proof. vm_compute. reflexivity. Qed.

(** Where the clocks go back, on 27 October 2024 in the Azores, the range
    from 20 to 30 October, which is 11 days, gets 10 buckets: the end of the
    range falls in the local day before 30 October. *)
Example series_around_october_change :
  Analytics.eventsOverTime (Platform.Date_parse 0)
    (Platform.LocalTime azores_october_2024) (Platform.UTC azores_october_2024)
    [] around_october_change
  = Some (Js.Ok (map (fun d => {| Analytics.date := d; Analytics.events := 0 |})
                     (seqZ 20016 10))).
Proof. vm_compute. reflexivity. Qed.

Example export_of_cleared_interval :
  Settings.handleExportSettings cleared_interval
  = Some (Settings.json_text
            (Settings.jobject
               (<[ "refreshInterval" := Settings.jnull ]>
                  (default ∅
                     (match Settings.toJson (Js.JObject (Settings.initialSettings None)) with
                      | Some (Settings.jobject m) => Some m
                      | _ => None
                      end))))).
Proof. vm_compute. reflexivity. Qed.

Example import_of_other_text :
  Settings.handleImportSettings (Settings.initialSettings None)
    (Some (Settings.other_text "not json"))
  = (Settings.initialSettings None, Some "Invalid settings file").
Proof. reflexivity. Qed.

(** *** More on the playback cursor *)

Section TimeTravel_more.
Import TimeTravel TimeTravelPage.

Lemma run_cons st o ops : run st (o :: ops) = run (step st o) ops.
Proof. reflexivity. Qed.

Lemma tick_installed evs st :
  autoPlayInstalled st = true -> timeline st = Some evs ->
  tick st = setEventCount (autoPlayTick evs) st.
Proof. intros Hi Ht. unfold tick. now rewrite Ht, Hi. Qed.

Lemma installed_setEventCount f st :
  autoPlayInstalled (setEventCount f st) = autoPlayInstalled st.
Proof. reflexivity. Qed.

Lemma autoPlayTick_mod evs c :
  1 <= c <= events_length evs ->
  autoPlayTick evs c = c mod events_length evs + 1.
Proof.
  intros H. unfold autoPlayTick.
  destruct (Z.geb_spec c (events_length evs)) as [Hge|Hlt].
  - assert (c = events_length evs) as -> by lia.
    rewrite Z.mod_same by lia. reflexivity.
  - rewrite Z.mod_small by lia. reflexivity.
Qed.

Lemma ticks_closed evs k : forall st,
  autoPlayInstalled st = true ->
  timeline st = Some evs ->
  1 <= eventCount st <= events_length evs ->
  eventCount (run st (repeat timer_tick k))
  = (eventCount st - 1 + Z.of_nat k) mod events_length evs + 1.
Proof.
  induction k as [|k IH]; intros st Hi Ht Hc.
  - simpl. rewrite Z.add_0_r, Z.mod_small by lia. lia.
  - cbn [repeat]. rewrite run_cons. cbn [step].
    rewrite (tick_installed evs st Hi Ht).
    rewrite IH; [| exact Hi | exact Ht |].
    + cbn [setEventCount eventCount]. rewrite autoPlayTick_mod by exact Hc.
      replace (eventCount st mod events_length evs + 1 - 1 + Z.of_nat k)
        with (eventCount st mod events_length evs + Z.of_nat k) by lia.
      rewrite Zplus_mod_idemp_l. f_equal. f_equal. lia.
    + cbn [setEventCount eventCount]. apply autoPlayTick_bounds; lia.
Qed.

(** X1.  While the interval is installed and the cursor is in [1, N], k
    timer ticks move the cursor c to ((c - 1 + k) mod N) + 1: playback
    cycles through the events, and N ticks bring the cursor back to where it
    was. *)
Theorem ticks_cycle (evs : list TimelineEvent) (st : State) (k : nat) :
  autoPlayInstalled st = true ->
  timeline st = Some evs ->
  1 <= eventCount st <= events_length evs ->
  eventCount (run st (repeat timer_tick k))
  = (eventCount st - 1 + Z.of_nat k) mod events_length evs + 1
  /\ eventCount (run st (repeat timer_tick (length evs))) = eventCount st.
Proof.
  intros Hi Ht Hc. split; [now apply ticks_closed|].
  rewrite (ticks_closed evs (length evs) st Hi Ht Hc).
  fold (events_length evs).
  rewrite <- (Z.mul_1_l (events_length evs)) at 1.
  rewrite Z.mod_add by lia. rewrite Z.mod_small by lia. lia.
Qed.

Lemma ticks_cycle_witness :
  map (fun k => eventCount
                  (run (step (initial eventCount_mode five_events) play_pause)
                       (repeat timer_tick k))) [3; 5; 7]%nat
  = [4; 1; 3].
Proof.
  assert (forall k,
            eventCount (run (step (initial eventCount_mode five_events) play_pause)
                            (repeat timer_tick k))
            = (1 - 1 + Z.of_nat k) mod 5 + 1) as H.
  { intros k.
    apply (ticks_cycle five_events
             (step (initial eventCount_mode five_events) play_pause) k);
      [reflexivity | reflexivity | vm_compute; split; discriminate]. }
  cbn [map]. rewrite !H. reflexivity.
Defined.

Lemma tick_paused st : isPlaying st = false -> tick st = st.
Proof.
  intros H. unfold tick, autoPlayInstalled. rewrite H.
  destruct (timeline st); reflexivity.
Qed.

Lemma ticks_paused k : forall st,
  isPlaying st = false -> run st (repeat timer_tick k) = st.
Proof.
  induction k as [|k IH]; intros st H; [reflexivity|].
  cbn [repeat]. rewrite run_cons. cbn [step]. rewrite (tick_paused st H).
  now apply IH.
Qed.

(** X2.  Jumping to the start always stops playback: in every state it
    clears the playing flag and puts the cursor on 1.  Jumping to the end
    does the same with the cursor on the last event when a timeline is
    loaded.  Once stopped, timer ticks leave the whole state as the jump
    left it.  Without a loaded timeline the jump to the end does nothing, and
    the two steps never change the playing flag. *)
Theorem jumps_stop_playback (st : State) (k : nat) :
  isPlaying (handleJumpToStart st) = false
  /\ eventCount (handleJumpToStart st) = 1
  /\ (forall evs, timeline st = Some evs ->
        isPlaying (handleJumpToEnd st) = false
        /\ eventCount (handleJumpToEnd st) = events_length evs)
  /\ run (handleJumpToStart st) (repeat timer_tick k) = handleJumpToStart st
  /\ (is_Some (timeline st) ->
      run (handleJumpToEnd st) (repeat timer_tick k) = handleJumpToEnd st)
  /\ (timeline st = None -> handleJumpToEnd st = st)
  /\ isPlaying (handleStepForward st) = isPlaying st
  /\ isPlaying (handleStepBackward st) = isPlaying st.
Proof.
  split; [reflexivity|]. split; [reflexivity|].
  split.
  { intros evs Ht. unfold handleJumpToEnd. rewrite Ht. split; reflexivity. }
  split; [apply ticks_paused; reflexivity|].
  split.
  { intros [evs Ht]. apply ticks_paused. unfold handleJumpToEnd. now rewrite Ht. }
  split.
  { intros Ht. unfold handleJumpToEnd. now rewrite Ht. }
  split; [|reflexivity].
  unfold handleStepForward. destruct (timeline st); reflexivity.
Qed.

Lemma forward_closed evs k : forall st,
  timeline st = Some evs ->
  eventCount st <= events_length evs ->
  eventCount (run st (repeat step_forward k))
  = Z.min (eventCount st + Z.of_nat k) (events_length evs).
Proof.
  induction k as [|k IH]; intros st Ht Hc.
  - simpl. lia.
  - cbn [repeat]. rewrite run_cons. cbn [step].
    rewrite IH; rewrite ?timeline_step_forward, ?(eventCount_step_forward evs st Ht);
      try exact Ht; lia.
Qed.

Lemma backward_closed k : forall st,
  1 <= eventCount st ->
  eventCount (run st (repeat step_backward k))
  = Z.max (eventCount st - Z.of_nat k) 1.
Proof.
  induction k as [|k IH]; intros st Hc.
  - simpl. lia.
  - cbn [repeat]. rewrite run_cons. cbn [step].
    rewrite IH; unfold handleStepBackward; cbn [setEventCount eventCount]; lia.
Qed.

(** X3.  With a loaded timeline of N events and the cursor c in [1, N], k
    presses of step-forward give min(c + k, N) and k presses of
    step-backward give max(c - k, 1); a step forward followed by a step back
    returns to c when c < N, and a step back followed by a step forward
    returns to c when c > 1. *)
Theorem steps_clamp (evs : list TimelineEvent) (st : State) (k : nat) :
  timeline st = Some evs ->
  1 <= eventCount st <= events_length evs ->
  eventCount (run st (repeat step_forward k))
  = Z.min (eventCount st + Z.of_nat k) (events_length evs)
  /\ eventCount (run st (repeat step_backward k))
     = Z.max (eventCount st - Z.of_nat k) 1
  /\ (eventCount st < events_length evs ->
      eventCount (handleStepBackward (handleStepForward st)) = eventCount st)
  /\ (1 < eventCount st ->
      eventCount (handleStepForward (handleStepBackward st)) = eventCount st).
Proof.
  intros Ht Hc.
  split; [apply forward_closed; [exact Ht | lia]|].
  split; [apply backward_closed; lia|].
  split; intros H.
  - unfold handleStepBackward. cbn [setEventCount eventCount].
    rewrite (eventCount_step_forward evs st Ht). lia.
  - rewrite (eventCount_step_forward evs) by exact Ht.
    unfold handleStepBackward. cbn [setEventCount eventCount]. lia.
Qed.

Lemma steps_clamp_witness :
  eventCount (run (initial eventCount_mode five_events) (repeat step_forward 3)) = 4
  /\ eventCount (run (initial eventCount_mode five_events) (repeat step_backward 3)) = 1.
Proof.
  destruct (steps_clamp five_events (initial eventCount_mode five_events) 3)
    as (Hf & Hb & _); [reflexivity | vm_compute; split; discriminate |].
  split; [exact Hf | exact Hb].
Defined.

Lemma highlighted_count_mode p index event :
  viewMode (playback p) = eventCount_mode ->
  highlighted p index event = (Z.of_nat index + 1 =? eventCount (playback p)).
Proof.
  intros H. unfold highlighted. rewrite H. simpl. apply orb_false_r.
Qed.

(** X4.  A click on entry i of the loaded timeline sets the cursor to i + 1
    and the selected timestamp to the first 16 characters of the entry's
    timestamp, leaves the mode and the playing flag alone, and makes entry i
    the highlighted one: in either mode entry i is highlighted, and in
    event-count mode no other entry is.  A click on an index that is not in
    the list changes nothing. *)
Theorem click_entry_selects (p : Page) (evs : list TimelineEvent) (i : nat) :
  timeline (playback p) = Some evs ->
  (forall event, evs !! i = Some event ->
     let p' := handleTimestampChange i p in
     eventCount (playback p') = Z.of_nat i + 1
     /\ selectedTimestamp p' = slice16 (timestamp event)
     /\ viewMode (playback p') = viewMode (playback p)
     /\ isPlaying (playback p') = isPlaying (playback p)
     /\ highlighted p' i event = true
     /\ (viewMode (playback p) = eventCount_mode ->
         forall j event', highlighted p' j event' = true <-> j = i))
  /\ (evs !! i = None -> handleTimestampChange i p = p).
Proof.
  intros Ht. split.
  - intros event Hi p'. subst p'. unfold handleTimestampChange. rewrite Ht, Hi.
    cbn [playback selectedTimestamp setEventCount eventCount viewMode isPlaying].
    repeat split.
    + unfold highlighted.
      cbn [playback selectedTimestamp setEventCount eventCount viewMode].
      rewrite Z.eqb_refl, String.eqb_refl.
      destruct (viewMode (playback p)); reflexivity.
    + rewrite highlighted_count_mode by exact H.
      cbn [playback setEventCount eventCount]. intros E.
      apply Z.eqb_eq in E. lia.
    + intros ->. rewrite highlighted_count_mode by exact H.
      cbn [playback setEventCount eventCount]. apply Z.eqb_refl.
  - intros Hi. unfold handleTimestampChange. now rewrite Ht, Hi.
Qed.

Lemma click_entry_selects_witness :
  eventCount (playback
                (handleTimestampChange 2
                   {| playback := initial timestamp_mode five_events;
                      selectedTimestamp := "2023-12-31T08:15" |})) = 3
  /\ selectedTimestamp
       (handleTimestampChange 2
          {| playback := initial timestamp_mode five_events;
             selectedTimestamp := "2023-12-31T08:15" |}) = "2024-01-01T00:00"
  /\ handleTimestampChange 5
       {| playback := initial timestamp_mode five_events;
          selectedTimestamp := "2023-12-31T08:15" |}
     = {| playback := initial timestamp_mode five_events;
          selectedTimestamp := "2023-12-31T08:15" |}.
Proof.
  destruct (click_entry_selects
              {| playback := initial timestamp_mode five_events;
                 selectedTimestamp := "2023-12-31T08:15" |}
              five_events 2 eq_refl) as (Hin & _).
  destruct (Hin (sample_event "e3") eq_refl) as (Hc & Hs & _).
  destruct (click_entry_selects
              {| playback := initial timestamp_mode five_events;
                 selectedTimestamp := "2023-12-31T08:15" |}
              five_events 5 eq_refl) as (_ & Hout).
  split; [exact Hc|]. split; [exact Hs|]. apply Hout. reflexivity.
Defined.

Lemma page_step_timeline p o :
  timeline (playback (page_step p o)) = timeline (playback p).
Proof.
  destruct o as [o | i | value]; cbn [page_step playback].
  - apply timeline_step.
  - unfold handleTimestampChange. destruct (timeline (playback p)) as [evs|] eqn:E; [|exact E].
    destruct (evs !! i); [exact E | exact E].
  - reflexivity.
Qed.

Lemma page_step_in_range evs p o :
  timeline (playback p) = Some evs ->
  1 <= events_length evs ->
  1 <= eventCount (playback p) <= events_length evs ->
  1 <= eventCount (playback (page_step p o)) <= events_length evs.
Proof.
  intros Ht HN Hc. destruct o as [o | i | value]; cbn [page_step playback].
  - now apply step_in_range.
  - unfold handleTimestampChange. rewrite Ht.
    destruct (evs !! i) as [event|] eqn:E; [|exact Hc].
    cbn [playback setEventCount eventCount].
    apply lookup_lt_Some in E. unfold events_length. lia.
  - exact Hc.
Qed.

(** X5.  With N >= 1 loaded events and the cursor in [1, N], the cursor
    stays in [1, N] after every operation of every sequence that mixes the
    playback operations with clicks on timeline entries (in or out of the
    list) and edits of the timestamp field. *)
Theorem page_cursor_in_range
    (evs : list TimelineEvent) (ops : list PageOp) (p : Page) :
  1 <= events_length evs ->
  timeline (playback p) = Some evs ->
  1 <= eventCount (playback p) <= events_length evs ->
  Forall (fun p' => 1 <= eventCount (playback p') <= events_length evs)
         (page_trace p ops).
Proof.
  intros HN. revert p. induction ops as [|o ops IH]; intros p Ht Hc; cbn [page_trace].
  - constructor.
  - constructor.
    + now apply page_step_in_range.
    + apply IH; [now rewrite page_step_timeline | now apply page_step_in_range].
Qed.

Lemma page_cursor_in_range_witness :
  Forall (fun p' => 1 <= eventCount (playback p') <= events_length five_events)
    (page_trace
       {| playback := initial eventCount_mode five_events;
          selectedTimestamp := "2024-01-01T00:00" |}
       [click_entry 4; playback_op step_forward; click_entry 9;
        playback_op play_pause; playback_op timer_tick; click_entry 0;
        type_timestamp "2024-02-02T10:00"; playback_op step_backward]).
Proof.
  apply (page_cursor_in_range five_events);
    [vm_compute; discriminate | reflexivity | vm_compute; split; discriminate].
Defined.

End TimeTravel_more.

(** *** More on tokens *)

Section Auth_more.
Import Js Auth AuthUser.
Variable atob : string -> Exn string.
Variable decodeURIComponent : string -> Exn string.
Variable JSON_parse : string -> Exn JsValue.
Variable ToNumber_nonprimitive : JsValue -> Exn JsNumber.

Abbreviation decode' := (decodeJWT atob decodeURIComponent JSON_parse).
Abbreviation expired' :=
  (isTokenExpired atob decodeURIComponent JSON_parse ToNumber_nonprimitive).
Abbreviation user_of := (getUserFromToken atob decodeURIComponent JSON_parse).

Lemma split_no_dot s : no_dot s = true -> split "." s = [s].
Proof.
  induction s as [|c s IH]; [reflexivity|].
  cbn [no_dot split]. intros H. apply andb_true_iff in H as [Hc Hs].
  apply negb_true_iff in Hc. rewrite Hc, (IH Hs). reflexivity.
Qed.

Lemma split_segment h rest :
  no_dot h = true -> split "." (h ++ String "." rest) = h :: split "." rest.
Proof.
  induction h as [|c h IH]; [reflexivity|].
  cbn [no_dot]. intros H. apply andb_true_iff in H as [Hc Hh].
  apply negb_true_iff in Hc.
  change (String c h ++ String "." rest) with (String c (h ++ String "." rest)).
  cbn [split]. rewrite Hc, (IH Hh). reflexivity.
Qed.

Lemma split_nonempty sep s : split sep s <> [].
Proof.
  destruct s as [|c s]; [discriminate|]. cbn [split].
  destruct (Ascii.eqb c sep); [discriminate|].
  destruct (split sep s); discriminate.
Qed.

(** The segment [decodeJWT] reads, for a token of two or more segments. *)
Lemma payload_segment h p rest :
  no_dot h = true -> no_dot p = true ->
  split "." (h ++ String "." p) !! 1%nat = Some p
  /\ split "." (h ++ String "." (p ++ String "." rest)) !! 1%nat = Some p.
Proof.
  intros Hh Hp. split.
  - rewrite (split_segment h p Hh), (split_no_dot p Hp). reflexivity.
  - rewrite (split_segment h _ Hh), (split_segment p rest Hp). reflexivity.
Qed.

Lemma decode_by_segment t1 t2 :
  split "." t1 !! 1%nat = split "." t2 !! 1%nat -> decode' t1 = decode' t2.
Proof. intros H. unfold decodeJWT, decodeJWT_try. now rewrite H. Qed.

(** X6.  Only the second segment of a token is read: two tokens with the
    same payload segment, whatever their headers and signatures (or with no
    signature at all), decode to the same value, are classified the same by
    [isTokenExpired] and give the same user.  Nothing checks the
    signature. *)
Theorem signature_is_ignored (now : Z) (h h' p sig sig' : string) :
  no_dot h = true -> no_dot h' = true -> no_dot p = true ->
  let t1 := h ++ String "." (p ++ String "." sig) in
  let t2 := h' ++ String "." (p ++ String "." sig') in
  let t3 := h' ++ String "." p in
  decode' t1 = decode' t2 /\ decode' t1 = decode' t3
  /\ expired' now t1 = expired' now t2 /\ expired' now t1 = expired' now t3
  /\ user_of t1 = user_of t2 /\ user_of t1 = user_of t3.
Proof.
  intros Hh Hh' Hp t1 t2 t3.
  assert (decode' t1 = decode' t2) as H12.
  { apply decode_by_segment. subst t1 t2.
    rewrite (proj2 (payload_segment h p sig Hh Hp)).
    now rewrite (proj2 (payload_segment h' p sig' Hh' Hp)). }
  assert (decode' t1 = decode' t3) as H13.
  { apply decode_by_segment. subst t1 t3.
    rewrite (proj2 (payload_segment h p sig Hh Hp)).
    now rewrite (proj1 (payload_segment h' p sig' Hh' Hp)). }
  unfold isTokenExpired, getUserFromToken. rewrite <- H12, <- H13. tauto.
Qed.

Lemma number_lt_mono n (a b : Q) :
  (a <= b)%Q -> number_lt n (Fin a) = true -> number_lt n (Fin b) = true.
Proof.
  intros Hab. destruct n as [| | |q]; simpl; try (intros H; exact H).
  unfold Qltb. intros H. apply negb_true_iff in H. apply negb_true_iff.
  destruct (Qle_bool b q) eqn:E; [|reflexivity].
  apply Qle_bool_iff in E.
  assert (Qle_bool a q = true) as Ha
    by (apply Qle_bool_iff; eapply Qle_trans; eassumption).
  congruence.
Qed.

Lemma currentTime_mono now now' :
  now <= now' -> (currentTime now <= currentTime now')%Q.
Proof.
  intros H. unfold currentTime. apply Qmult_le_compat_r.
  - rewrite <- Zle_Qle. exact H.
  - discriminate.
Qed.

Lemma currentTime_scaled now : (currentTime now * 1000 == inject_Z now)%Q.
Proof. unfold currentTime. field. Qed.

Lemma currentTime_lt (e : Q) now :
  (e < currentTime now)%Q <-> (e * 1000 < inject_Z now)%Q.
Proof.
  split; intros H.
  - apply (Qmult_lt_r _ _ 1000) in H; [|reflexivity].
    now rewrite currentTime_scaled in H.
  - unfold currentTime. apply Qlt_shift_div_l; [reflexivity | exact H].
Qed.

Lemma Qltb_iff (a b : Q) : Qltb a b = true <-> (a < b)%Q.
Proof.
  unfold Qltb. rewrite negb_true_iff. split.
  - intros H. apply Qnot_le_lt. intros Hle. apply Qle_bool_iff in Hle. congruence.
  - intros H. destruct (Qle_bool b a) eqn:E; [|reflexivity].
    apply Qle_bool_iff in E. exfalso. exact (Qlt_not_le _ _ H E).
Qed.

(** X7.  For a token whose exp is a whole number of seconds and a clock
    reading within the range of [Date] (8.64e15 milliseconds either side of
    the epoch), the token is classified expired exactly when exp * 1000 is
    below the clock reading in milliseconds: in the second exp itself it is
    still valid.  (The quotient [Date.now() / 1000] is a rounded double;
    within that range a whole number of seconds is further from every other
    quotient than the rounding moves it, and an exp with a fraction is left
    out.)  And for every token, once it is classified expired it is
    classified expired at every later clock reading. *)
Theorem expiry_threshold (now now' : Z) (token : string) :
  (forall m n,
      decodeJWT atob decodeURIComponent JSON_parse token = JObject m ->
      m !! "exp" = Some (JNumber (Fin (inject_Z n))) ->
      - 8640000000000000 <= now <= 8640000000000000 ->
      isTokenExpired atob decodeURIComponent JSON_parse ToNumber_nonprimitive now token
      = Ok (n * 1000 <? now))
  /\ (now <= now' ->
      expired' now token = Ok true -> expired' now' token = Ok true).
Proof.
  split.
  - intros m n Hd He _.
    rewrite (expired_numeric atob decodeURIComponent JSON_parse
               ToNumber_nonprimitive now token m (inject_Z n) Hd He).
    pose proof (currentTime_lt (inject_Z n) now) as Hiff.
    f_equal. destruct (Z.ltb_spec (n * 1000) now) as [Hlt|Hge].
    + apply Qltb_iff, Hiff.
      change 1000%Q with (inject_Z 1000). rewrite <- inject_Z_mult, <- Zlt_Qlt. exact Hlt.
    + apply Qltb_false. apply Qnot_lt_le. intros H. apply Hiff in H.
      change 1000%Q with (inject_Z 1000) in H.
      rewrite <- inject_Z_mult, <- Zlt_Qlt in H. lia.
  - intros Hle. unfold isTokenExpired.
    destruct (negb (truthy (decode' token))); [intros _; reflexivity|].
    destruct (ToNumber ToNumber_nonprimitive (getProp (decode' token) "exp"))
      as [n|err]; simpl; [|discriminate].
    intros H. injection H as H. f_equal.
    apply (number_lt_mono n (currentTime now)); [now apply currentTime_mono | exact H].
Qed.

(** X8.  The two readers of a token agree: a token for which
    [getUserFromToken] returns null is classified expired at every clock
    reading, and a token that is not classified expired gives a user object
    whose keys are exactly id, email and role, read from the decoded
    payload. *)
Theorem user_and_expiry_agree (now : Z) (token : string) :
  (user_of token = JNull -> expired' now token = Ok true)
  /\ (expired' now token <> Ok true ->
      exists m,
        user_of token = JObject m
        /\ dom m = {[ "id"; "email"; "role" ]}
        /\ forall k, k ∈ dom m -> m !! k = Some (getProp (decode' token) k)).
Proof.
  unfold getUserFromToken, isTokenExpired.
  destruct (negb (truthy (decode' token))).
  - split; [reflexivity | intros H; now contradiction H].
  - split; [discriminate|]. intros _. eexists. split; [reflexivity|].
    split.
    + rewrite !dom_insert_L, dom_empty_L. set_solver.
    + intros k Hk. rewrite !dom_insert_L, dom_empty_L in Hk.
      apply elem_of_union in Hk as [Hk | Hk];
        [| apply elem_of_union in Hk as [Hk | Hk] ];
        [| | apply elem_of_union in Hk as [Hk | Hk] ];
        try apply elem_of_singleton in Hk; try subst k; try reflexivity.
      now apply not_elem_of_empty in Hk.
Qed.

End Auth_more.

Lemma signature_is_ignored_witness :
  Auth.decodeJWT Platform.atob Platform.decodeURIComponent Platform.JSON_parse
    sample_token
  = Auth.decodeJWT Platform.atob Platform.decodeURIComponent Platform.JSON_parse
      "forged.eyJleHAiOjE3MDAwMDAwMDB9.anything"
  /\ Auth.decodeJWT Platform.atob Platform.decodeURIComponent Platform.JSON_parse
       sample_token
     = Auth.decodeJWT Platform.atob Platform.decodeURIComponent Platform.JSON_parse
         "forged.eyJleHAiOjE3MDAwMDAwMDB9".
Proof.
  destruct (signature_is_ignored Platform.atob Platform.decodeURIComponent
              Platform.JSON_parse Platform.ToNumber_nonprimitive 0
              "h" "forged" "eyJleHAiOjE3MDAwMDAwMDB9" "s" "anything"
              eq_refl eq_refl eq_refl) as (H2 & H3 & _).
  split; [exact H2 | exact H3].
Defined.

(** Unescaping one escape written by [percent]. *)
Lemma unescape_percent c rest :
  Platform.unescape (Auth.percent c ++ rest)
  = option_map (cons (true, c)) (Platform.unescape rest).
Proof.
  destruct c as [[] [] [] [] [] [] [] []]; reflexivity.
Qed.

Lemma unescape_percent_all s :
  Platform.unescape (Auth.percent_all s)
  = Some (map (pair true) (list_ascii_of_string s)).
Proof.
  induction s as [|c s IH]; [reflexivity|].
  cbn [Auth.percent_all]. rewrite unescape_percent, IH. reflexivity.
Qed.

Lemma length_percent c : String.length (Auth.percent c) = 3%nat.
Proof. destruct c as [[] [] [] [] [] [] [] []]; reflexivity. Qed.

Lemma length_append (a b : string) :
  String.length (a ++ b) = (String.length a + String.length b)%nat.
Proof. induction a as [|c a IH]; simpl; [reflexivity | now rewrite IH]. Qed.

(** All characters of [s] are ASCII. *)
Lemma utf8_valid_ascii s :
  forallb (Platform.between 0 127) (list_ascii_of_string s) = true ->
  Platform.utf8_valid (map (pair true) (list_ascii_of_string s)) = true.
Proof.
  induction s as [|c s IH]; [reflexivity|].
  cbn [list_ascii_of_string forallb map]. intros H.
  apply andb_true_iff in H as [Hc Hs].
  cbn [Platform.utf8_valid fst snd negb orb]. rewrite Hc. exact (IH Hs).
Qed.

(** X9.  The escapes [decodeJWT] writes for the bytes that [atob] returns
    are three characters per byte and unescape to exactly those bytes, so
    the payload text handed to [JSON.parse] is the decoded bytes read as
    UTF-8: the bytes themselves when they are ASCII, and a thrown URIError
    when they are not well-formed UTF-8. *)
Theorem percent_escapes_roundtrip (binary : string) :
  String.length (Auth.percent_all binary) = (3 * String.length binary)%nat
  /\ Platform.unescape (Auth.percent_all binary)
     = Some (map (pair true) (list_ascii_of_string binary))
  /\ Platform.decodeURIComponent (Auth.percent_all binary)
     = (if Platform.utf8_valid (map (pair true) (list_ascii_of_string binary))
        then Js.Ok binary else Js.Throw Js.URIError)
  /\ (forallb (Platform.between 0 127) (list_ascii_of_string binary) = true ->
      Platform.decodeURIComponent (Auth.percent_all binary) = Js.Ok binary).
Proof.
  assert (Platform.decodeURIComponent (Auth.percent_all binary)
          = (if Platform.utf8_valid (map (pair true) (list_ascii_of_string binary))
             then Js.Ok binary else Js.Throw Js.URIError)) as Hdecode.
  { unfold Platform.decodeURIComponent. rewrite unescape_percent_all.
    destruct (Platform.utf8_valid _); [|reflexivity].
    rewrite map_map. cbn [snd]. rewrite map_id.
    now rewrite string_of_list_ascii_of_string. }
  split.
  { clear Hdecode. induction binary as [|c s IH]; [reflexivity|].
    cbn [Auth.percent_all String.length].
    rewrite length_append, length_percent.
    assert (String.length (Auth.percent_all s) = (3 * String.length s)%nat) as ->.
    { apply IH. }
    lia. }
  split; [apply unescape_percent_all|].
  split; [exact Hdecode|].
  intros H. rewrite Hdecode, (utf8_valid_ascii binary H). reflexivity.
Qed.

(** *** More on the HTTP client *)

Section Api_more.
Import Js Api ApiMore.

Lemma api_call_fulfilled env adapter config w r :
  adapter (requestInterceptor config w) = Some r ->
  (200 <=? status r) && (status r <? 300) = true ->
  api_call env adapter config w = (w, Ok r).
Proof. intros Ha Hs. unfold api_call. now rewrite Ha, Hs. Qed.

Lemma api_call_other_status env adapter config w r :
  adapter (requestInterceptor config w) = Some r ->
  (200 <=? status r) && (status r <? 300) = false ->
  status r <> 401 ->
  api_call env adapter config w = (w, Throw (AxiosError "Request failed" (Some r))).
Proof.
  intros Ha Hs Hne. unfold api_call. rewrite Ha, Hs.
  unfold responseErrorInterceptor. simpl.
  destruct (Z.eqb_spec (status r) 401); [contradiction | reflexivity].
Qed.

Lemma api_call_no_response env adapter config w :
  adapter (requestInterceptor config w) = None ->
  api_call env adapter config w
  = (w, Throw (Error "Network error - please check your connection")).
Proof. intros Ha. unfold api_call. now rewrite Ha. Qed.

(** X10.  A call through the client fulfils exactly when a response with a
    2xx status arrives, and then with that response.  When no response
    arrives it rejects with the fixed network error, and on every status
    outside 2xx, 401 among them, it rejects with an error that carries the
    response.  The browser state is left untouched in all these cases but
    one: on a 401 the stored token is deleted, every other stored key is
    kept, and the location changes to /login in production only. *)
Theorem only_unauthorized_touches_browser
    (env : NodeEnv) (adapter : Request -> option Response) (config : Request)
    (w : Browser) :
  ((exists r, snd (api_call env adapter config w) = Ok r)
   <-> exists r, adapter (requestInterceptor config w) = Some r /\ 200 <= status r < 300)
  /\ (adapter (requestInterceptor config w) = None ->
      api_call env adapter config w
      = (w, Throw (Error "Network error - please check your connection")))
  /\ (forall r, adapter (requestInterceptor config w) = Some r ->
      (200 <= status r < 300 -> api_call env adapter config w = (w, Ok r))
      /\ (~ 200 <= status r < 300 ->
          exists message,
            snd (api_call env adapter config w) = Throw (AxiosError message (Some r)))
      /\ (~ 200 <= status r < 300 -> status r <> 401 ->
          fst (api_call env adapter config w) = w)
      /\ (status r = 401 ->
          let w' := fst (api_call env adapter config w) in
          localStorage w' = delete "authToken" (localStorage w)
          /\ (forall k, k <> "authToken" -> getItem k w' = getItem k w)
          /\ location_href w'
             = (if is_production env then "/login" else location_href w))).
Proof.
  assert (forall r, adapter (requestInterceptor config w) = Some r ->
                    200 <= status r < 300 -> api_call env adapter config w = (w, Ok r))
    as Hfulfil.
  { intros r Ha Hs. apply (api_call_fulfilled env adapter config w r Ha).
    apply andb_true_iff. split; [apply Z.leb_le | apply Z.ltb_lt]; lia. }
  assert (forall r, adapter (requestInterceptor config w) = Some r ->
                    ~ 200 <= status r < 300 ->
                    exists message,
                      snd (api_call env adapter config w)
                      = Throw (AxiosError message (Some r))) as Hreject.
  { intros r Ha Hs. destruct (Z.eq_dec (status r) 401) as [H401|Hne].
    - rewrite (api_call_unauthorized env adapter config w r Ha H401). cbn [snd]. eauto.
    - rewrite (api_call_other_status env adapter config w r Ha); [cbn [snd]; eauto | | exact Hne].
      apply andb_false_iff.
      destruct (Z.leb_spec 200 (status r)); [|now left].
      destruct (Z.ltb_spec (status r) 300); [lia | now right]. }
  split; [|split; [apply api_call_no_response|]].
  - split.
    + intros [r Hr].
      destruct (adapter (requestInterceptor config w)) as [r0|] eqn:Ha.
      * exists r0. split; [reflexivity|].
        destruct (Z_le_dec 200 (status r0)) as [H1|H1];
          [destruct (Z_lt_dec (status r0) 300) as [H2|H2]; [lia|] |];
          (destruct (Hreject r0 eq_refl) as [message Hm]; [lia | congruence]).
      * rewrite (api_call_no_response env adapter config w Ha) in Hr. discriminate.
    + intros (r & Ha & Hs). exists r. now rewrite (Hfulfil r Ha Hs).
  - intros r Ha. split; [now apply Hfulfil|]. split; [now apply Hreject|]. split.
    + intros Hs Hne.
      rewrite (api_call_other_status env adapter config w r Ha); [reflexivity | | exact Hne].
      apply andb_false_iff.
      destruct (Z.leb_spec 200 (status r)); [|now left].
      destruct (Z.ltb_spec (status r) 300); [lia | now right].
    + intros Hs w'. subst w'.
      rewrite (api_call_unauthorized env adapter config w r Ha Hs). cbn [fst].
      unfold getItem, removeItem, set_location.
      destruct (is_production env); cbn [localStorage location_href];
        (split; [reflexivity|]); (split; [|reflexivity]);
        intros k Hk; apply lookup_delete_ne; congruence.
Qed.

Lemma only_unauthorized_touches_browser_witness :
  fst (api_call production (fun _ => Some {| status := 503; data := JNull |})
         (request "GET" "/health" JUndefined) signed_in) = signed_in
  /\ (exists message,
        snd (api_call production unauthorized_server
               (request "GET" "/health" JUndefined) signed_in)
        = Throw (AxiosError message (Some {| status := 401; data := JNull |})))
  /\ getItem "user"
       (fst (api_call production unauthorized_server
               (request "GET" "/health" JUndefined) signed_in))
     = getItem "user" signed_in.
Proof.
  split; [|split].
  - destruct (only_unauthorized_touches_browser production
                (fun _ => Some {| status := 503; data := JNull |})
                (request "GET" "/health" JUndefined) signed_in) as (_ & _ & H).
    destruct (H {| status := 503; data := JNull |} eq_refl) as (_ & _ & Hother & _).
    apply Hother; cbn [status]; lia.
  - destruct (only_unauthorized_touches_browser production unauthorized_server
                (request "GET" "/health" JUndefined) signed_in) as (_ & _ & H).
    destruct (H {| status := 401; data := JNull |} eq_refl) as (_ & Hreject & _).
    apply Hreject. cbn [status]. lia.
  - destruct (only_unauthorized_touches_browser production unauthorized_server
                (request "GET" "/health" JUndefined) signed_in) as (_ & _ & H).
    destruct (H {| status := 401; data := JNull |} eq_refl) as (_ & _ & _ & H401).
    destruct (H401 eq_refl) as (_ & Hkeys & _).
    apply Hkeys. discriminate.
Defined.

(** X11.  The request interceptor sends the header [Bearer <token>] exactly
    when a non-empty token is stored, and otherwise leaves the request as it
    is; so after a call that received a 401, requests go out with whatever
    header their configuration had, without the token. *)
Theorem authorization_header_follows_storage
    (env : NodeEnv) (config : Request) (w : Browser) :
  (forall token, getItem "authToken" w = Some token -> token <> EmptyString ->
     Authorization (requestInterceptor config w) = Some ("Bearer " ++ token))
  /\ (getItem "authToken" w = None \/ getItem "authToken" w = Some EmptyString ->
      requestInterceptor config w = config)
  /\ method (requestInterceptor config w) = method config
  /\ url (requestInterceptor config w) = url config
  /\ body (requestInterceptor config w) = body config
  /\ (forall adapter config0 r,
        adapter (requestInterceptor config0 w) = Some r -> status r = 401 ->
        requestInterceptor config (fst (api_call env adapter config0 w)) = config).
Proof.
  unfold requestInterceptor.
  split.
  { intros token Ht Hne. rewrite Ht.
    destruct (String.eqb_spec token EmptyString); [contradiction | reflexivity]. }
  split.
  { intros [H|H]; rewrite H; reflexivity. }
  split; [|split; [|split]];
    try (destruct (getItem "authToken" w) as [token|]; [|reflexivity];
         destruct (negb (String.eqb token EmptyString)); reflexivity).
  intros adapter config0 r Ha Hs.
  assert (getItem "authToken" (fst (api_call env adapter config0 w)) = None) as ->;
    [|reflexivity].
  rewrite (api_call_unauthorized env adapter config0 w r Ha Hs). cbn [fst].
  destruct (is_production env); rewrite ?getItem_set_location; apply getItem_removeItem.
Qed.

Lemma truthy_or_else a b : truthy b = true -> truthy (or_else a b) = true.
Proof. intros H. unfold or_else. destruct (truthy a) eqn:E; [exact E | exact H]. Qed.

(** X12.  [getAllUsers] never rejects, and what it resolves with is never
    falsy: the empty array when the call fails or the response carries
    nothing truthy, the [data] member of the body when that is truthy, else
    the body. *)
Theorem getAllUsers_never_rejects
    (env : NodeEnv) (adapter : Request -> option Response) (w : Browser) :
  (exists v, snd (getAllUsers env adapter w) = Ok v /\ truthy v = true)
  /\ (forall e,
        snd (api_call env adapter (request "GET" "/users/all" JUndefined) w) = Throw e ->
        snd (getAllUsers env adapter w) = Ok (JArray []))
  /\ (forall r,
        snd (api_call env adapter (request "GET" "/users/all" JUndefined) w) = Ok r ->
        snd (getAllUsers env adapter w)
        = Ok (if truthy (getPropOpt (data r) "data") then getPropOpt (data r) "data"
              else if truthy (data r) then data r else JArray [])).
Proof.
  unfold getAllUsers.
  destruct (api_call env adapter (request "GET" "/users/all" JUndefined) w)
    as [w' [r|e]]; cbn [snd try_catch bind].
  - split; [|split].
    + eexists. split; [reflexivity|]. unfold unwrap_list. now apply truthy_or_else.
    + discriminate.
    + intros r' H. injection H as <-. unfold unwrap_list, or_else.
      destruct (truthy (getPropOpt (data r) "data")) eqn:E1; rewrite ?E1; [reflexivity|].
      destruct (truthy (data r)); reflexivity.
  - split; [|split].
    + eexists. split; reflexivity.
    + reflexivity.
    + discriminate.
Qed.

Section Counting.
Variable ToString : JsValue -> Exn string.
Variable characters : string -> list string.

Lemma array_length_nonneg v : 0 <= array_length v.
Proof. destruct v; simpl; lia. Qed.

Lemma count_user_grows env adapters n user total w w' total' :
  count_user ToString env adapters n user total w = (w', Ok total') ->
  total <= total'.
Proof.
  unfold count_user. destruct (events_url ToString user) as [u|e]; [|discriminate].
  destruct (api_call env (adapters n) (request "GET" u JUndefined) w) as [w1 [events|e]];
    intros H; injection H as _ <-.
  - pose proof (array_length_nonneg (unwrap_list events)). lia.
  - lia.
Qed.

Lemma count_users_grows env adapters userList : forall n total w w' total',
  count_users ToString env adapters n userList total w = (w', Ok total') ->
  total <= total'.
Proof.
  induction userList as [|user rest IH]; intros n total w w' total'; cbn [count_users].
  - intros H. injection H as _ <-. lia.
  - destruct (count_user ToString env adapters n user total w) as [w1 [t1|e]] eqn:E;
      [|discriminate].
    intros H. apply IH in H. apply count_user_grows in E. lia.
Qed.

(** X13.  [getTotalEventsCount] never rejects: it always resolves with an
    object [{ totalEvents: n }] where n is a non-negative integer, and n is
    0 when listing the users fails.  A user whose events call rejects is
    skipped: the running total is left as it was and the loop goes on. *)
Theorem getTotalEventsCount_never_rejects
    (env : NodeEnv) (adapters : nat -> Request -> option Response) (w : Browser) :
  (exists n, 0 <= n
             /\ snd (getTotalEventsCount ToString characters env adapters w)
                = Ok (totalEvents_object n))
  /\ (forall e,
        snd (api_call env (adapters 0%nat) (request "GET" "/users/all" JUndefined) w)
        = Throw e ->
        snd (getTotalEventsCount ToString characters env adapters w)
        = Ok (totalEvents_object 0))
  /\ (forall n user total w0 u e,
        events_url ToString user = Ok u ->
        snd (api_call env (adapters n) (request "GET" u JUndefined) w0) = Throw e ->
        snd (count_user ToString env adapters n user total w0) = Ok total).
Proof.
  split; [|split].
  - unfold getTotalEventsCount.
    destruct (api_call env (adapters 0%nat) _ w) as [w1 [users|e]];
      [|exists 0; split; [lia | reflexivity]].
    destruct (iterate characters (unwrap_list users)) as [userList|e];
      [|exists 0; split; [lia | reflexivity]].
    destruct (count_users ToString env adapters 1 userList 0 w1) as [w2 [total|e]] eqn:E;
      [|exists 0; split; [lia | reflexivity]].
    exists total. split; [|reflexivity]. now apply count_users_grows in E.
  - intros e H. unfold getTotalEventsCount.
    destruct (api_call env (adapters 0%nat) _ w) as [w1 r]. cbn [snd] in H. now rewrite H.
  - intros n user total w0 u e Hu H. unfold count_user. rewrite Hu.
    destruct (api_call env (adapters n) _ w0) as [w1 r]. cbn [snd] in H. now rewrite H.
Qed.

End Counting.

Section Bell_facts.
Variable ToNumber_nonprimitive : JsValue -> Exn JsNumber.

Abbreviation badge := (bell_badge ToNumber_nonprimitive).

Lemma Qltb_zero_false q : Qeqb q 0 = true -> Qltb 0 q = false.
Proof.
  intros H. apply Qeq_bool_iff in H. unfold Qltb.
  assert (Qle_bool q 0 = true) as -> by (apply Qle_bool_iff; rewrite H; apply Qle_refl).
  reflexivity.
Qed.

(** X14.  The bell draws no badge while the unread-count query has no data
    and for the value [getUnreadCount] resolves with when its call fails.
    For a numeric count q it draws no badge when q <= 0, the count itself
    when 0 < q <= 99, and [99+] when q > 99. *)
Theorem bell_badge_cases :
  badge JUndefined = Ok no_badge
  /\ (forall env adapter w e,
        snd (api_call env adapter
               (request "GET" "/notifications/unread-count" JUndefined) w) = Throw e ->
        exists v, snd (getUnreadCount env adapter w) = Ok v
                  /\ badge v = Ok no_badge)
  /\ (forall m q,
        m !! "unreadCount" = Some (JNumber (Fin q)) ->
        badge (JObject m)
        = Ok (if Qltb 0 q
              then if Qltb 99 q then badge_99_plus else badge_count (JNumber (Fin q))
              else no_badge)).
Proof.
  split; [reflexivity|]. split.
  - intros env adapter w e H. eexists. split.
    + unfold getUnreadCount.
      destruct (api_call env adapter _ w) as [w' r]. cbn [snd] in *. rewrite H.
      reflexivity.
    + reflexivity.
  - intros m q Hq. unfold bell_badge, bell_unreadCount, or_else.
    cbn [getPropOpt getProp]. rewrite Hq. unfold default, id.
    change (truthy (JNumber (Fin q))) with (negb (Qeqb q 0)).
    destruct (Qeqb q 0) eqn:E; cbn [negb].
    + rewrite (Qltb_zero_false q E). reflexivity.
    + unfold greater. cbn [Auth.ToNumber bind number_lt].
      change (inject_Z 0) with 0%Q. change (inject_Z 99) with 99%Q.
      destruct (Qltb 0 q); reflexivity.
Qed.

End Bell_facts.

End Api_more.

(** *** More on the route guard and sign-out *)

Section Route_more.
Import Js Api Route.
Variable atob : string -> Exn string.
Variable decodeURIComponent : string -> Exn string.
Variable JSON_parse : string -> Exn JsValue.
Variable ToNumber_nonprimitive : JsValue -> Exn JsNumber.

Abbreviation guard' :=
  (PrivateRoute atob decodeURIComponent JSON_parse ToNumber_nonprimitive).
Abbreviation outcomes' :=
  (route_outcomes atob decodeURIComponent JSON_parse ToNumber_nonprimitive).
Abbreviation expired'' :=
  (Auth.isTokenExpired atob decodeURIComponent JSON_parse ToNumber_nonprimitive).

Lemma getItem_removeItem_ne k k' w : k <> k' -> getItem k (removeItem k' w) = getItem k w.
Proof. intros H. unfold getItem, removeItem. simpl. apply lookup_delete_ne. congruence. Qed.

Lemma cleared_keeps_others k w :
  k <> "authToken" -> k <> "user" ->
  getItem k (removeItem "user" (removeItem "authToken" w)) = getItem k w.
Proof. intros H1 H2. now rewrite !getItem_removeItem_ne. Qed.

Lemma removeItem_absent k w : getItem k w = None -> localStorage (removeItem k w) = localStorage w.
Proof. intros H. unfold removeItem. simpl. now apply delete_id. Qed.

(** The three outcomes of a route check. *)
Lemma guard_outcomes now w :
  guard' now w = (removeItem "user" (removeItem "authToken" w), Ok (Navigate "/login"))
  \/ guard' now w = (w, Ok Children)
  \/ exists e, guard' now w = (w, Throw e).
Proof.
  unfold PrivateRoute, redirect_to_login.
  destruct (getItem "authToken" w) as [token|]; [|now left].
  destruct (String.eqb token EmptyString); [now left|].
  destruct (expired'' now token) as [[|]|e]; [now left | right; now left | right; right; eauto].
Qed.

(** X15.  Signing out deletes from the storage exactly the token and the
    user: both are gone and every other key (the saved settings, for one) is
    kept; and every route check that follows, whatever calls, saves and
    further sign-outs come in between, renders the redirect to /login.  The
    redirect branch of the route guard deletes the same two keys and nothing
    else: after a check that redirected the token and the user are gone, a
    check that did not redirect leaves the storage as it was, and no check
    touches another key. *)
Theorem sign_out_clears_session (env : NodeEnv) (w : Browser) (evs : list Event) :
  getItem "authToken" (handleLogout w) = None
  /\ getItem "user" (handleLogout w) = None
  /\ (forall k, k <> "authToken" -> k <> "user" ->
        getItem k (handleLogout w) = getItem k w)
  /\ Forall (fun out => out = Ok (Navigate "/login")) (outcomes' env evs (handleLogout w))
  /\ (forall now, snd (guard' now w) = Ok (Navigate "/login") ->
        getItem "authToken" (fst (guard' now w)) = None
        /\ getItem "user" (fst (guard' now w)) = None)
  /\ (forall now, snd (guard' now w) <> Ok (Navigate "/login") -> fst (guard' now w) = w)
  /\ (forall now k, k <> "authToken" -> k <> "user" ->
        getItem k (fst (guard' now w)) = getItem k w).
Proof.
  unfold handleLogout.
  assert (getItem "authToken" (removeItem "user" (removeItem "authToken" w)) = None) as Hgone
    by apply getItem_removeItem_None, getItem_removeItem.
  split; [exact Hgone|].
  split; [apply getItem_removeItem|].
  split; [intros k H1 H2; now apply cleared_keeps_others|].
  split; [now apply outcomes_without_token|].
  split; [|split].
  - intros now. destruct (guard_outcomes now w) as [H | [H | [e H]]]; rewrite H;
      cbn [fst snd]; [|discriminate|discriminate].
    intros _. split; [exact Hgone | apply getItem_removeItem].
  - intros now. destruct (guard_outcomes now w) as [H | [H | [e H]]]; rewrite H;
      cbn [fst snd]; [|reflexivity|reflexivity].
    intros Hne. now contradiction Hne.
  - intros now k H1 H2.
    destruct (guard_outcomes now w) as [H | [H | [e H]]]; rewrite H; cbn [fst];
      [now apply cleared_keeps_others | reflexivity | reflexivity].
Qed.

Lemma browser_eq w1 w2 :
  localStorage w1 = localStorage w2 -> location_href w1 = location_href w2 -> w1 = w2.
Proof. destruct w1, w2. simpl. now intros -> ->. Qed.

Lemma redirect_twice w :
  removeItem "user" (removeItem "authToken" (removeItem "user" (removeItem "authToken" w)))
  = removeItem "user" (removeItem "authToken" w).
Proof.
  apply browser_eq; [|reflexivity]. unfold removeItem. cbn [localStorage].
  apply map_eq. intros k. rewrite !lookup_delete.
  repeat case_decide; reflexivity.
Qed.

(** X16.  A route check is idempotent: checking again at once, on the
    storage the first check left, gives the same outcome and leaves the same
    storage.  And a redirect is final: after a check that redirected, every
    later check at any clock reading redirects too. *)
Theorem route_check_idempotent (now now' : Z) (w : Browser) :
  guard' now (fst (guard' now w)) = guard' now w
  /\ (snd (guard' now w) = Ok (Navigate "/login") ->
      snd (guard' now' (fst (guard' now w))) = Ok (Navigate "/login")).
Proof.
  assert (forall w0 t, guard' t (removeItem "user" (removeItem "authToken" w0))
                       = (removeItem "user" (removeItem "authToken" w0),
                          Ok (Navigate "/login"))) as Hcleared.
  { intros w0 t.
    rewrite guard_without_token
      by apply getItem_removeItem_None, getItem_removeItem.
    now rewrite redirect_twice. }
  destruct (guard_outcomes now w) as [H | [H | [e H]]]; rewrite H; cbn [fst snd].
  - split; [apply Hcleared | intros _; now rewrite Hcleared].
  - split; [exact H | discriminate].
  - split; [exact H | discriminate].
Qed.

End Route_more.

Lemma route_check_idempotent_witness :
  snd (Route.PrivateRoute Platform.atob Platform.decodeURIComponent
         Platform.JSON_parse Platform.ToNumber_nonprimitive 1600000000000
         (fst (Route.PrivateRoute Platform.atob Platform.decodeURIComponent
                 Platform.JSON_parse Platform.ToNumber_nonprimitive 1700000001000
                 signed_in)))
  = Js.Ok (Route.Navigate "/login").
Proof.
  apply (route_check_idempotent Platform.atob Platform.decodeURIComponent
           Platform.JSON_parse Platform.ToNumber_nonprimitive
           1700000001000 1600000000000 signed_in).
  vm_compute. reflexivity.
Defined.

(** *** More on the settings *)

Section Settings_more.
Import Js Settings SettingsPage.

Lemma fields_insert_other p keys k v settings :
  k ∉ keys -> fields p keys settings -> fields p keys (<[ k := v ]> settings).
Proof.
  intros Hk H. unfold fields in *. rewrite List.Forall_forall in *.
  intros k' Hin. destruct (H k' Hin) as (v' & Hv & Hp).
  exists v'. split; [|exact Hp].
  rewrite lookup_insert_ne; [exact Hv|].
  intros ->. apply Hk. now apply list_elem_of_In.
Qed.

Lemma fields_insert_same p keys k v settings :
  p v = true -> fields p keys settings -> fields p keys (<[ k := v ]> settings).
Proof.
  intros Hv H. unfold fields in *. rewrite List.Forall_forall in *.
  intros k' Hin. destruct (decide (k = k')) as [->|Hne].
  - exists v. split; [apply lookup_insert_eq | exact Hv].
  - destruct (H k' Hin) as (v' & Hv' & Hp). exists v'.
    split; [now rewrite lookup_insert_ne | exact Hp].
Qed.

Lemma dom_insert_present (k : string) (v : JsValue) (settings : gmap string JsValue) :
  k ∈ dom settings -> dom (<[ k := v ]> settings) = dom settings.
Proof.
  intros H. rewrite dom_insert_L. apply set_eq. intros x.
  rewrite elem_of_union, elem_of_singleton. split; [intros [->|Hx]; assumption | auto].
Qed.

Lemma well_shaped_initial env : well_shaped (initialSettings env).
Proof.
  unfold well_shaped, initialSettings. split.
  - rewrite !dom_insert_L, dom_empty_L. vm_compute. reflexivity.
  - unfold fields, text_keys, number_keys, flag_keys.
    repeat split; repeat constructor; eexists; (split; [reflexivity | reflexivity]).
Qed.

Lemma well_shaped_dom_elem settings k :
  well_shaped settings -> In k (text_keys ++ number_keys ++ flag_keys) ->
  k ∈ dom settings.
Proof.
  intros (Hd & _) Hin. rewrite Hd. apply elem_of_list_to_set.
  now apply list_elem_of_In.
Qed.

Section Form.
Variable parseInt : string -> JsNumber.

Lemma well_shaped_edit settings e :
  well_shaped settings -> well_shaped (apply_edit parseInt settings e).
Proof.
  intros Hw. destruct e; cbn [apply_edit];
    try (apply well_shaped_initial);
    unfold changeText, changeNumber, toggle;
    destruct Hw as (Hd & Ht & Hn & Hf);
    (split; [rewrite dom_insert_present; [exact Hd|];
             rewrite Hd; apply elem_of_list_to_set; apply list_elem_of_In;
             cbn; tauto|]);
    (split; [|split]);
    first [ apply fields_insert_same; [reflexivity | assumption]
          | apply fields_insert_other; [|assumption];
            rewrite list_elem_of_In; cbn; intuition discriminate ].
Qed.

(** X17.  Every edit the page offers (typing in the four inputs, the four
    toggles, the reset) keeps the shape of the settings: the same eight
    keys, the API URL a string, the three counts numbers, the four flags
    booleans, whatever is typed.  The reset gives the defaults, with the
    literal localhost URL. *)
Theorem edits_keep_shape (env : option string) (edits : list Edit) :
  well_shaped (apply_edits parseInt (initialSettings env) edits)
  /\ apply_edits parseInt (initialSettings env) (edits ++ [reset])
     = initialSettings None.
Proof.
  split.
  - unfold apply_edits. generalize (well_shaped_initial env).
    generalize (initialSettings env) as s.
    induction edits as [|e edits IH]; intros s Hs; [exact Hs|].
    cbn [foldl]. apply IH. now apply well_shaped_edit.
  - unfold apply_edits. rewrite foldl_app. reflexivity.
Qed.

End Form.

Lemma round_trip_lookup settings k :
  round_trip settings !! k
  = match settings !! k with
    | Some v => match toJson v with
                | Some j => Some (ofJson j)
                | None => Some v
                end
    | None => None
    end.
Proof.
  unfold round_trip, handleExportSettings, JSON_stringify, handleImportSettings.
  simpl. unfold spread. simpl.
  rewrite lookup_union, lookup_fmap, lookup_omap.
  destruct (settings !! k) as [v|]; [|reflexivity].
  cbn. destruct (toJson v); reflexivity.
Qed.

Lemma round_trip_number settings k n :
  settings !! k = Some (JNumber n) ->
  round_trip settings !! k
  = Some (match n with Fin q => JNumber (Fin q) | _ => JNull end).
Proof.
  intros H. rewrite round_trip_lookup, H. destruct n; reflexivity.
Qed.

(** X18.  For settings of the page's shape, one export followed by the
    import of the exported file gives the same settings back exactly when
    the three numeric fields are finite; a numeric field that is NaN or
    infinite comes back as null, and every other field comes back as it
    was. *)
Theorem shaped_round_trip_iff_finite (settings : gmap string JsValue) :
  well_shaped settings ->
  (round_trip settings = settings <-> fields is_finite number_keys settings)
  /\ (forall k v, settings !! k = Some v -> is_number v = false ->
        round_trip settings !! k = Some v)
  /\ (forall k n, settings !! k = Some (JNumber n) -> is_finite (JNumber n) = false ->
        round_trip settings !! k = Some JNull).
Proof.
  intros (Hd & Ht & Hn & Hf).
  assert (forall k v, settings !! k = Some v -> is_number v = false ->
                      round_trip settings !! k = Some v) as Hother.
  { intros k v Hk Hv. rewrite round_trip_lookup, Hk.
    assert (k ∈ dom settings) as Hin by (apply elem_of_dom; eauto).
    rewrite Hd in Hin. apply elem_of_list_to_set in Hin.
    apply list_elem_of_In in Hin. apply in_app_or in Hin as [Hin|Hin].
    - unfold fields in Ht. rewrite List.Forall_forall in Ht.
      destruct (Ht k Hin) as (v' & Hv' & Hs). rewrite Hk in Hv'. injection Hv' as <-.
      destruct v; try discriminate. reflexivity.
    - apply in_app_or in Hin as [Hin|Hin].
      + unfold fields in Hn. rewrite List.Forall_forall in Hn.
        destruct (Hn k Hin) as (v' & Hv' & Hs). rewrite Hk in Hv'. injection Hv' as <-.
        congruence.
      + unfold fields in Hf. rewrite List.Forall_forall in Hf.
        destruct (Hf k Hin) as (v' & Hv' & Hs). rewrite Hk in Hv'. injection Hv' as <-.
        destruct v; try discriminate. reflexivity. }
  split; [|split; [exact Hother|]].
  - split.
    + intros Heq. unfold fields in *. rewrite List.Forall_forall in *.
      intros k Hin. destruct (Hn k Hin) as (v & Hv & Hnum). exists v. split; [exact Hv|].
      destruct v as [| | |n| | |]; try discriminate.
      pose proof (round_trip_number settings k n Hv) as Hr. rewrite Heq, Hv in Hr.
      destruct n; try discriminate; reflexivity.
    + intros Hfin. apply map_eq. intros k.
      destruct (settings !! k) as [v|] eqn:Hk.
      * destruct (is_number v) eqn:Hv; [|now apply Hother].
        destruct v as [| | |n| | |]; try discriminate.
        rewrite (round_trip_number settings k n Hk).
        assert (k ∈ dom settings) as Hin by (apply elem_of_dom; eauto).
        rewrite Hd in Hin. apply elem_of_list_to_set in Hin.
        apply list_elem_of_In in Hin. apply in_app_or in Hin as [Hin|Hin].
        { unfold fields in Ht. rewrite List.Forall_forall in Ht.
          destruct (Ht k Hin) as (v' & Hv' & Hs). rewrite Hk in Hv'.
          injection Hv' as <-. discriminate. }
        apply in_app_or in Hin as [Hin|Hin].
        { unfold fields in Hfin. rewrite List.Forall_forall in Hfin.
          destruct (Hfin k Hin) as (v' & Hv' & Hs). rewrite Hk in Hv'.
          injection Hv' as <-. destruct n; try discriminate. reflexivity. }
        { unfold fields in Hf. rewrite List.Forall_forall in Hf.
          destruct (Hf k Hin) as (v' & Hv' & Hs). rewrite Hk in Hv'.
          injection Hv' as <-. discriminate. }
      * rewrite round_trip_lookup, Hk. reflexivity.
  - intros k n Hk Hfin. rewrite (round_trip_number settings k n Hk).
    destruct n; try discriminate; reflexivity.
Qed.

(** X19.  Importing merges the file over the current settings: a key of
    the file takes the file's value, a key the file does not mention keeps
    its current value, and no key is lost.  Text that is not JSON changes
    nothing and raises the alert; no file changes nothing; and a file
    holding null, a boolean or a number is accepted without alert and
    changes nothing. *)
Theorem import_merges_file (settings : gmap string JsValue) :
  handleImportSettings settings None = (settings, None)
  /\ (forall text,
        handleImportSettings settings (Some (other_text text))
        = (settings, Some "Invalid settings file"))
  /\ (forall m k,
        snd (handleImportSettings settings (Some (json_text (jobject m)))) = None
        /\ fst (handleImportSettings settings (Some (json_text (jobject m)))) !! k
           = match m !! k with
             | Some j => Some (ofJson j)
             | None => settings !! k
             end)
  /\ (forall m,
        dom settings ⊆ dom (fst (handleImportSettings settings
                                   (Some (json_text (jobject m))))))
  /\ (forall b q,
        handleImportSettings settings (Some (json_text jnull)) = (settings, None)
        /\ handleImportSettings settings (Some (json_text (jbool b))) = (settings, None)
        /\ handleImportSettings settings (Some (json_text (jnumber q))) = (settings, None)).
Proof.
  assert (forall s : gmap string JsValue, (∅ : gmap string JsValue) ∪ s = s) as Hempty
    by (intros s; apply (left_id_L ∅ (∪))).
  split; [reflexivity|]. split; [reflexivity|]. split; [|split].
  - intros m k. split; [reflexivity|].
    unfold handleImportSettings. cbn [JSON_parse ofJson fst spread own_properties].
    unfold spread. cbn [own_properties].
    rewrite lookup_union, lookup_fmap. destruct (m !! k); cbn.
    + destruct (settings !! k); reflexivity.
    + destruct (settings !! k); reflexivity.
  - intros m. unfold handleImportSettings. cbn [JSON_parse ofJson fst].
    unfold spread. cbn [own_properties]. rewrite dom_union_L.
    apply union_subseteq_r.
  - intros b q. unfold handleImportSettings, spread.
    cbn [JSON_parse ofJson own_properties]. now rewrite Hempty.
Qed.

Lemma Json_size_member (m : gmap string Json) k j :
  m !! k = Some j -> (Json_size j < Json_size (jobject m))%nat.
Proof.
  cbn [Json_size]. revert k j. induction m as [|i x m Hi IH] using map_ind;
    intros k j Hk.
  - rewrite lookup_empty in Hk. discriminate.
  - rewrite map_fold_insert_L; [| intros; lia | exact Hi].
    destruct (decide (i = k)) as [->|Hne].
    + rewrite lookup_insert_eq in Hk. injection Hk as ->. lia.
    + rewrite lookup_insert_ne in Hk by exact Hne. specialize (IH k j Hk). lia.
Qed.

Lemma Json_size_element (l : list Json) j :
  In j l -> (Json_size j < Json_size (jarray l))%nat.
Proof.
  cbn [Json_size]. induction l as [|x l IH]; intros Hin; [contradiction|].
  cbn [foldr]. destruct Hin as [->|Hin]; [lia|]. specialize (IH Hin). lia.
Qed.

(** Writing the value parsed from a document gives the document back. *)
Lemma toJson_ofJson_size n : forall j, (Json_size j <= n)%nat -> toJson (ofJson j) = Some j.
Proof.
  induction n as [|n IH]; intros j Hj.
  - destruct j; cbn [Json_size] in Hj; lia.
  - destruct j as [|b|q|s|l|m]; try reflexivity.
    + cbn [ofJson toJson]. f_equal. f_equal. rewrite map_map.
      rewrite <- (map_id l) at 2. apply map_ext_in. intros x Hx.
      rewrite IH; [reflexivity|].
      apply Json_size_element in Hx. lia.
    + cbn [ofJson toJson]. f_equal. f_equal. apply map_eq. intros k.
      rewrite lookup_omap, lookup_fmap.
      destruct (m !! k) as [x|] eqn:Hk; [|reflexivity].
      cbn. apply IH. apply Json_size_member in Hk. lia.
Qed.

Lemma toJson_ofJson j : toJson (ofJson j) = Some j.
Proof. apply (toJson_ofJson_size (Json_size j)). lia. Qed.

(** X20.  Whatever the settings hold, one export and import settles them:
    the result of a round trip is given back unchanged by the next round
    trip. *)
Theorem round_trip_settles (settings : gmap string JsValue) :
  round_trip (round_trip settings) = round_trip settings.
Proof.
  apply map_eq. intros k.
  rewrite (round_trip_lookup (round_trip settings) k), (round_trip_lookup settings k).
  destruct (settings !! k) as [v|]; [|reflexivity].
  destruct (toJson v) as [j|] eqn:Hv.
  - now rewrite toJson_ofJson.
  - now rewrite Hv.
Qed.

End Settings_more.

Lemma shaped_round_trip_iff_finite_witness :
  SettingsPage.round_trip (Settings.initialSettings None) = Settings.initialSettings None
  /\ SettingsPage.round_trip cleared_interval !! "refreshInterval" = Some Js.JNull.
Proof.
  split.
  - apply (shaped_round_trip_iff_finite (Settings.initialSettings None)
             (well_shaped_initial None)).
    repeat constructor; eexists; (split; [reflexivity | reflexivity]).
  - destruct (shaped_round_trip_iff_finite cleared_interval
                (well_shaped_edit Platform.parseInt (Settings.initialSettings None)
                   (SettingsPage.edit_refreshInterval EmptyString)
                   (well_shaped_initial None))) as (_ & _ & Hnull).
    apply (Hnull "refreshInterval" Js.NaN); reflexivity.
Defined.

(** *** The charts of the Analytics page *)

Section Charts_more.
Import Js Analytics AnalyticsCharts.

Lemma foldl_bar_events bars a :
  foldl (fun sum user => sum + bar_events user) a bars = a + sum (map bar_events bars).
Proof.
  revert a. induction bars as [|bar bars IH]; intros a; simpl.
  - unfold sum. simpl. lia.
  - rewrite IH. unfold sum. simpl. lia.
Qed.

Lemma eventsByUser_events analyticsData :
  sum (map bar_events (eventsByUser analyticsData)) = totalInRange analyticsData.
Proof.
  unfold totalInRange, eventsByUser. rewrite map_map. reflexivity.
Qed.

Lemma activity_row userData row :
  activity userData = Ok row ->
  recentEvents row = Z.of_nat (length (eventsInRange userData))
  /\ (lastActivity row = None <-> recentEvents row = 0).
Proof.
  unfold activity. destruct (ApiMore.getMember (stats userData) "totalEvents"); [|discriminate].
  cbn [bind]. intros [= <-]. cbn [recentEvents lastActivity]. split; [reflexivity|].
  destruct (eventsInRange userData); simpl; split; intros H; try reflexivity;
    try discriminate; lia.
Qed.

Lemma mapM_activity analyticsData : forall summary,
  mapM activity analyticsData = Ok summary ->
  map recentEvents summary
  = map (fun userData => Z.of_nat (length (eventsInRange userData))) analyticsData
  /\ Forall (fun row => lastActivity row = None <-> recentEvents row = 0) summary.
Proof.
  induction analyticsData as [|userData analyticsData IH]; intros summary; cbn [mapM].
  - intros [= <-]. split; [reflexivity | constructor].
  - destruct (activity userData) as [row|] eqn:Erow; [|discriminate]. cbn [bind].
    destruct (mapM activity analyticsData) as [rows|]; [|discriminate]. cbn [bind].
    intros [= <-]. destruct (IH rows eq_refl) as [IH1 IH2].
    destruct (activity_row _ _ Erow) as [H1 H2].
    split; [cbn [map]; now rewrite H1, IH1 | now constructor].
Qed.

Lemma active_rows rows :
  length (List.filter (fun user => recentEvents user >? 0) rows)
  = length (List.filter (fun n => n >? 0) (map recentEvents rows)).
Proof.
  induction rows as [|row rows IH]; [reflexivity|].
  cbn [List.filter map]. destruct (recentEvents row >? 0); simpl; now rewrite IH.
Qed.

Lemma positive_entries (l : list Z) :
  Forall (fun n => 0 <= n) l ->
  Z.of_nat (length (List.filter (fun n => n >? 0) l)) <= sum l
  /\ (Z.of_nat (length (List.filter (fun n => n >? 0) l)) = 0 <-> sum l = 0)
  /\ 0 <= sum l.
Proof.
  induction 1 as [|n l Hn _ IH]; [unfold sum; simpl; lia|].
  cbn [List.filter]. unfold sum in *. cbn [foldr].
  destruct (Z.gtb_spec n 0); cbn [length]; lia.
Qed.

Lemma lengths_nonneg analyticsData :
  Forall (fun n => 0 <= n)
         (map (fun userData => Z.of_nat (length (eventsInRange userData))) analyticsData).
Proof. induction analyticsData; constructor; [lia | assumption]. Qed.

(** X21.  Whenever the memo of the Analytics page is computed, the Total
    Events card shows the number of events in range over all users, the
    Active Users card shows at most that number and at most the number of
    users, the one is zero exactly when the other is, and a row of the
    activity summary has no last activity exactly when it has no recent
    event. *)
Theorem stat_cards_agree (Date_parse : string -> option Z) (LocalTime UTC : Z -> Z)
    (analyticsData : list UserAnalyticsData) (dateRange : DateRange) (p : ProcessedData) :
  processedData Date_parse LocalTime UTC (Some analyticsData) dateRange = Some (Ok (Some p)) ->
  totalEvents (Some p) = totalInRange analyticsData
  /\ 0 <= activeUsers (Some p) <= totalEvents (Some p)
  /\ activeUsers (Some p) <= Z.of_nat (length analyticsData)
  /\ (activeUsers (Some p) = 0 <-> totalEvents (Some p) = 0)
  /\ Forall (fun row => lastActivity row = None <-> recentEvents row = 0)
            (userActivitySummary p).
Proof.
  unfold processedData.
  destruct (eventsOverTime Date_parse LocalTime UTC analyticsData dateRange)
    as [[overTime|]|]; [|discriminate|discriminate].
  cbn [bind]. destruct (mapM activity analyticsData) as [summary|] eqn:Esum; [|discriminate].
  cbn [bind]. intros [= <-].
  destruct (mapM_activity _ _ Esum) as [Hrecent Hlast].
  unfold totalEvents, activeUsers.
  cbn [chart_eventsByUser userActivitySummary].
  rewrite foldl_bar_events, eventsByUser_events, active_rows, Hrecent.
  destruct (positive_entries _ (lengths_nonneg analyticsData)) as (Hle & Hzero & Hpos).
  fold (totalInRange analyticsData) in Hle, Hzero, Hpos.
  assert (length (List.filter (fun n => n >? 0)
                    (map (fun userData => Z.of_nat (length (eventsInRange userData)))
                         analyticsData))
          <= length analyticsData)%nat as Hlen.
  { etransitivity; [apply List.filter_length_le|]. now rewrite length_map. }
  repeat split; try lia; try exact Hlast.
Qed.

Lemma sum_counts_insert counts name :
  sum_counts (<[ name := default 0 (counts !! name) + 1 ]> counts) = sum_counts counts + 1.
Proof.
  unfold sum_counts. destruct (counts !! name) as [n|] eqn:E; cbn [from_option]; unfold Datatypes.id.
  - rewrite <- insert_delete_eq.
    rewrite map_fold_insert_L; [| intros; lia | apply lookup_delete_eq].
    rewrite (map_fold_delete_L _ _ name n counts); [cbn beta; lia | intros; lia | exact E].
  - rewrite map_fold_insert_L; [cbn beta; lia | intros; lia | exact E].
Qed.

Lemma tally_events events : forall counts f,
  Forall (fun event => is_inherited (eventName event) = false) events ->
  (forall name, 0 <= f name) ->
  counts_of counts f ->
  exists counts',
    foldl tally (Some counts) events = Some counts'
    /\ counts_of counts' (fun name => f name + Z.of_nat (length (List.filter (named name) events)))
    /\ sum_counts counts' = sum_counts counts + Z.of_nat (length events).
Proof.
  induction events as [|event events IH]; intros counts f Hnames Hf Hcounts.
  - exists counts. split; [reflexivity|]. split; [|simpl; lia].
    intros name. cbn [List.filter length]. rewrite Z.add_0_r. apply Hcounts.
  - apply List.Forall_cons_iff in Hnames as [Hname Hnames].
    cbn [foldl]. unfold tally at 2. rewrite Hname.
    set (f' := fun name => f name + (if named name event then 1 else 0)).
    destruct (IH (<[ eventName event := default 0 (counts !! eventName event) + 1 ]> counts)
                 f' Hnames) as (counts' & Hfold & Hc & Hs).
    + intros name. unfold f'. specialize (Hf name). destruct (named name event); lia.
    + intros name. unfold f', named. specialize (Hcounts name). specialize (Hf name).
      destruct (String.eqb_spec (eventName event) name) as [->|Hne].
      * rewrite lookup_insert_eq, Hcounts.
        destruct (Z.eqb_spec (f name) 0) as [->|H0]; cbn [from_option]; unfold Datatypes.id.
        -- reflexivity.
        -- destruct (Z.eqb_spec (f name + 1) 0); [lia | reflexivity].
      * rewrite lookup_insert_ne by exact Hne. rewrite Z.add_0_r. exact Hcounts.
    + exists counts'. split; [exact Hfold|]. split.
      * intros name. specialize (Hc name). unfold f' in Hc.
        cbn [List.filter]. destruct (named name event); cbn [length];
          [replace (f name + Z.of_nat (S (length (List.filter (named name) events))))
             with (f name + 1 + Z.of_nat (length (List.filter (named name) events))) by lia
          | rewrite Z.add_0_r in Hc]; exact Hc.
      * rewrite Hs, sum_counts_insert. cbn [length]. lia.
Qed.

Lemma tally_users analyticsData : forall counts f,
  Forall (fun userData =>
            Forall (fun event => is_inherited (eventName event) = false)
                   (eventsInRange userData)) analyticsData ->
  (forall name, 0 <= f name) ->
  counts_of counts f ->
  exists counts',
    foldl (fun eventsByType userData => foldl tally eventsByType (eventsInRange userData))
          (Some counts) analyticsData = Some counts'
    /\ counts_of counts' (fun name => f name + count_name name analyticsData)
    /\ sum_counts counts' = sum_counts counts + totalInRange analyticsData.
Proof.
  induction analyticsData as [|userData analyticsData IH]; intros counts f Hnames Hf Hcounts.
  - exists counts. split; [reflexivity|]. unfold count_name, totalInRange, sum. simpl.
    split; [|lia]. intros name. rewrite Z.add_0_r. apply Hcounts.
  - apply List.Forall_cons_iff in Hnames as [Hname Hnames].
    destruct (tally_events _ counts f Hname Hf Hcounts) as (counts1 & Hfold1 & Hc1 & Hs1).
    cbn [foldl]. rewrite Hfold1.
    destruct (IH counts1
                 (fun name => f name
                              + Z.of_nat (length (List.filter (named name)
                                                              (eventsInRange userData))))
                 Hnames) as (counts' & Hfold & Hc & Hs).
    + intros name. specialize (Hf name). simpl. lia.
    + exact Hc1.
    + exists counts'. split; [exact Hfold|]. split.
      * intros name. specialize (Hc name). cbn beta in Hc.
        unfold count_name, sum in *. cbn [map foldr]. fold (named name).
        rewrite Z.add_assoc. exact Hc.
      * rewrite Hs, Hs1. unfold totalInRange, sum. cbn [map foldr]. lia.
Qed.

(** X22.  When no event in range is named like a property every object
    inherits, the events-by-type table holds exactly the names that occur,
    each with the number of events in range of that name over all users,
    and its counts add up to the number of events in range: the pie chart
    and the Total Events card agree. *)
Theorem eventsByType_counts (analyticsData : list UserAnalyticsData) :
  Forall (fun userData =>
            Forall (fun event => is_inherited (eventName event) = false)
                   (eventsInRange userData)) analyticsData ->
  exists counts,
    eventsByType analyticsData = Some counts
    /\ (forall name,
          counts !! name = if count_name name analyticsData =? 0 then None
                           else Some (count_name name analyticsData))
    /\ sum_counts counts = totalInRange analyticsData.
Proof.
  intros Hnames.
  destruct (tally_users analyticsData ∅ (fun _ => 0) Hnames) as (counts & Hfold & Hc & Hs).
  - intros _. lia.
  - intros name. apply lookup_empty.
  - exists counts. split; [exact Hfold|]. split.
    + intros name. apply (Hc name).
    + rewrite Hs. unfold sum_counts. rewrite map_fold_empty. lia.
Qed.

End Charts_more.

(** The analytics of two users, one without events in range. *)
Lemma stat_cards_agree_witness :
  let data :=
    [Analytics.userAnalytics (Platform.Date_parse ist) first_days_of_2024
       (sample_user "ann") (Js.Ok (Js.JObject ∅, sample_timeline));
     Analytics.userAnalytics (Platform.Date_parse ist) first_days_of_2024
       (sample_user "bob") (Js.Throw Js.TypeError)] in
  exists p,
    AnalyticsCharts.processedData (Platform.Date_parse ist) (Platform.LocalTime india)
      (Platform.UTC india) (Some data) first_days_of_2024 = Some (Js.Ok (Some p))
    /\ AnalyticsCharts.totalEvents (Some p) = Analytics.totalInRange data
    /\ 0 <= AnalyticsCharts.activeUsers (Some p) <= AnalyticsCharts.totalEvents (Some p).
Proof.
  intros data.
  destruct (AnalyticsCharts.processedData (Platform.Date_parse ist)
              (Platform.LocalTime india) (Platform.UTC india) (Some data)
              first_days_of_2024) as [[[p|]|e]|] eqn:E.
  - exists p. split; [reflexivity|].
    destruct (stat_cards_agree _ _ _ _ _ _ E) as (H1 & H2 & _). split; assumption.
  - exfalso. vm_compute in E. discriminate E.
  - exfalso. vm_compute in E. discriminate E.
  - exfalso. vm_compute in E. discriminate E.
Defined.

Lemma eventsByType_counts_witness :
  exists counts,
    AnalyticsCharts.eventsByType sample_analytics = Some counts
    /\ counts !! "UserUpdated" = Some 5
    /\ AnalyticsCharts.sum_counts counts = 5.
Proof.
  destruct (eventsByType_counts sample_analytics) as (counts & H & Hc & Hs).
  - apply (bool_decide_unpack _). vm_compute. exact I.
  - exists counts. split; [exact H|]. split.
    + rewrite (Hc "UserUpdated"). reflexivity.
    + rewrite Hs. reflexivity.
Defined.

(** *** The list of the Event Timeline page *)

Section Sorting.
Import EventTimelinePage.
Context {A : Type}.
Variable before : A -> A -> bool.
Variable key : A -> Z.
Variable valid : A -> Prop.
Hypothesis before_key :
  forall a b, valid a -> valid b -> before a b = (key b <=? key a).

Lemma insert_sorted_perm x l : insert_sorted before x l ≡ₚ x :: l.
Proof.
  induction l as [|y l IH]; [reflexivity|]. cbn [insert_sorted].
  destruct (before y x); [|reflexivity].
  rewrite IH. apply perm_swap.
Qed.

Lemma insert_sorted_valid x l :
  valid x -> Forall valid l -> Forall valid (insert_sorted before x l).
Proof.
  intros Hx Hl. rewrite insert_sorted_perm. now constructor.
Qed.

Lemma insert_sorted_sorted x l :
  valid x -> Forall valid l ->
  StronglySorted (fun a b => key b <= key a) l ->
  StronglySorted (fun a b => key b <= key a) (insert_sorted before x l).
Proof.
  intros Hx Hl Hs. induction Hs as [|y l Hs IH Hy]; cbn [insert_sorted].
  - repeat constructor.
  - apply List.Forall_cons_iff in Hl as [Hvy Hl].
    rewrite (before_key _ _ Hvy Hx).
    destruct (Z.leb_spec (key x) (key y)) as [Hle|Hlt].
    + constructor; [now apply IH|].
      rewrite insert_sorted_perm. now constructor.
    + constructor; [now constructor|].
      constructor; [lia|].
      eapply Forall_impl; [exact Hy|]. intros z Hz. simpl in Hz. lia.
Qed.

Lemma insert_sorted_same_key x l :
  valid x -> Forall valid l ->
  StronglySorted (fun a b => key b <= key a) l ->
  List.filter (fun e => key e =? key x) (insert_sorted before x l)
  = (List.filter (fun e => key e =? key x) l ++ [x])%list.
Proof.
  intros Hx Hl Hs. induction Hs as [|y l Hs IH Hy]; cbn [insert_sorted].
  - cbn [List.filter]. now rewrite Z.eqb_refl.
  - apply List.Forall_cons_iff in Hl as [Hvy Hl].
    rewrite (before_key _ _ Hvy Hx).
    destruct (Z.leb_spec (key x) (key y)) as [Hle|Hlt].
    + cbn [List.filter]. rewrite (IH Hl). now destruct (key y =? key x).
    + cbn [List.filter]. rewrite Z.eqb_refl.
      destruct (Z.eqb_spec (key y) (key x)); [lia|].
      assert (List.filter (fun e => key e =? key x) l = []) as ->; [|reflexivity].
      clear IH Hs Hl. induction Hy as [|z l Hz _ IH]; [reflexivity|].
      cbn [List.filter]. destruct (Z.eqb_spec (key z) (key x)); [lia | exact IH].
Qed.

Lemma insert_sorted_other_key t x l :
  key x <> t ->
  List.filter (fun e => key e =? t) (insert_sorted before x l)
  = List.filter (fun e => key e =? t) l.
Proof.
  intros Hx. induction l as [|y l IH]; cbn [insert_sorted].
  - cbn [List.filter]. now destruct (Z.eqb_spec (key x) t).
  - destruct (before y x); cbn [List.filter].
    + rewrite IH. reflexivity.
    + now destruct (Z.eqb_spec (key x) t).
Qed.

Lemma fold_insert_sorted l : forall acc,
  Forall valid acc -> Forall valid l ->
  StronglySorted (fun a b => key b <= key a) acc ->
  let sorted := foldl (fun sorted x => insert_sorted before x sorted) acc l in
  sorted ≡ₚ (acc ++ l)%list
  /\ StronglySorted (fun a b => key b <= key a) sorted
  /\ Forall valid sorted
  /\ forall t, List.filter (fun e => key e =? t) sorted
               = (List.filter (fun e => key e =? t) acc
                  ++ List.filter (fun e => key e =? t) l)%list.
Proof.
  induction l as [|x l IH]; intros acc Hacc Hl Hs; cbn [foldl].
  - rewrite app_nil_r. repeat split; try assumption; [reflexivity|].
    intros t. cbn [List.filter]. now rewrite app_nil_r.
  - apply List.Forall_cons_iff in Hl as [Hx Hl].
    destruct (IH (insert_sorted before x acc)) as (Hp & Hs' & Hv & Hf).
    + now apply insert_sorted_valid.
    + exact Hl.
    + now apply insert_sorted_sorted.
    + cbn zeta in *. repeat split; try assumption.
      * rewrite Hp, insert_sorted_perm. apply Permutation_middle.
      * intros t. rewrite Hf. cbn [List.filter].
        destruct (Z.eqb_spec (key x) t) as [<-|Hne].
        -- rewrite insert_sorted_same_key by assumption.
           rewrite <- app_assoc. reflexivity.
        -- now rewrite insert_sorted_other_key.
Qed.

Lemma sort_stable_sorted l :
  Forall valid l ->
  sort_stable before l ≡ₚ l
  /\ StronglySorted (fun a b => key b <= key a) (sort_stable before l)
  /\ Forall valid (sort_stable before l)
  /\ forall t, List.filter (fun e => key e =? t) (sort_stable before l)
               = List.filter (fun e => key e =? t) l.
Proof.
  intros Hl. destruct (fold_insert_sorted l [] (Forall_nil_2 _) Hl) as (Hp & Hs & Hv & Hf).
  - constructor.
  - repeat split; assumption.
Qed.

End Sorting.

Section Timeline_more.
Import Js Analytics EventTimelinePage.
Variable Date_parse : string -> option Z.
Variable toLowerCase : string -> string.

Abbreviation time_of := (getTime Date_parse).
Abbreviation newest_first :=
  (fun a b => date_le (getTime Date_parse b) (getTime Date_parse a) = true).

Lemma queried_valid dateRange selectedUsers e :
  queried Date_parse dateRange selectedUsers e -> is_Some (time_of e).
Proof.
  intros [_ H]. unfold inDateRange, date_ge, getTime in *.
  destruct (new_Date Date_parse (timestamp (event e))); [eauto | discriminate].
Qed.

Lemma mapM_fetchTimeline dateRange users fetch selected : forall data,
  mapM (fetchTimeline Date_parse dateRange users fetch) selected = Ok data ->
  Forall (queried Date_parse dateRange selected) (flatten data).
Proof.
  induction selected as [|userId selected IH]; intros data; cbn [mapM].
  - intros [= <-]. constructor.
  - unfold fetchTimeline at 1. destruct (fetch userId) as [events|]; [|discriminate].
    cbn [bind].
    destruct (mapM (fetchTimeline Date_parse dateRange users fetch) selected) as [rest|];
      [|discriminate].
    cbn [bind]. intros [= <-]. unfold flatten. cbn [flat_map].
    apply Forall_app. split.
    + apply List.Forall_forall. intros e He. apply in_map_iff in He as (ev & <- & Hev).
      unfold userTimeline, filterByDateRange in Hev. cbn [timeline_events] in Hev.
      apply filter_In in Hev as [_ Hev].
      split; [left; reflexivity | exact Hev].
    + eapply Forall_impl; [apply (IH rest eq_refl)|].
      intros e [H1 H2]. split; [right; exact H1 | exact H2].
Qed.

Lemma timelineData_queried dateRange users selectedUsers fetch :
  Forall (queried Date_parse dateRange selectedUsers)
         (flatten (default [] (timelineData Date_parse dateRange users selectedUsers fetch))).
Proof.
  unfold timelineData. destruct selectedUsers as [|userId selected]; [constructor|].
  destruct (mapM _ (userId :: selected)) as [data|] eqn:E; [|constructor].
  exact (mapM_fetchTimeline _ _ _ _ _ E).
Qed.

Lemma newer_first_key a b :
  is_Some (time_of a) -> is_Some (time_of b) ->
  newer_first Date_parse a b = (default 0 (time_of b) <=? default 0 (time_of a)).
Proof.
  intros [ta Ha] [tb Hb]. unfold newer_first. rewrite Ha, Hb. simpl.
  destruct (Z.leb_spec (tb - ta) 0), (Z.leb_spec tb ta); try reflexivity; lia.
Qed.

Lemma at_instant_key t l :
  Forall (fun e => is_Some (time_of e)) l ->
  List.filter (at_instant Date_parse t) l
  = List.filter (fun e => default 0 (time_of e) =? t) l.
Proof.
  induction 1 as [|e l [te He] _ IH]; [reflexivity|].
  cbn [List.filter]. unfold at_instant at 1. rewrite He, IH. reflexivity.
Qed.

Lemma sorted_by_key l :
  Forall (fun e => is_Some (time_of e)) l ->
  StronglySorted (fun a b => default 0 (time_of b) <= default 0 (time_of a)) l ->
  StronglySorted newest_first l.
Proof.
  intros Hv Hs. induction Hs as [|a l Hs IH Ha]; [constructor|].
  apply List.Forall_cons_iff in Hv as [[ta Hta] Hv].
  constructor; [now apply IH|].
  apply List.Forall_forall. intros b Hb.
  rewrite List.Forall_forall in Ha, Hv.
  specialize (Ha b Hb). destruct (Hv b Hb) as [tb Htb].
  rewrite Hta, Htb in *. simpl in *. now apply Z.leb_le.
Qed.

Lemma allEvents_sorted dateRange users selectedUsers fetch :
  let data := timelineData Date_parse dateRange users selectedUsers fetch in
  allEvents Date_parse data ≡ₚ flatten (default [] data)
  /\ StronglySorted newest_first (allEvents Date_parse data)
  /\ (forall t, List.filter (at_instant Date_parse t) (allEvents Date_parse data)
                = List.filter (at_instant Date_parse t) (flatten (default [] data)))
  /\ Forall (queried Date_parse dateRange selectedUsers) (allEvents Date_parse data).
Proof.
  intros data.
  pose proof (timelineData_queried dateRange users selectedUsers fetch) as Hq.
  fold data in Hq. destruct data as [data|]; cbn [default from_option allEvents] in *.
  2:{ repeat split; constructor. }
  assert (Forall (fun e => is_Some (time_of e)) (flatten data)) as Hv.
  { eapply Forall_impl; [exact Hq|]. intros e. apply queried_valid. }
  destruct (sort_stable_sorted (newer_first Date_parse)
              (fun e => default 0 (time_of e)) (fun e => is_Some (time_of e))
              newer_first_key (flatten data) Hv) as (Hp & Hs & Hv' & Hf).
  repeat split.
  - exact Hp.
  - now apply sorted_by_key.
  - intros t. rewrite !at_instant_key by assumption. apply Hf.
  - rewrite Hp. exact Hq.
Qed.

(** X23.  The list of the Event Timeline page holds every event the query
    returned, once each; it runs from the newest to the oldest; events of the
    same instant keep the order the query gave them; and every event in it
    belongs to a selected user and passed the date range filter.  While the
    query has no data the list is empty. *)
Theorem allEvents_newest_first (dateRange : DateRange) (users : option (list User))
    (selectedUsers : list string) (fetch : string -> Exn (list EventData)) :
  let data := timelineData Date_parse dateRange users selectedUsers fetch in
  allEvents Date_parse data ≡ₚ flatten (default [] data)
  /\ StronglySorted newest_first (allEvents Date_parse data)
  /\ (forall t, List.filter (at_instant Date_parse t) (allEvents Date_parse data)
                = List.filter (at_instant Date_parse t) (flatten (default [] data)))
  /\ Forall (queried Date_parse dateRange selectedUsers) (allEvents Date_parse data)
  /\ allEvents Date_parse None = [].
Proof.
  intros data.
  destruct (allEvents_sorted dateRange users selectedUsers fetch) as (H1 & H2 & H3 & H4).
  repeat split; try assumption.
Qed.

Lemma filter_sorted {A} (R : A -> A -> Prop) (p : A -> bool) l :
  StronglySorted R l -> StronglySorted R (List.filter p l).
Proof.
  induction 1 as [|a l Hs IH Ha]; [constructor|].
  cbn [List.filter]. destruct (p a); [|exact IH].
  constructor; [exact IH|].
  apply List.Forall_forall. intros b Hb. apply filter_In in Hb as [Hb _].
  rewrite List.Forall_forall in Ha. now apply Ha.
Qed.

Lemma filter_all {A} (p : A -> bool) l :
  (forall x, p x = true) -> List.filter p l = l.
Proof.
  intros Hp. induction l as [|a l IH]; [reflexivity|].
  cbn [List.filter]. now rewrite Hp, IH.
Qed.

(** X24.  Filtering the list of the Event Timeline page keeps it running
    from the newest to the oldest and shows only events of the list; with a
    type chosen, every event shown has that type; and with the type filter
    on all and an empty search term the whole list is shown. *)
Theorem filteredEvents_keep_order (dateRange : DateRange) (users : option (list User))
    (selectedUsers : list string) (fetch : string -> Exn (list EventData))
    (eventTypeFilter searchTerm : string) :
  let all := allEvents Date_parse
               (timelineData Date_parse dateRange users selectedUsers fetch) in
  let shown := filteredEvents toLowerCase eventTypeFilter searchTerm all in
  StronglySorted newest_first shown
  /\ sublist shown all
  /\ (eventTypeFilter <> "all" ->
      Forall (fun e => eventName (event e) = eventTypeFilter) shown)
  /\ filteredEvents toLowerCase "all" EmptyString all = all.
Proof.
  intros all shown.
  destruct (allEvents_sorted dateRange users selectedUsers fetch) as (_ & Hs & _).
  fold all in Hs. repeat split.
  - apply filter_sorted. exact Hs.
  - unfold shown, filteredEvents. clear Hs.
    induction all as [|e l IH]; [constructor|].
    cbn [List.filter]. destruct (_ && _); now constructor.
  - intros Hall. apply List.Forall_forall. intros e He.
    apply filter_In in He as [_ He]. apply andb_true_iff in He as [He _].
    unfold matchesEventType in He. apply orb_true_iff in He as [He|He].
    + apply String.eqb_eq in He. contradiction.
    + now apply String.eqb_eq in He.
  - apply filter_all. intros e. reflexivity.
Qed.

End Timeline_more.

Section Toggle_more.
Import EventTimelinePage.

Lemma includes_spec userId prev :
  existsb (String.eqb userId) prev = true <-> In userId prev.
Proof.
  rewrite existsb_exists. split.
  - intros (x & Hx & He). apply String.eqb_eq in He. now subst.
  - intros H. exists userId. split; [exact H | apply String.eqb_refl].
Qed.

Lemma NoDup_list_filter {A} (p : A -> bool) (l : list A) :
  NoDup l -> NoDup (List.filter p l).
Proof.
  induction 1 as [|x l Hx Hnd IH]; [constructor|].
  cbn [List.filter]. destruct (p x); [|exact IH].
  constructor; [|exact IH].
  intros H. apply Hx. apply list_elem_of_In in H. apply filter_In in H as [H _].
  now apply list_elem_of_In.
Qed.

Lemma filter_absent userId prev :
  ~ In userId prev ->
  List.filter (fun id => negb (String.eqb id userId)) prev = prev.
Proof.
  induction prev as [|x prev IH]; [reflexivity|]. intros H.
  cbn [List.filter]. destruct (String.eqb_spec x userId) as [->|Hne].
  - exfalso. apply H. now left.
  - cbn [negb]. rewrite IH; [reflexivity|]. intros Hin. apply H. now right.
Qed.

Lemma filter_present userId prev :
  NoDup prev -> In userId prev ->
  (List.filter (fun id => negb (String.eqb id userId)) prev ++ [userId])%list ≡ₚ prev.
Proof.
  induction 1 as [|x prev Hx Hnd IH]; [intros []|].
  intros [->|Hin]; cbn [List.filter].
  - rewrite String.eqb_refl. cbn [negb].
    rewrite filter_absent by (now rewrite <- list_elem_of_In).
    symmetry. apply Permutation_cons_append.
  - destruct (String.eqb_spec x userId) as [->|Hne].
    + exfalso. apply Hx. now apply list_elem_of_In.
    + cbn [negb]. rewrite <- app_comm_cons. now rewrite IH.
Qed.

(** X25.  A click on a user's box flips whether that user is selected and
    leaves every other user as selected as before; a selection without
    repetitions stays without repetitions, and a second click on the same
    box gives back the same selection, up to its order. *)
Theorem handleUserToggle_flips (userId : string) (prev : list string) :
  NoDup prev ->
  NoDup (handleUserToggle userId prev)
  /\ (In userId (handleUserToggle userId prev) <-> ~ In userId prev)
  /\ (forall other, other <> userId ->
        (In other (handleUserToggle userId prev) <-> In other prev))
  /\ handleUserToggle userId (handleUserToggle userId prev) ≡ₚ prev.
Proof.
  intros Hnd. unfold handleUserToggle at 1 2 3.
  destruct (existsb (String.eqb userId) prev) eqn:E.
  - pose proof E as Hb. apply includes_spec in E.
    assert (~ In userId (List.filter (fun id => negb (String.eqb id userId)) prev)) as Hout.
    { intros H. apply filter_In in H as [_ H]. now rewrite String.eqb_refl in H. }
    split; [|split; [|split]].
    + now apply NoDup_list_filter.
    + split; [intros H; contradiction | intros H; contradiction].
    + intros other Hne. split.
      * intros H. now apply filter_In in H as [H _].
      * intros H. apply filter_In. split; [exact H|].
        now destruct (String.eqb_spec other userId).
    + unfold handleUserToggle. rewrite Hb.
      destruct (existsb (String.eqb userId)
                 (List.filter (fun id => negb (String.eqb id userId)) prev)) eqn:E'.
      * apply includes_spec in E'. contradiction.
      * now apply filter_present.
  - assert (~ In userId prev) as Hout.
    { intros H. apply includes_spec in H. congruence. }
    split; [|split; [|split]].
    + apply NoDup_app. split; [exact Hnd|]. split; [|apply NoDup_singleton].
      intros x Hx Hx'. apply list_elem_of_In in Hx. apply list_elem_of_singleton in Hx'.
      subst. contradiction.
    + split; [intros _; exact Hout | intros _; apply in_or_app; right; now left].
    + intros other Hne. split.
      * intros H. apply in_app_or in H as [H|[H|[]]]; [exact H | congruence].
      * intros H. apply in_or_app. now left.
    + unfold handleUserToggle. rewrite E.
      destruct (existsb (String.eqb userId) (prev ++ [userId])%list) eqn:E'.
      * rewrite List.filter_app. cbn [List.filter]. rewrite String.eqb_refl. cbn [negb].
        rewrite app_nil_r. now rewrite filter_absent.
      * exfalso. assert (In userId (prev ++ [userId])%list) as H
          by (apply in_or_app; right; now left).
        apply includes_spec in H. congruence.
Qed.

End Toggle_more.

Lemma handleUserToggle_flips_witness :
  NoDup ["ann"; "bob"]
  /\ EventTimelinePage.handleUserToggle "ann"
       (EventTimelinePage.handleUserToggle "ann" ["ann"; "bob"]) ≡ₚ ["ann"; "bob"].
Proof.
  assert (NoDup ["ann"; "bob"]) as H by (apply (bool_decide_unpack _); vm_compute; exact I).
  split; [exact H|].
  apply (handleUserToggle_flips "ann" ["ann"; "bob"] H).
Defined.

(** *** Batches and pages *)

Section Paging_more.
Import Paging.

Lemma stream_step_at_least_one s o :
  1 <= currentBatch s -> 1 <= currentBatch (stream_step s o).
Proof.
  intros H. destruct o as [| | | |hasMore|newSize]; simpl; try assumption; try lia.
  - unfold handlePreviousBatch. destruct (Z.gtb_spec (currentBatch s) 1); simpl; lia.
  - unfold handleNextBatch. destruct hasMore; simpl; lia.
Qed.

(** X26.  Whatever the user does with the stream controls of the Event
    Streams page, in whatever order, the batch number never goes below one. *)
Theorem currentBatch_at_least_one (s : Stream) (ops : list StreamOp) :
  1 <= currentBatch s ->
  Forall (fun s' => 1 <= currentBatch s') (stream_trace s ops).
Proof.
  revert s. induction ops as [|o ops IH]; intros s H; cbn [stream_trace].
  - constructor.
  - constructor; [now apply stream_step_at_least_one|].
    apply IH. now apply stream_step_at_least_one.
Qed.

Lemma notifications_step_within T page o :
  1 <= page -> (page = 1 \/ (page - 1) * 20 < T) ->
  Forall (fun t => t <= T) (totals [o]) ->
  1 <= notifications_step page o
  /\ (notifications_step page o = 1 \/ (notifications_step page o - 1) * 20 < T).
Proof.
  intros H1 H2 Ht. destruct o as [[t|]|]; cbn [notifications_step].
  - unfold handleNextPage. cbn in Ht. apply List.Forall_cons_iff in Ht as [Ht _].
    destruct (Z.ltb_spec (page * 20) t); [|auto]. split; [lia|]. right. lia.
  - auto.
  - unfold handlePrevPage. destruct (Z.gtb_spec page 1); [|auto].
    split; [lia|]. destruct H2 as [->|H2]; [lia|]. right. lia.
Qed.

(** X27.  On the Notifications page, starting from the first page, the page
    number never goes below one, and it only goes past the first page as far
    as the totals reported by the server allow: the notifications before the
    page on screen are fewer than the largest total reported. *)
Theorem page_within_total (T page : Z) (ops : list NotificationsOp) :
  1 <= page ->
  page = 1 \/ (page - 1) * 20 < T ->
  Forall (fun t => t <= T) (totals ops) ->
  Forall (fun p => 1 <= p /\ (p = 1 \/ (p - 1) * 20 < T)) (notifications_trace page ops).
Proof.
  revert page. induction ops as [|o ops IH]; intros page H1 H2 Ht; cbn [notifications_trace].
  - constructor.
  - assert (Forall (fun t => t <= T) (totals [o]) /\ Forall (fun t => t <= T) (totals ops))
      as [Ho Hops].
    { unfold totals in *. cbn [omap list_omap] in *.
      destruct o as [[t|]|]; cbn in *;
        [apply List.Forall_cons_iff in Ht as [Ht Hops]; split; [now constructor | exact Hops]
        | split; [constructor | exact Ht] ..]. }
    destruct (notifications_step_within T page o H1 H2 Ho) as [H1' H2'].
    constructor; [split; assumption|]. now apply IH.
Qed.

End Paging_more.

Lemma currentBatch_at_least_one_witness :
  Forall (fun s' => 1 <= Paging.currentBatch s')
         (Paging.stream_trace
            {| Paging.currentBatch := 1; Paging.batchSize := Js.Fin 25;
               Paging.isStreaming := false |}
            [Paging.previous_batch; Paging.next_batch true; Paging.previous_batch;
             Paging.previous_batch; Paging.change_batch_size (Js.Fin 50)]).
Proof.
  apply currentBatch_at_least_one. simpl. lia.
Defined.

Lemma page_within_total_witness :
  Forall (fun p => 1 <= p /\ (p = 1 \/ (p - 1) * 20 < 45))
         (Paging.notifications_trace 1
            [Paging.next_page (Some 45); Paging.next_page (Some 45);
             Paging.next_page (Some 45); Paging.prev_page; Paging.next_page None]).
Proof.
  apply page_within_total.
  - lia.
  - left. reflexivity.
  - apply (bool_decide_unpack _). vm_compute. exact I.
Defined.
